(** * Orion GNC: the mission worker and the flight-control command dispatch

    A shallow embedding of
    - [mission-sequencer/worker.py]: [update_mission_status] and the task
      [execute_mission];
    - [mission-sequencer/main.py]: the routes of the sequencer;
    - [gnc-flight-control/main.py]: [execute_command], the Redis subscriber
      and the WebSocket clients.

    Effects are kept as a chronological list of events (Redis calls,
    log records, sleeps, calls on the kRPC vessel handle).  The worker is
    given twice: in [Worker] every Redis call answers; in [Unreliable] each
    Redis call may raise, as an oracle says, and the run goes through the
    [try] statement of the task as the source writes it.  The two agree when
    every call answers.  The exceptions that are modelled are the ones
    Python raises on the data of a plan ([KeyError], [TypeError],
    [ValueError], [AttributeError], [OverflowError]), kRPC's [RPCError] and
    the errors of the Redis client.  A Python float is a binary64 double:
    [x / 1000.0] rounds, an int too large for a double raises, and
    [time.sleep] refuses a NaN, a negative length and a length beyond its
    range.

    The loop that pops the plan queue is not among the sources; it is given
    in [Consumer] as the specification describes it. *)

From Stdlib Require Import ZArith Lia DecimalString Floats.
From stdpp Require Import base strings list gmap.

Set Warnings "-register-all".
Local Open Scope string_scope.
Local Open Scope list_scope.

(** ** Python values *)
Module Py.

(** A value produced by [json.loads]. *)
Inductive json : Type :=
| JNull
| JBool (b : bool)
| JInt (z : Z)
| JFloat (f : float)
| JStr (s : string)
| JArr (items : list json)
| JObj (members : list (string * json)).

(** [d.get(key)] on the items of a dict. *)
Fixpoint dict_get (key : string) (d : list (string * json)) : option json :=
  match d with
  | [] => None
  | (k, v) :: rest => if String.eqb k key then Some v else dict_get key rest
  end.

(** [type(v).__name__]. *)
Definition type_name (v : json) : string :=
  match v with
  | JNull => "NoneType"
  | JBool _ => "bool"
  | JInt _ => "int"
  | JFloat _ => "float"
  | JStr _ => "str"
  | JArr _ => "list"
  | JObj _ => "dict"
  end.

(** [bool(v)]: Python truthiness. *)
Definition truthy (v : json) : bool :=
  match v with
  | JNull => false
  | JBool b => b
  | JInt z => negb (Z.eqb z 0)
  | JFloat f => negb (f =? 0)%float
  | JStr s => negb (String.eqb s "")
  | JArr items => match items with [] => false | _ => true end
  | JObj members => match members with [] => false | _ => true end
  end.

(** Exceptions, all of them subclasses of [Exception]: Python's own, kRPC's
    [RPCError], and [ConnectionError] for what a call of the Redis client
    raises. *)
Inductive exn : Type :=
| KeyError (key : string)
| TypeError (msg : string)
| ValueError (msg : string)
| AttributeError (msg : string)
| OverflowError (msg : string)
| RPCError (msg : string)
| ConnectionError (msg : string).

(** [str(e)]: a [KeyError] shows the repr of its key. *)
Definition str_exn (e : exn) : string :=
  match e with
  | KeyError key => "'" +:+ key +:+ "'"
  | TypeError msg | ValueError msg | AttributeError msg | OverflowError msg
  | RPCError msg | ConnectionError msg => msg
  end.

(** The conversion of an [int] to a [float], as [float(z)] and the mixed
    arithmetic [z / 1000.0] make it: the nearest double, ties to even, and
    [OverflowError] when that is beyond the largest double. *)
Definition float_of_int (z : Z) : exn + float :=
  match binary_normalize prec emax z 0 false with
  | S754_infinity _ => inl (OverflowError "int too large to convert to float")
  | f => inr (SF2Prim f)
  end.

(** [str(n)] for a non-negative int. *)
Definition str_nat (n : nat) : string :=
  NilEmpty.string_of_uint (Nat.to_uint n).

(** [str(x)] where [x] is a string or [None]. *)
Definition str_opt (x : option string) : string :=
  match x with
  | Some s => s
  | None => "None"
  end.

(** [needle in hay] on strings. *)
Fixpoint py_in (needle hay : string) : bool :=
  String.prefix needle hay
  || match hay with
     | EmptyString => false
     | String _ rest => py_in needle rest
     end.

(** One step of a mission plan: a dict.  Its tag under key ["command"] is a
    string when present; [items] holds the other keys. *)
Record cmd_dict : Type := MkCmd {
  tag : option string;
  items : list (string * json)
}.

End Py.
Import Py.

(** ** mission-sequencer/worker.py *)
Module Worker.

(** What [json.dumps] is applied to before a Redis call; the serialised
    text itself is not modelled. *)
Inductive payload : Type :=
| StatusSnapshot (status details : string)
| StatusMessage (mission_id status details : string)
| CommandMessage (cmd : cmd_dict).

Inductive event : Type :=
| RedisSet (key : string) (value : payload)
| RedisPublish (channel : string) (message : payload)
| LogInfo (text : string)
| LogError (text : string)
| PubsubSubscribe (channel : string)
| PubsubUnsubscribe
| PubsubClose
| Sleep (seconds : float).

(** A message dict handed out by [abort_pubsub.get_message()]. *)
Record message : Type := MkMessage {
  msg_type : string;
  msg_data : json
}.

(** What surrounds one run of the task.  [abort_channel] lists what the
    successive calls of [get_message()] return ([None] when nothing is
    pending; the confirmation of the subscription is a message of type
    ["subscribe"]).  [shutdown_requested] tells whether the service has been
    asked to stop while the task runs: worker.py has no reference to such a
    flag, and no definition below reads it. *)
Record environment : Type := MkEnv {
  shutdown_requested : bool;
  abort_channel : list (option message)
}.

Record mission_plan : Type := MkPlan {
  mission_id : string;
  flight_plan : list cmd_dict
}.

Definition status_key (mission_id : string) : string :=
  "mission:" +:+ mission_id +:+ ":status".

(** [update_mission_status] when both calls of the Redis client answer (as
    every call does in this module; [Unreliable] below has the calls that
    raise). *)
Definition update_mission_status (mission_id status details : string)
  : list event :=
  [ RedisSet (status_key mission_id) (StatusSnapshot status details);
    RedisPublish "mission_status" (StatusMessage mission_id status details);
    LogInfo ("Mission " +:+ mission_id +:+ " status updated to " +:+ status
             +:+ ": " +:+ details) ].

(** [abort_pubsub.get_message()]: the next pending message, if any. *)
Definition get_message (pending : list (option message))
  : option message * list (option message) :=
  match pending with
  | [] => (None, [])
  | m :: rest => (m, rest)
  end.

(** [message['data'] == mission_id], the right-hand side being a [str]. *)
Definition data_is (v : json) (mission_id : string) : bool :=
  match v with
  | JStr s => String.eqb s mission_id
  | _ => false
  end.

(** [message and message['type'] == 'message' and
     message['data'] == mission_id]. *)
Definition abort_signal (mission_id : string) (m : option message) : bool :=
  match m with
  | None => false
  | Some msg =>
      String.eqb (msg_type msg) "message" && data_is (msg_data msg) mission_id
  end.

(** [cmd.get('delay_ms', 1000) / 1000.0]: a division of doubles, the left
    operand converted first when it is an [int] or a [bool]. *)
Definition delay_of (cmd : cmd_dict) : exn + float :=
  match dict_get "delay_ms" (items cmd) with
  | None => inr (1000 / 1000)%float
  | Some (JInt z) =>
      match float_of_int z with
      | inl e => inl e
      | inr f => inr (f / 1000)%float
      end
  | Some (JFloat f) => inr (f / 1000)%float
  | Some (JBool b) => inr ((if b then 1 else 0) / 1000)%float
  | Some v =>
      inl (TypeError ("unsupported operand type(s) for /: '" +:+ type_name v
                      +:+ "' and 'float'"))
  end.

(** What [time.sleep(delay)] raises on a [float], if it raises (CPython
    3.11 and 3.12, [time_sleep] and [pytime_from_double]): a NaN is refused;
    the delay is taken to nanoseconds in double arithmetic and rounded away
    from zero, which must land in the range of a signed 64-bit integer (the
    doubles next to 2^63 are integers, so the rounding does not change the
    test); a negative number of nanoseconds is refused last.  The releases
    from 3.8 to 3.10 do the same but at a product of exactly 2^63
    nanoseconds, where the conversion to an integer is left undefined. *)
Definition sleep_refused (delay : float) : option exn :=
  if is_nan delay then Some (ValueError "Invalid value NaN (not a number)")
  else
    let ns := (delay * 1e9)%float in
    if (ns <? - 0x1p63)%float || (0x1p63 <=? ns)%float then
      Some (OverflowError "timestamp too large to convert to C _PyTime_t")
    else if (ns <? 0)%float then
      Some (ValueError "sleep length must be non-negative")
    else None.

(** [time.sleep(delay)]. *)
Definition sleep (delay : float) : exn + list event :=
  match sleep_refused delay with
  | Some e => inl e
  | None => inr [Sleep delay]
  end.

(** How the [for] loop is left. *)
Inductive loop_exit : Type :=
| Exhausted
| Return (status : string)
| Raise (e : exn).

(** The body of [for i, cmd in enumerate(mission_plan['flight_plan'])],
    from index [i] on; [total] is [len(mission_plan['flight_plan'])]. *)
Fixpoint run_flight_plan (mission_id : string) (total i : nat)
    (cmds : list cmd_dict) (pending : list (option message))
  : list event * loop_exit :=
  match cmds with
  | [] => ([], Exhausted)
  | cmd :: rest =>
      let '(message, pending') := get_message pending in
      if abort_signal mission_id message then
        (update_mission_status mission_id "ABORTED"
           "Mission aborted by operator.", Return "ABORTED")
      else
        match tag cmd with
        | None => ([], Raise (KeyError "command"))
        | Some command =>
            let announced :=
              update_mission_status mission_id "IN_PROGRESS"
                ("Executing command " +:+ str_nat (i + 1) +:+ "/"
                 +:+ str_nat total +:+ ": " +:+ command)
              ++ [RedisPublish "gnc_commands" (CommandMessage cmd)] in
            match delay_of cmd with
            | inl e => (announced, Raise e)
            | inr delay =>
                match sleep delay with
                | inl e => (announced, Raise e)
                | inr slept =>
                    let '(later, exit) :=
                      run_flight_plan mission_id total (S i) rest pending' in
                    (announced ++ slept ++ later, exit)
                end
            end
        end
  end.

(** What the task hands back to Celery. *)
Inductive outcome : Type :=
| Returned (status : string)
| Raised (e : exn).

Definition execute_mission (env : environment) (plan : mission_plan)
  : list event * outcome :=
  let id := mission_id plan in
  let started :=
    update_mission_status id "IN_PROGRESS" "Starting mission execution."
    ++ [PubsubSubscribe "mission_abort_commands"] in
  let '(body, exit) :=
    run_flight_plan id (length (flight_plan plan)) 0 (flight_plan plan)
      (abort_channel env) in
  let finally := [PubsubUnsubscribe; PubsubClose] in
  match exit with
  | Exhausted =>
      (started ++ body
       ++ update_mission_status id "COMPLETED"
            "All mission commands executed successfully."
       ++ finally, Returned "COMPLETED")
  | Return status => (started ++ body ++ finally, Returned status)
  | Raise e =>
      (started ++ body
       ++ [LogError ("Error executing mission " +:+ id +:+ ": " +:+ str_exn e)]
       ++ update_mission_status id "FAILED"
            ("An error occurred: " +:+ str_exn e)
       ++ finally, Raised e)
  end.

(** *** Reading a trace *)

(** The Redis key space after the trace, from [store]. *)
Definition redis_apply (store : gmap string payload) (e : event)
  : gmap string payload :=
  match e with
  | RedisSet key value => <[key := value]> store
  | _ => store
  end.

Definition redis_after (trace : list event) (store : gmap string payload)
  : gmap string payload :=
  foldl redis_apply store trace.

(** The messages published on [channel], in order. *)
Fixpoint published (channel : string) (trace : list event) : list payload :=
  match trace with
  | [] => []
  | RedisPublish c m :: rest =>
      if String.eqb c channel then m :: published channel rest
      else published channel rest
  | _ :: rest => published channel rest
  end.

(** The commands forwarded to the flight-control service. *)
Definition forwarded (trace : list event) : list payload :=
  published "gnc_commands" trace.

(** The status snapshots written, as (key, status, details), in order. *)
Fixpoint status_writes (trace : list event) : list (string * string * string) :=
  match trace with
  | [] => []
  | RedisSet key (StatusSnapshot status details) :: rest =>
      (key, status, details) :: status_writes rest
  | _ :: rest => status_writes rest
  end.

(** The status messages published, as (mission id, status, details). *)
Fixpoint status_messages (trace : list event)
  : list (string * string * string) :=
  match trace with
  | [] => []
  | RedisPublish _ (StatusMessage id status details) :: rest =>
      (id, status, details) :: status_messages rest
  | _ :: rest => status_messages rest
  end.

(** The channels anything was published on. *)
Fixpoint channels (trace : list event) : list string :=
  match trace with
  | [] => []
  | RedisPublish c _ :: rest => c :: channels rest
  | _ :: rest => channels rest
  end.

(** The durations slept. *)
Fixpoint sleeps (trace : list event) : list float :=
  match trace with
  | [] => []
  | Sleep d :: rest => d :: sleeps rest
  | _ :: rest => sleeps rest
  end.

Definition terminal (status : string) : bool :=
  String.eqb status "COMPLETED" || String.eqb status "FAILED"
  || String.eqb status "ABORTED".

End Worker.
Import Worker.

(** ** mission-sequencer/worker.py, the Redis client failing *)

(** [Worker] is the task when every call of the Redis client answers.  Here
    each such call may raise instead ([redis_client.set], [.publish],
    [abort_pubsub.subscribe], [.get_message], [.unsubscribe], [.close]), and
    the exception takes the way Python gives it through [try], [except
    Exception] and [finally].  A call that raises leaves no event. *)
Module Unreliable.

(** What the task runs in: [redis] tells what the calls of the Redis client
    to come do, in order ([None]: the call answers, [Some e]: it raises
    [e]; calls beyond the end of the list answer), [pending] what
    [get_message()] has to hand out. *)
Record world : Type := MkWorld {
  redis : list (option exn);
  pending : list (option message)
}.

(** A piece of the task: from a world, the events made, the world left, and
    the value returned or the exception raised. *)
Definition run (A : Type) : Type := world -> list event * world * (exn + A).

Definition ret {A : Type} (a : A) : run A := fun w => ([], w, inr a).

Definition raise {A : Type} (e : exn) : run A := fun w => ([], w, inl e).

Definition bind {A B : Type} (m : run A) (f : A -> run B) : run B :=
  fun w =>
    let '(t, w', r) := m w in
    match r with
    | inl e => (t, w', inl e)
    | inr a => let '(t', w'', r') := f a w' in (t ++ t', w'', r')
    end.

Notation "'let!' x ':=' m 'in' k" := (bind m (fun x => k))
  (at level 10, x name, m at level 100, k at level 200).
Notation "m ;; k" := (bind m (fun _ => k))
  (at level 100, right associativity).

(** Logging and sleeping: no Redis call. *)
Definition emit (events : list event) : run unit :=
  fun w => (events, w, inr tt).

(** One call of the Redis client that, answering, leaves event [e]. *)
Definition call (e : event) : run unit :=
  fun w =>
    match redis w with
    | Some x :: later => ([], MkWorld later (pending w), inl x)
    | None :: later => ([e], MkWorld later (pending w), inr tt)
    | [] => ([e], w, inr tt)
    end.

(** [try: m except Exception as e: handler(e)]. *)
Definition try_except {A : Type} (m : run A) (handler : exn -> run A) : run A :=
  fun w =>
    let '(t, w', r) := m w in
    match r with
    | inl e => let '(t', w'', r') := handler e w' in (t ++ t', w'', r')
    | inr a => (t, w', inr a)
    end.

(** [try: m finally: cleanup]: the clean-up runs however [m] ends, and an
    exception it raises replaces the outcome of [m]. *)
Definition try_finally {A : Type} (m : run A) (cleanup : run unit) : run A :=
  fun w =>
    let '(t, w', r) := m w in
    let '(t', w'', r') := cleanup w' in
    (t ++ t', w'',
     match r' with
     | inl e => inl e
     | inr _ => r
     end).

Definition update_mission_status (mission_id status details : string)
  : run unit :=
  call (RedisSet (status_key mission_id) (StatusSnapshot status details)) ;;
  call (RedisPublish "mission_status"
          (StatusMessage mission_id status details)) ;;
  emit [LogInfo ("Mission " +:+ mission_id +:+ " status updated to "
                 +:+ status +:+ ": " +:+ details)].

(** [abort_pubsub.get_message()]. *)
Definition get_message : run (option message) :=
  fun w =>
    match redis w with
    | Some x :: later => ([], MkWorld later (pending w), inl x)
    | _ =>
        let '(m, rest) := Worker.get_message (pending w) in
        ([], MkWorld (tail (redis w)) rest, inr m)
    end.

(** The [for] loop from index [i] on; the value is the status returned from
    inside the loop, if the loop is left that way. *)
Fixpoint run_flight_plan (mission_id : string) (total i : nat)
    (cmds : list cmd_dict) : run (option string) :=
  match cmds with
  | [] => ret None
  | cmd :: rest =>
      let! message := get_message in
      if abort_signal mission_id message then
        update_mission_status mission_id "ABORTED"
          "Mission aborted by operator." ;;
        ret (Some "ABORTED")
      else
        match tag cmd with
        | None => raise (KeyError "command")
        | Some command =>
            update_mission_status mission_id "IN_PROGRESS"
              ("Executing command " +:+ str_nat (i + 1) +:+ "/"
               +:+ str_nat total +:+ ": " +:+ command) ;;
            call (RedisPublish "gnc_commands" (CommandMessage cmd)) ;;
            match delay_of cmd with
            | inl e => raise e
            | inr delay =>
                match sleep delay with
                | inl e => raise e
                | inr slept =>
                    emit slept ;;
                    run_flight_plan mission_id total (S i) rest
                end
            end
        end
  end.

(** The body of the [try]. *)
Definition try_body (plan : mission_plan) : run string :=
  let! exit :=
    run_flight_plan (mission_id plan) (length (flight_plan plan)) 0
      (flight_plan plan) in
  match exit with
  | Some status => ret status
  | None =>
      update_mission_status (mission_id plan) "COMPLETED"
        "All mission commands executed successfully." ;;
      ret "COMPLETED"
  end.

(** The [except Exception as e] clause. *)
Definition except_clause (plan : mission_plan) (e : exn) : run string :=
  emit [LogError ("Error executing mission " +:+ mission_id plan +:+ ": "
                  +:+ str_exn e)] ;;
  update_mission_status (mission_id plan) "FAILED"
    ("An error occurred: " +:+ str_exn e) ;;
  raise e.

(** The [finally] clause. *)
Definition finally_clause : run unit :=
  call PubsubUnsubscribe ;; call PubsubClose.

Definition task (plan : mission_plan) : run string :=
  update_mission_status (mission_id plan) "IN_PROGRESS"
    "Starting mission execution." ;;
  call (PubsubSubscribe "mission_abort_commands") ;;
  try_finally (try_except (try_body plan) (except_clause plan)) finally_clause.

Definition execute_mission (redis : list (option exn)) (env : environment)
    (plan : mission_plan) : list event * outcome :=
  let '(trace, _, r) := task plan (MkWorld redis (abort_channel env)) in
  (trace,
   match r with
   | inl e => Raised e
   | inr status => Returned status
   end).

End Unreliable.

(** ** gnc-flight-control/main.py *)
Module FlightControl.

(** Calls on the kRPC handle.  The first six are the ones [execute_command]
    makes on [vessel.control] and [vessel.auto_pilot]; the last three are
    kRPC's stream interface ([conn.add_stream], calling the stream,
    [stream.remove]), which no function of main.py calls. *)
Inductive call : Type :=
| SetThrottle (value : float)
| ActivateNextStage
| SetSas (value : bool)
| SetRcs (value : bool)
| AutoPilotEngage
| TargetPitchAndHeading (pitch heading : float)
| AddStream
| StreamRead
| StreamRemove.

Inductive effect : Type :=
| Logged (level text : string)
(** [logger.info(f"Executing command: {command} with parameters: {params}")] *)
| LoggedExecuting (command : option string) (params : json)
| Called (c : call).

(** The globals [krpc_conn] and [vessel] and the simulation behind them:
    [connected] when both are set, [rpc_failure] the text of the [RPCError]
    that calls on the handle raise (if they do), [apoapsis_altitude] the
    values [vessel.orbit.apoapsis_altitude] takes from now on. *)
Record krpc_state : Type := MkKrpc {
  connected : bool;
  rpc_failure : option string;
  apoapsis_altitude : list Z
}.

Section Dispatch.

(** Python's [float(s)] on a [str]: the number read, or what it raises. *)
Variable float_of_str : string -> exn + float.

(** [float(v)] (the wording of the [TypeError] is CPython 3.10's). *)
Definition py_float (v : json) : exn + float :=
  match v with
  | JInt z => float_of_int z
  | JFloat f => inr f
  | JBool b => inr (if b then 1%float else 0%float)
  | JStr s => float_of_str s
  | _ =>
      inl (TypeError ("float() argument must be a string or a real number, not '"
                      +:+ type_name v +:+ "'"))
  end.

(** [params.get(key, default)]. *)
Definition params_get (params : json) (key : string) (default : json)
  : exn + json :=
  match params with
  | JObj members =>
      inr (match dict_get key members with Some v => v | None => default end)
  | _ =>
      inl (AttributeError ("'" +:+ type_name params
                           +:+ "' object has no attribute 'get'"))
  end.

(** One call on the handle. *)
Definition rpc (st : krpc_state) (c : call) : list effect * option exn :=
  match rpc_failure st with
  | Some msg => ([], Some (RPCError msg))
  | None => ([Called c], None)
  end.

Definition is_command (command : option string) (name : string) : bool :=
  match command with
  | Some s => String.eqb s name
  | None => false
  end.

(** The tags the [if]/[elif] chain of [execute_command] has an arm for. *)
Definition known_command (command : option string) : bool :=
  is_command command "SET_THROTTLE"
  || is_command command "ACTIVATE_NEXT_STAGE"
  || is_command command "SET_SAS"
  || is_command command "SET_RCS"
  || is_command command "SET_AUTOPILOT_PITCH_AND_HEADING".

(** The body of the [try] block: the effects made, and the exception that
    ends it, if any. *)
Definition dispatch (st : krpc_state) (command : option string) (params : json)
  : list effect * option exn :=
  if is_command command "SET_THROTTLE" then
    match params_get params "value" (JFloat 0%float) with
    | inl e => ([], Some e)
    | inr v =>
        match py_float v with
        | inl e => ([], Some e)
        | inr x => rpc st (SetThrottle x)
        end
    end
  else if is_command command "ACTIVATE_NEXT_STAGE" then
    rpc st ActivateNextStage
  else if is_command command "SET_SAS" then
    match params_get params "value" (JBool false) with
    | inl e => ([], Some e)
    | inr v => rpc st (SetSas (truthy v))
    end
  else if is_command command "SET_RCS" then
    match params_get params "value" (JBool false) with
    | inl e => ([], Some e)
    | inr v => rpc st (SetRcs (truthy v))
    end
  else if is_command command "SET_AUTOPILOT_PITCH_AND_HEADING" then
    match rpc st AutoPilotEngage with
    | (done, Some e) => (done, Some e)
    | (done, None) =>
        match params_get params "pitch" (JInt 90) with
        | inl e => (done, Some e)
        | inr p =>
            match py_float p with
            | inl e => (done, Some e)
            | inr pitch =>
                match params_get params "heading" (JInt 90) with
                | inl e => (done, Some e)
                | inr h =>
                    match py_float h with
                    | inl e => (done, Some e)
                    | inr heading =>
                        let '(more, r) :=
                          rpc st (TargetPitchAndHeading pitch heading) in
                        (done ++ more, r)
                    end
                end
            end
        end
    end
  else
    ([Logged "WARNING" ("Unknown command: " +:+ str_opt command)], None).

(** The two [except] clauses. *)
Definition report (command : option string) (e : exn) : effect :=
  match e with
  | RPCError _ =>
      Logged "ERROR" ("kRPC Error executing command '" +:+ str_opt command
                      +:+ "': " +:+ str_exn e)
  | _ =>
      Logged "ERROR" ("Error executing command '" +:+ str_opt command
                      +:+ "': " +:+ str_exn e)
  end.

Definition execute_command (st : krpc_state) (command_data : cmd_dict)
  : list effect :=
  if negb (connected st) then
    [Logged "ERROR" "Cannot execute command: kRPC is not connected."]
  else
    let command := tag command_data in
    let params :=
      match dict_get "parameters" (items command_data) with
      | Some v => v
      | None => JObj []
      end in
    let '(done, raised) := dispatch st command params in
    LoggedExecuting command params :: done
    ++ match raised with
       | Some e => [report command e]
       | None => []
       end.

End Dispatch.

(** A [float] on strings that reads none of them, for statements where no
    string is converted. *)
Definition float_unreadable (s : string) : exn + float :=
  inl (ValueError ("could not convert string to float: '" +:+ s +:+ "'")).

Definition handle_calls (trace : list effect) : list call :=
  omap (fun e => match e with Called c => Some c | _ => None end) trace.

(** How many values were read from a telemetry stream, and how many times a
    stream was released. *)
Fixpoint polls (trace : list effect) : nat :=
  match trace with
  | [] => 0
  | Called StreamRead :: rest => S (polls rest)
  | _ :: rest => polls rest
  end.

Fixpoint unsubscribes (trace : list effect) : nat :=
  match trace with
  | [] => 0
  | Called StreamRemove :: rest => S (unsubscribes rest)
  | _ :: rest => unsubscribes rest
  end.

End FlightControl.

(** ** Runs without incident *)

(** The step raises nothing on the data of the plan: the tag is there, the
    delay is a number that converts to a double, and [time.sleep] takes
    it. *)
Definition well_formed (cmd : cmd_dict) : bool :=
  match tag cmd, delay_of cmd with
  | Some _, inr delay =>
      match sleep_refused delay with
      | None => true
      | Some _ => false
      end
  | _, _ => false
  end.

(** The exception the step raises, if it raises one. *)
Definition failure_of (cmd : cmd_dict) : option exn :=
  match tag cmd with
  | None => Some (KeyError "command")
  | Some _ =>
      match delay_of cmd with
      | inl e => Some e
      | inr delay =>
          match sleep delay with
          | inl e => Some e
          | inr _ => None
          end
      end
  end.

(** None of the first [n] reads of the abort channel is an abort of [id]. *)
Definition no_abort (id : string) (n : nat) (pending : list (option message))
  : Prop :=
  Forall (fun m => abort_signal id m = false) (take n pending).

(** What one step without incident leaves in the trace. *)
Definition step_events (id : string) (total i : nat) (cmd : cmd_dict)
  : list event :=
  match tag cmd, delay_of cmd with
  | Some command, inr delay =>
      update_mission_status id "IN_PROGRESS"
        ("Executing command " +:+ str_nat (i + 1) +:+ "/" +:+ str_nat total
         +:+ ": " +:+ command)
      ++ [RedisPublish "gnc_commands" (CommandMessage cmd); Sleep delay]
  | _, _ => []
  end.

Fixpoint nominal (id : string) (total i : nat) (cmds : list cmd_dict)
  : list event :=
  match cmds with
  | [] => []
  | cmd :: rest => step_events id total i cmd ++ nominal id total (S i) rest
  end.

(** The delay of a step that has one, in seconds. *)
Definition delay_seconds (cmd : cmd_dict) : float :=
  match delay_of cmd with
  | inr delay => delay
  | inl _ => 0%float
  end.

Definition started (id : string) : list event :=
  update_mission_status id "IN_PROGRESS" "Starting mission execution."
  ++ [PubsubSubscribe "mission_abort_commands"].

Definition released : list event := [PubsubUnsubscribe; PubsubClose].

(** The part of a step that is in the trace when the step raises after its
    tag has been read. *)
Definition announced (id : string) (total i : nat) (cmd : cmd_dict)
  : list event :=
  match tag cmd with
  | Some command =>
      update_mission_status id "IN_PROGRESS"
        ("Executing command " +:+ str_nat (i + 1) +:+ "/" +:+ str_nat total
         +:+ ": " +:+ command)
      ++ [RedisPublish "gnc_commands" (CommandMessage cmd)]
  | None => []
  end.

Definition abort_events (id : string) : list event :=
  update_mission_status id "ABORTED" "Mission aborted by operator.".

Definition completed_events (id : string) : list event :=
  update_mission_status id "COMPLETED"
    "All mission commands executed successfully.".

(** The [except] clause. *)
Definition failed_events (id : string) (e : exn) : list event :=
  [LogError ("Error executing mission " +:+ id +:+ ": " +:+ str_exn e)]
  ++ update_mission_status id "FAILED" ("An error occurred: " +:+ str_exn e).

(** Store writes and status publications come in pairs: every write of a
    snapshot is followed at once by the publication of the same status and
    details, for the mission of that key, on ["mission_status"], and no
    status is published otherwise. *)
Fixpoint paired (trace : list event) : Prop :=
  match trace with
  | [] => True
  | RedisSet key (StatusSnapshot status details) :: rest =>
      match rest with
      | RedisPublish channel (StatusMessage id status' details') :: rest' =>
          key = status_key id /\ channel = "mission_status"
          /\ status' = status /\ details' = details /\ paired rest'
      | _ => False
      end
  | RedisSet _ _ :: _ => False
  | RedisPublish _ (StatusMessage _ _ _) :: _ => False
  | _ :: rest => paired rest
  end.

(** Every command forwarded in the trace is followed at once by the sleep of
    its delay, when it has a delay that can be slept. *)
Fixpoint delay_follows (trace : list event) : Prop :=
  match trace with
  | [] => True
  | RedisPublish _ (CommandMessage cmd) :: rest =>
      (forall delay, delay_of cmd = inr delay -> sleep_refused delay = None ->
         exists rest', rest = Sleep delay :: rest')
      /\ delay_follows rest
  | _ :: rest => delay_follows rest
  end.

Definition status_of (record : string * string * string) : string :=
  record.1.2.

(** The record is of a mission still running. *)
Definition running (record : string * string * string) : Prop :=
  terminal (status_of record) = false.

(** ** Runs in which the Redis client may fail *)

(** Every call of the Redis client answers. *)
Definition reliable (redis : list (option exn)) : Prop :=
  Forall (fun r => r = None) redis.

(** How the loop of [Worker] is left, from the result of the loop of
    [Unreliable]. *)
Definition exit_of (r : exn + option string) : loop_exit :=
  match r with
  | inl e => Raise e
  | inr None => Exhausted
  | inr (Some status) => Return status
  end.

(** What a status update leaves when its second call raises: the snapshot,
    written and not published. *)
Definition snapshot_only (id status details : string) : list event :=
  [RedisSet (status_key id) (StatusSnapshot status details)].

(** What a status update leaves when one of its calls raises. *)
Definition update_cut (id status details : string) (t : list event) : Prop :=
  t = [] \/ t = snapshot_only id status details.

(** What step [i] of the loop, on [cmd], leaves in the trace when it raises
    [e]: nothing (the read of the abort channel raised, or the first call of
    a status update, or the tag is missing); the snapshot of ABORTED or of
    the announcement alone (its publication raised); the whole announcement
    (the publication of the command raised); the announcement and the
    command (the delay cannot be computed or slept). *)
Inductive stopped (id : string) (total i : nat) (cmd : cmd_dict) (e : exn)
  : list event -> Prop :=
| stopped_at_once : stopped id total i cmd e []
| stopped_aborting :
    stopped id total i cmd e
      (snapshot_only id "ABORTED" "Mission aborted by operator.")
| stopped_announcing (command : string) :
    tag cmd = Some command ->
    stopped id total i cmd e
      (snapshot_only id "IN_PROGRESS"
         ("Executing command " +:+ str_nat (i + 1) +:+ "/" +:+ str_nat total
          +:+ ": " +:+ command))
| stopped_forwarding (command : string) :
    tag cmd = Some command ->
    stopped id total i cmd e
      (update_mission_status id "IN_PROGRESS"
         ("Executing command " +:+ str_nat (i + 1) +:+ "/" +:+ str_nat total
          +:+ ": " +:+ command))
| stopped_on_data :
    failure_of cmd = Some e ->
    stopped id total i cmd e (announced id total i cmd).

(** What a run can end with, after the steps without incident: the record
    of the completion, the record of the abort, or what is left of the step
    (or of the completion) that raised, followed by the [except] clause. *)
Definition ending (id : string) (total : nat) (done rest : list cmd_dict)
    (middle fin : list event) (o : outcome) : Prop :=
  (rest = [] /\ middle = completed_events id
   /\ (fin = released -> o = Returned "COMPLETED"))
  \/ (rest <> [] /\ middle = abort_events id
      /\ (fin = released -> o = Returned "ABORTED"))
  \/ (exists broken e fcut,
        middle
        = broken
          ++ LogError ("Error executing mission " +:+ id +:+ ": "
                       +:+ str_exn e) :: fcut
        /\ (exists e', o = Raised e')
        /\ (fcut = update_mission_status id "FAILED"
                     ("An error occurred: " +:+ str_exn e)
            \/ update_cut id "FAILED" ("An error occurred: " +:+ str_exn e)
                 fcut)
        /\ ((rest = []
             /\ update_cut id "COMPLETED"
                  "All mission commands executed successfully." broken)
            \/ (exists cmd rest',
                  rest = cmd :: rest'
                  /\ stopped id total (length done) cmd e broken))).

(** No status is published but right after the write of its snapshot, and
    then with the same status and details, for the mission of the key, on
    ["mission_status"].  A snapshot may stay without publication. *)
Fixpoint written_first (trace : list event) : Prop :=
  match trace with
  | [] => True
  | RedisSet key (StatusSnapshot status details) :: rest =>
      match rest with
      | RedisPublish channel (StatusMessage id status' details') :: rest' =>
          key = status_key id /\ channel = "mission_status"
          /\ status' = status /\ details' = details /\ written_first rest'
      | _ => written_first rest
      end
  | RedisSet _ _ :: _ => False
  | RedisPublish _ (StatusMessage _ _ _) :: _ => False
  | _ :: rest => written_first rest
  end.

(** Nothing about a status follows the publication of a terminal status. *)
Fixpoint settled (trace : list event) : Prop :=
  match trace with
  | [] => True
  | RedisPublish _ (StatusMessage _ status _) :: rest =>
      if terminal status
      then status_writes rest = [] /\ status_messages rest = []
      else settled rest
  | _ :: rest => settled rest
  end.

(** In a run of the task for mission [id] that ends with [o]: each command
    forwarded is followed at once by the sleep of its delay when its step
    raises nothing on the data of the plan; when it does raise, by the record
    of the [except] clause, after which nothing is forwarded or slept, and
    the task raises. *)
Fixpoint delay_kept (id : string) (o : outcome) (trace : list event) : Prop :=
  match trace with
  | [] => True
  | RedisPublish _ (CommandMessage cmd) :: rest =>
      match failure_of cmd with
      | None => exists rest', rest = Sleep (delay_seconds cmd) :: rest'
      | Some e =>
          (exists rest',
             rest = LogError ("Error executing mission " +:+ id +:+ ": "
                              +:+ str_exn e) :: rest')
          /\ sleeps rest = [] /\ forwarded rest = []
          /\ exists e', o = Raised e'
      end
      /\ delay_kept id o rest
  | _ :: rest => delay_kept id o rest
  end.

(** A status record that, if it says ABORTED, is the one of the operator's
    abort of mission [id]. *)
Definition operator (id : string) (r : string * string * string) : Prop :=
  status_of r = "ABORTED" -> r = (id, "ABORTED", "Mission aborted by operator.").

(** ** Sample plans and surroundings *)

Definition set_throttle : cmd_dict :=
  MkCmd (Some "SET_THROTTLE") [("value", JFloat 1%float)].

Definition invalid_command : cmd_dict :=
  MkCmd (Some "INVALID_COMMAND") [("value", JFloat 1%float)].

Definition wait_5 : cmd_dict := MkCmd (Some "WAIT") [("value", JInt 5)].

Definition wait_until_apoapsis : cmd_dict :=
  MkCmd (Some "WAIT_UNTIL_APOAPSIS") [].

Definition stage_quarter_second : cmd_dict :=
  MkCmd (Some "ACTIVATE_NEXT_STAGE") [("delay_ms", JInt 250)].

(** A step whose delay is a string. *)
Definition stage_delay_text : cmd_dict :=
  MkCmd (Some "ACTIVATE_NEXT_STAGE") [("delay_ms", JStr "250")].

(** A step without the key ["command"]. *)
Definition untagged : cmd_dict := MkCmd None [("value", JFloat 1%float)].

(** Nothing pending on the abort channel, no shutdown asked. *)
Definition quiet : environment := MkEnv false [].

(** The confirmation of the subscription, then an abort of mission [id]. *)
Definition abort_after_confirmation (id : string) : list (option message) :=
  [Some (MkMessage "subscribe" (JInt 1)); Some (MkMessage "message" (JStr id))].

(** A Redis client whose fifth call raises: with an empty plan, that is the
    publication of COMPLETED. *)
Definition fifth_call_lost : list (option exn) :=
  [None; None; None; None; Some (ConnectionError "Connection lost")].


Definition climbing_then_falling : FlightControl.krpc_state :=
  FlightControl.MkKrpc true None [100000; 101000; 102000; 102500; 102400]%Z.

(** ** More ways to read a trace of the worker *)


(** The keys written, in order. *)
Fixpoint written_keys (trace : list event) : list string :=
  match trace with
  | [] => []
  | RedisSet key _ :: rest => key :: written_keys rest
  | _ :: rest => written_keys rest
  end.

(** ** mission-sequencer/main.py: the HTTP endpoints *)
Module Api.

(** What an endpoint does besides answering.  A log or print record keeps
    the text written before the plan that Python formats after it, if any. *)
Inductive action : Type :=
| Redis (e : event)
(** [execute_mission.delay(mission_plan)] *)
| Delay (plan : mission_plan)
(** [redis_client.publish('mission_abort_commands', mission_id)] *)
| PublishAbort (mission_id : string)
| Logged (level text : string) (plan : option mission_plan)
| Printed (text : string) (plan : option mission_plan).

(** The JSON bodies of the answers. *)
Inductive body : Type :=
| ErrorBody (error : string) (details : option string)
| MessageBody (message mission_id : string)
(** [json.loads] of the value stored under the status key *)
| StoredBody (value : payload).

Record response : Type := MkResponse {
  code : nat;
  content : body
}.

(** [redis_client.exists(key)], read as a condition. *)
Definition redis_exists (store : gmap string payload) (key : string) : bool :=
  bool_decide (is_Some (store !! key)).

(** [submit_mission].  [request] is what [request.get_json()] gave, [None]
    when it is falsy; [schema_loaded] tells whether [mission_schema] is set;
    [validation] is the text of the [ValidationError] that [validate] raises
    on the plan, [None] when it raises none. *)
Definition submit_mission (store : gmap string payload) (schema_loaded : bool)
    (validation : option string) (request : option mission_plan)
  : list action * response :=
  let received := Logged "INFO" "Received mission plan payload: " request in
  match request with
  | None =>
      ([received; Logged "ERROR" "Received empty or invalid JSON payload." None],
       MkResponse 400 (ErrorBody "Invalid JSON payload" None))
  | Some plan =>
      if negb schema_loaded then
        ([received; Logged "ERROR" "Mission schema not loaded." None],
         MkResponse 500 (ErrorBody "Mission schema not loaded" None))
      else
        match validation with
        | Some text =>
            ([received;
              Logged "ERROR" ("Schema validation failed: " +:+ text) None;
              Logged "ERROR" "Received mission plan: " (Some plan);
              Printed ("DEBUG: Schema validation failed (RAW): " +:+ text) None;
              Printed "DEBUG: Received mission plan (RAW): " (Some plan)],
             MkResponse 400 (ErrorBody "Schema validation failed" (Some text)))
        | None =>
            let id := mission_id plan in
            if redis_exists store (status_key id) then
              ([received],
               MkResponse 409
                 (ErrorBody "Mission with this ID already exists" None))
            else
              ([received;
                Delay plan;
                Redis (RedisSet (status_key id)
                         (StatusSnapshot "QUEUED"
                            "Mission plan validated and queued for execution."));
                Redis (RedisPublish "mission_status"
                         (StatusMessage id "QUEUED"
                            "Mission plan validated and queued for execution."))],
               MkResponse 202 (MessageBody "Mission accepted" id))
        end
  end.

(** [get_mission_status]. *)
Definition get_mission_status (store : gmap string payload)
    (mission_id : string) : response :=
  match store !! status_key mission_id with
  | None => MkResponse 404 (ErrorBody "Mission not found" None)
  | Some value => MkResponse 200 (StoredBody value)
  end.

(** [abort_mission]. *)
Definition abort_mission (store : gmap string payload) (mission_id : string)
  : list action * response :=
  if redis_exists store (status_key mission_id) then
    ([PublishAbort mission_id;
      Redis (RedisSet (status_key mission_id)
               (StatusSnapshot "ABORT_REQUESTED"
                  "Abort signal sent to mission worker."));
      Redis (RedisPublish "mission_status"
               (StatusMessage mission_id "ABORT_REQUESTED"
                  "Abort signal sent to mission worker."))],
     MkResponse 200 (MessageBody "Abort signal sent" mission_id))
  else
    ([], MkResponse 404 (ErrorBody "Mission not found" None)).

(** The key space after the actions. *)
Definition store_apply (store : gmap string payload) (a : action)
  : gmap string payload :=
  match a with
  | Redis e => redis_apply store e
  | _ => store
  end.

Definition store_after (actions : list action) (store : gmap string payload)
  : gmap string payload :=
  foldl store_apply store actions.

(** The tasks handed to Celery, in order. *)
Fixpoint queued (actions : list action) : list mission_plan :=
  match actions with
  | [] => []
  | Delay plan :: rest => plan :: queued rest
  | _ :: rest => queued rest
  end.

(** What a subscriber of ['mission_abort_commands'] gets from the actions:
    one message of type ["message"] per abort published, its data the
    mission id. *)
Fixpoint abort_messages (actions : list action) : list (option message) :=
  match actions with
  | [] => []
  | PublishAbort id :: rest =>
      Some (MkMessage "message" (JStr id)) :: abort_messages rest
  | _ :: rest => abort_messages rest
  end.

End Api.

(** ** gnc-flight-control/main.py: the subscriber of ["gnc_commands"] *)
Module Subscriber.

(** [json.loads(message["data"])]: it raises (the text is that of the
    exception), or gives a dict, or a value of another Python type, of which
    the name is kept. *)
Inductive decoded : Type :=
| Undecodable (text : string)
| Dict (cmd : cmd_dict)
| NonDict (type : string).

(** One turn of the loop, as [pubsub.get_message] ends: nothing within the
    timeout (or a message about the subscription, which is ignored), a
    message, an exception of the client, or the cancellation of the task. *)
Inductive poll : Type :=
| Nothing
| Message (type : string) (data : decoded)
| PollError (text : string)
| Cancelled.

Inductive record : Type :=
(** [logger.info(f"Received command: {command_data}")] *)
| Received (data : decoded)
| Did (e : FlightControl.effect).

Section Loop.

Variable float_of_str : string -> exn + float.

(** The body of the [while]. *)
Definition turn (st : FlightControl.krpc_state) (p : poll) : list record :=
  match p with
  | Nothing => []
  | Message type data =>
      if String.eqb type "message" then
        match data with
        | Undecodable text =>
            [Did (FlightControl.Logged "ERROR"
                    ("Error in Redis subscriber: " +:+ text))]
        | Dict cmd =>
            Received data
            :: map Did (FlightControl.execute_command float_of_str st cmd)
        | NonDict type' =>
            Received data
            :: (if negb (FlightControl.connected st) then
                  [Did (FlightControl.Logged "ERROR"
                          "Cannot execute command: kRPC is not connected.")]
                else
                  [Did (FlightControl.Logged "ERROR"
                          ("Error in Redis subscriber: '" +:+ type'
                           +:+ "' object has no attribute 'get'"))])
        end
      else []
  | PollError text =>
      [Did (FlightControl.Logged "ERROR"
              ("Error in Redis subscriber: " +:+ text))]
  | Cancelled =>
      [Did (FlightControl.Logged "INFO" "Redis subscriber task cancelled.")]
  end.

(** The [while True] loop over the turns observed, each with the state of the
    kRPC globals at that time; it is left at the cancellation. *)
Fixpoint turns (polls : list (FlightControl.krpc_state * poll)) : list record :=
  match polls with
  | [] => []
  | (st, p) :: rest =>
      turn st p
      ++ match p with
         | Cancelled => []
         | _ => turns rest
         end
  end.

Definition redis_subscriber (polls : list (FlightControl.krpc_state * poll))
  : list record :=
  Did (FlightControl.Logged "INFO" "Subscribed to 'gnc_commands' channel.")
  :: turns polls.

End Loop.

(** The calls made on the vessel handle. *)
Definition calls (records : list record) : list FlightControl.call :=
  FlightControl.handle_calls
    (omap (fun r => match r with Did e => Some e | _ => None end) records).

(** What the subscriber gets for a payload published on ["gnc_commands"]: a
    message whose data decodes to the dict that was dumped. *)
Definition as_poll (p : payload) : poll :=
  match p with
  | CommandMessage cmd => Message "message" (Dict cmd)
  | StatusSnapshot status details =>
      Message "message"
        (Dict (MkCmd None [("status", JStr status); ("details", JStr details)]))
  | StatusMessage id status details =>
      Message "message"
        (Dict (MkCmd None [("mission_id", JStr id); ("status", JStr status);
                           ("details", JStr details)]))
  end.

(** A turn that runs no command. *)
Definition idle (p : poll) : bool :=
  match p with
  | Nothing | PollError _ => true
  | Message type data =>
      negb (String.eqb type "message")
      || match data with Dict _ => false | _ => true end
  | Cancelled => false
  end.

End Subscriber.

(** ** gnc-flight-control/main.py: the WebSocket clients *)
Module Clients.

(** A connection: the identity of the object, and [remote_address] as the
    logs show it. *)
Record websocket : Type := MkWebsocket {
  ws_id : nat;
  remote_address : string
}.

(** How [await websocket.wait_closed()] ends: it returns, it raises one of
    the exceptions that [websocket_handler] names (with the text of the
    exception where the log shows it), or the task is cancelled. *)
Inductive closing : Type :=
| ClosedQuietly
| ClosedOK
| ClosedError
| BadHandshake (text : string)
| BadMessage (text : string)
| Unexpected (text : string)
| TaskCancelled.

Inductive log : Type :=
| Log (level text : string).

(** How a coroutine ends. *)
Inductive ending : Type :=
| Returns
(** [set.remove] of an element that is not in the set *)
| RaisesKeyError
(** the cancellation goes on to the caller *)
| RaisesCancelled.

(** [register_client]: the global [clients] after it, and its log. *)
Definition register_client (clients : gset nat) (ws : websocket)
  : gset nat * list log :=
  (clients ∪ {[ws_id ws]},
   [Log "INFO" ("New client connected: " +:+ remote_address ws)]).

(** [unregister_client]. *)
Definition unregister_client (clients : gset nat) (ws : websocket)
  : gset nat * list log * ending :=
  if decide (ws_id ws ∈ clients) then
    (clients ∖ {[ws_id ws]},
     [Log "INFO" ("Client disconnected: " +:+ remote_address ws)], Returns)
  else (clients, [], RaisesKeyError).

(** The [except] clauses of [websocket_handler], the first that matches.
    [InvalidMessage] is a subclass of [InvalidHandshake], so the clause of
    [InvalidHandshake], which comes first, takes it, and the clause of
    [InvalidMessage] is never entered. *)
Definition closing_log (ws : websocket) (how : closing) : list log :=
  match how with
  | ClosedQuietly | TaskCancelled => []
  | ClosedOK =>
      [Log "INFO" ("Client " +:+ remote_address ws
                   +:+ " disconnected gracefully.")]
  | ClosedError =>
      [Log "WARNING" ("Client " +:+ remote_address ws
                      +:+ " disconnected unexpectedly.")]
  | BadHandshake text | BadMessage text =>
      [Log "ERROR" ("Invalid handshake from client " +:+ remote_address ws
                    +:+ ": " +:+ text)]
  | Unexpected text =>
      [Log "ERROR" ("An unexpected error occurred with client "
                    +:+ remote_address ws +:+ ": " +:+ text)]
  end.

(** [websocket_handler] from the moment [wait_closed] ends, [clients] being
    the set at that moment: the [except] clauses, then the [finally]. *)
Definition handler_leaves (clients : gset nat) (ws : websocket) (how : closing)
  : gset nat * list log * ending :=
  let '(clients', logs, unregistered) := unregister_client clients ws in
  (clients', closing_log ws how ++ logs,
   match unregistered with
   | Returns =>
       match how with
       | TaskCancelled => RaisesCancelled
       | _ => Returns
       end
   | other => other
   end).

(** [websocket_handler] when no other coroutine touches [clients] while it
    waits. *)
Definition websocket_handler (clients : gset nat) (ws : websocket)
    (how : closing) : gset nat * list log * ending :=
  let '(registered, hello) := register_client clients ws in
  let '(clients', logs, ended) := handler_leaves registered ws how in
  (clients', hello ++ logs, ended).

End Clients.

(** ** The queue consumer *)
Module Consumer.

(** What one blocking pop on the plan queue gives: a plan, nothing before
    the time-out, or an error of the connection to the broker. *)
Inductive pop : Type :=
| Payload (plan : mission_plan)
| Timeout
| Unreachable (e : exn).

(** One turn of the loop as its surroundings decide it: the stop flag as the
    loop reads it at the head of the turn, and what the pop gives. *)
Record turn : Type := MkTurn {
  stop_requested : bool;
  popped : pop
}.

(** What the loop does, in order. *)
Inductive event : Type :=
| BlockingPop
| LogFailure (e : exn)
| BackOff (seconds : float)
| RunMission (plan : mission_plan).

(** Modelled from the spec: the loop of the queue consumer,
    [MissionSequencer.process_missions] of [mission-sequencer/main.py],
    which the tests import and the sources do not hold.  The specification
    (4.1, Queue Consumer) has it loop until the stop flag is set; each turn
    does one blocking pop with a short time-out; a plan is handed to the
    mission runner, which returns before the next turn; an error of the
    connection to the broker is logged, then the loop sleeps a short
    interval, [retry_delay] here, and pops again; a time-out goes on.  The
    turns are the ones the surroundings grant; the loop has not returned
    when they run out.  The result says whether the loop has returned. *)
Fixpoint process_missions (retry_delay : float) (turns : list turn)
  : list event * bool :=
  match turns with
  | [] => ([], false)
  | t :: rest =>
      if stop_requested t then ([], true)
      else
        let '(events, returned) := process_missions retry_delay rest in
        match popped t with
        | Payload plan => (BlockingPop :: RunMission plan :: events, returned)
        | Timeout => (BlockingPop :: events, returned)
        | Unreachable e =>
            (BlockingPop :: LogFailure e :: BackOff retry_delay :: events,
             returned)
        end
  end.

(** The missions handed to the runner, in order. *)
Fixpoint missions_run (events : list event) : list mission_plan :=
  match events with
  | [] => []
  | RunMission plan :: rest => plan :: missions_run rest
  | _ :: rest => missions_run rest
  end.

(** The pops done. *)
Fixpoint pops (events : list event) : nat :=
  match events with
  | [] => 0
  | BlockingPop :: rest => S (pops rest)
  | _ :: rest => pops rest
  end.

(** The intervals slept between pops. *)
Fixpoint back_offs (events : list event) : list float :=
  match events with
  | [] => []
  | BackOff seconds :: rest => seconds :: back_offs rest
  | _ :: rest => back_offs rest
  end.

(** The plans that the pops of these turns have taken off the queue. *)
Fixpoint plans_popped (turns : list turn) : list mission_plan :=
  match turns with
  | [] => []
  | t :: rest =>
      match popped t with
      | Payload plan => plan :: plans_popped rest
      | _ => plans_popped rest
      end
  end.

(** No stop is requested during these turns. *)
Definition never_stopped (turns : list turn) : Prop :=
  Forall (fun t => stop_requested t = false) turns.

(** The scenario of [tests/test_network_failures.py]: the first pop raises,
    the second gives a plan, the next ones time out. *)
Definition test_mission : mission_plan :=
  MkPlan "test-mission-123"
    [MkCmd (Some "SET_THROTTLE") [("value", JFloat 1%float)]].

Definition connection_lost_and_restored : list turn :=
  [ MkTurn false (Unreachable (ConnectionError "Simulated connection error"));
    MkTurn false (Payload test_mission);
    MkTurn false Timeout;
    MkTurn false Timeout ].

End Consumer.

(** ** Reading the effects of flight control *)

(** The link to kRPC is up and its calls go through. *)
Definition healthy (st : FlightControl.krpc_state) : Prop :=
  FlightControl.connected st = true /\ FlightControl.rpc_failure st = None.

(** A call on [vessel.control] or [vessel.auto_pilot], not on a stream. *)
Definition control_call (c : FlightControl.call) : bool :=
  match c with
  | FlightControl.AddStream | FlightControl.StreamRead
  | FlightControl.StreamRemove => false
  | _ => true
  end.

(** * Properties *)

Section TraceFacts.

Lemma published_app (channel : string) (a b : list event) :
  published channel (a ++ b) = published channel a ++ published channel b.
Proof.
  induction a as [|e a IH]; [done|].
  destruct e as [|c m| | | | | |]; cbn [app published]; try done.
  destruct (String.eqb c channel); cbn; by rewrite IH.
Qed.

Lemma status_writes_app (a b : list event) :
  status_writes (a ++ b) = status_writes a ++ status_writes b.
Proof.
  induction a as [|e a IH]; [done|].
  destruct e as [key [| |]| | | | | | |]; cbn [app status_writes]; try done.
  by rewrite IH.
Qed.

Lemma status_messages_app (a b : list event) :
  status_messages (a ++ b) = status_messages a ++ status_messages b.
Proof.
  induction a as [|e a IH]; [done|].
  destruct e as [|c [| |]| | | | | |]; cbn [app status_messages]; try done.
  by rewrite IH.
Qed.

Lemma channels_app (a b : list event) :
  channels (a ++ b) = channels a ++ channels b.
Proof.
  induction a as [|e a IH]; [done|].
  destruct e; cbn [app channels]; by rewrite ?IH.
Qed.

Lemma sleeps_app (a b : list event) :
  sleeps (a ++ b) = sleeps a ++ sleeps b.
Proof.
  induction a as [|e a IH]; [done|].
  destruct e; cbn [app sleeps]; by rewrite ?IH.
Qed.

Lemma redis_after_app (a b : list event) (store : gmap string payload) :
  redis_after (a ++ b) store = redis_after b (redis_after a store).
Proof. apply foldl_app. Qed.

End TraceFacts.

Section RunFacts.

Lemma well_formed_inv (cmd : cmd_dict) :
  well_formed cmd = true ->
  exists command delay,
    tag cmd = Some command /\ delay_of cmd = inr delay
    /\ sleep_refused delay = None.
Proof.
  unfold well_formed.
  destruct (tag cmd) as [command|]; [|done].
  destruct (delay_of cmd) as [e|delay]; [done|].
  destruct (sleep_refused delay) eqn:Hs; [done|].
  intros _. by exists command, delay.
Qed.

Lemma get_message_drop (pending : list (option message)) :
  (get_message pending).2 = drop 1 pending.
Proof. by destruct pending. Qed.

Lemma get_message_lookup (pending : list (option message)) (k : nat)
    (m : option message) :
  pending !! k = Some m -> (get_message (drop k pending)).1 = m.
Proof.
  intros H. pose proof (lookup_drop pending k 0) as E.
  rewrite Nat.add_0_r, H in E.
  destruct (drop k pending); [done|]. by injection E.
Qed.

Lemma no_abort_step (id : string) (n : nat) (pending : list (option message)) :
  no_abort id (S n) pending ->
  abort_signal id (get_message pending).1 = false
  /\ no_abort id n (get_message pending).2.
Proof.
  unfold no_abort. destruct pending as [|m rest]; cbn.
  - intros _. split; [done|]. by rewrite take_nil.
  - intros H. by apply Forall_cons_1 in H.
Qed.

(** Reading one more message that is no abort. *)
Lemma no_abort_last (id : string) (n : nat) (pending : list (option message)) :
  no_abort id (S n) pending ->
  no_abort id n pending
  /\ abort_signal id (get_message (drop n pending)).1 = false.
Proof.
  revert pending. induction n as [|n IH]; intros pending H.
  - split; [by constructor|]. rewrite drop_0.
    by apply no_abort_step in H as [H _].
  - apply no_abort_step in H as [Hm H].
    destruct pending as [|m rest].
    + split; [unfold no_abort; rewrite take_nil; constructor|].
      by rewrite drop_nil.
    + cbn [get_message fst snd] in *. destruct (IH rest H) as [H1 H2].
      split; [|done]. unfold no_abort in *. cbn [take]. by constructor.
Qed.

Lemma run_flight_plan_prefix (id : string) (total : nat)
    (done more : list cmd_dict) (i : nat) (pending : list (option message)) :
  Forall (fun c => well_formed c = true) done ->
  no_abort id (length done) pending ->
  run_flight_plan id total i (done ++ more) pending
  = (nominal id total i done
     ++ (run_flight_plan id total (i + length done) more
           (drop (length done) pending)).1,
     (run_flight_plan id total (i + length done) more
        (drop (length done) pending)).2).
Proof.
  revert i pending.
  induction done as [|cmd done IH]; intros i pending Hwf Hna.
  - cbn [app length nominal]. rewrite Nat.add_0_r, drop_0.
    by destruct (run_flight_plan id total i more pending).
  - apply Forall_cons_1 in Hwf as [Hcmd Hwf].
    cbn [length] in Hna. apply no_abort_step in Hna as [Hm Hna].
    destruct (well_formed_inv cmd Hcmd) as (command & delay & Ht & Hd & Hq).
    cbn [app run_flight_plan length nominal].
    destruct (get_message pending) as [m pending'] eqn:Hg.
    cbn [fst snd] in Hm, Hna. rewrite Hm, Ht, Hd.
    unfold sleep. rewrite Hq.
    rewrite (IH (S i) pending' Hwf Hna).
    replace (S i + length done) with (i + S (length done)) by lia.
    replace (drop (length done) pending') with (drop (S (length done)) pending).
    2:{ pose proof (get_message_drop pending) as E. rewrite Hg in E.
        cbn [snd] in E. rewrite E, drop_drop. f_equal. }
    unfold step_events. rewrite Ht, Hd.
    f_equal; by rewrite <- ?app_assoc.
Qed.

(** Every run of the loop: some steps without incident, then the end of the
    plan, an abort, or the step that raises. *)
Lemma run_flight_plan_shape (id : string) (total : nat) (cmds : list cmd_dict)
    (i : nat) (pending : list (option message)) :
  exists done rest tail exit,
    cmds = done ++ rest
    /\ Forall (fun c => well_formed c = true) done
    /\ run_flight_plan id total i cmds pending
       = (nominal id total i done ++ tail, exit)
    /\ ((rest = [] /\ tail = [] /\ exit = Exhausted)
        \/ (rest <> [] /\ tail = abort_events id /\ exit = Return "ABORTED")
        \/ (exists cmd rest' e,
              rest = cmd :: rest' /\ failure_of cmd = Some e
              /\ tail = announced id total (i + length done) cmd
              /\ exit = Raise e)).
Proof.
  revert i pending.
  induction cmds as [|cmd cmds IH]; intros i pending.
  - exists [], [], [], Exhausted. repeat split; auto.
  - cbn [run_flight_plan].
    destruct (get_message pending) as [m pending'].
    destruct (abort_signal id m).
    { exists [], (cmd :: cmds), (abort_events id), (Return "ABORTED").
      repeat split; auto. }
    destruct (tag cmd) as [command|] eqn:Ht.
    2:{ exists [], (cmd :: cmds), [], (Raise (KeyError "command")).
        repeat split; auto. right; right.
        exists cmd, cmds, (KeyError "command").
        unfold failure_of, announced. rewrite Ht. by repeat split. }
    destruct (delay_of cmd) as [e|delay] eqn:Hd.
    { eexists [], (cmd :: cmds), _, (Raise e).
      repeat split; auto. right; right. exists cmd, cmds, e.
      unfold failure_of, announced. rewrite Ht, Hd, Nat.add_0_r.
      by repeat split. }
    destruct (sleep delay) as [e|slept] eqn:Hs.
    { eexists [], (cmd :: cmds), _, (Raise e).
      repeat split; auto. right; right. exists cmd, cmds, e.
      unfold failure_of, announced. rewrite Ht, Hd, Hs, Nat.add_0_r.
      by repeat split. }
    unfold sleep in Hs. destruct (sleep_refused delay) eqn:Hq; [done|].
    injection Hs as <-.
    destruct (IH (S i) pending')
      as (done & rest & tail & exit & -> & Hwf & -> & Hend).
    exists (cmd :: done), rest, tail, exit.
    split; [done|]. split.
    { constructor; [|done]. unfold well_formed. by rewrite Ht, Hd, Hq. }
    split.
    { cbn [nominal]. unfold step_events. rewrite Ht, Hd.
      f_equal; by rewrite <- ?app_assoc. }
    cbn [length]. replace (i + S (length done)) with (S i + length done) by lia.
    done.
Qed.

(** The same for the whole task. *)
Lemma execute_mission_shape (env : environment) (plan : mission_plan) :
  let id := mission_id plan in
  let total := length (flight_plan plan) in
  exists done rest,
    flight_plan plan = done ++ rest
    /\ Forall (fun c => well_formed c = true) done
    /\ ((rest = []
         /\ execute_mission env plan
            = (started id ++ nominal id total 0 done
               ++ completed_events id ++ released, Returned "COMPLETED"))
        \/ (rest <> []
            /\ execute_mission env plan
               = (started id ++ nominal id total 0 done
                  ++ abort_events id ++ released, Returned "ABORTED"))
        \/ (exists cmd rest' e,
              rest = cmd :: rest' /\ failure_of cmd = Some e
              /\ execute_mission env plan
                 = (started id ++ nominal id total 0 done
                    ++ announced id total (length done) cmd
                    ++ failed_events id e ++ released, Raised e))).
Proof.
  intros id total.
  destruct (run_flight_plan_shape id total (flight_plan plan) 0
              (abort_channel env))
    as (done & rest & tail & exit & Hsplit & Hwf & Hrun & Hend).
  exists done, rest. split; [done|]. split; [done|].
  unfold execute_mission. fold id total. rewrite Hrun.
  destruct Hend as [(-> & -> & ->)|[(Hne & -> & ->)|(c & r & e & -> & Hf & -> & ->)]].
  - left. split; [done|]. by rewrite app_nil_r.
  - right; left. split; [done|]. by rewrite <- !app_assoc.
  - right; right. exists c, r, e. split; [done|]. split; [done|].
    unfold failed_events. cbn [Nat.add]. by rewrite <- !app_assoc.
Qed.

End RunFacts.

Section NominalFacts.

Variables (id : string) (total : nat).

Lemma nominal_forwarded (i : nat) (cmds : list cmd_dict) :
  Forall (fun c => well_formed c = true) cmds ->
  forwarded (nominal id total i cmds) = map CommandMessage cmds.
Proof.
  revert i. induction cmds as [|cmd cmds IH]; intros i Hwf; [done|].
  apply Forall_cons_1 in Hwf as [Hcmd Hwf].
  destruct (well_formed_inv cmd Hcmd) as (command & delay & Ht & Hd & _).
  cbn [nominal]. unfold forwarded, step_events in *. rewrite Ht, Hd.
  rewrite !published_app. cbn. by rewrite IH.
Qed.

Lemma nominal_sleeps (i : nat) (cmds : list cmd_dict) :
  Forall (fun c => well_formed c = true) cmds ->
  sleeps (nominal id total i cmds) = map delay_seconds cmds.
Proof.
  revert i. induction cmds as [|cmd cmds IH]; intros i Hwf; [done|].
  apply Forall_cons_1 in Hwf as [Hcmd Hwf].
  destruct (well_formed_inv cmd Hcmd) as (command & delay & Ht & Hd & _).
  cbn [nominal map]. unfold step_events, delay_seconds at 1. rewrite Ht, Hd.
  rewrite !sleeps_app. cbn. by rewrite IH.
Qed.

Lemma nominal_status_writes (i : nat) (cmds : list cmd_dict) :
  Forall (fun r => terminal (status_of r) = false)
    (status_writes (nominal id total i cmds)).
Proof.
  revert i. induction cmds as [|cmd cmds IH]; intros i; [constructor|].
  cbn [nominal]. unfold step_events.
  destruct (tag cmd); [|apply IH]. destruct (delay_of cmd); [apply IH|].
  rewrite !status_writes_app. cbn. constructor; [done|apply IH].
Qed.

Lemma nominal_status_messages (i : nat) (cmds : list cmd_dict) :
  Forall (fun r => terminal (status_of r) = false)
    (status_messages (nominal id total i cmds)).
Proof.
  revert i. induction cmds as [|cmd cmds IH]; intros i; [constructor|].
  cbn [nominal]. unfold step_events.
  destruct (tag cmd); [|apply IH]. destruct (delay_of cmd); [apply IH|].
  rewrite !status_messages_app. cbn. constructor; [done|apply IH].
Qed.

Lemma nominal_channels (i : nat) (cmds : list cmd_dict) :
  Forall (fun c => c = "mission_status" \/ c = "gnc_commands")
    (channels (nominal id total i cmds)).
Proof.
  revert i. induction cmds as [|cmd cmds IH]; intros i; [constructor|].
  cbn [nominal]. unfold step_events.
  destruct (tag cmd); [|apply IH]. destruct (delay_of cmd); [apply IH|].
  rewrite !channels_app. cbn.
  constructor; [by left|]. constructor; [by right|]. apply IH.
Qed.

Lemma paired_update (id' status details : string) (rest : list event) :
  paired rest -> paired (update_mission_status id' status details ++ rest).
Proof. intros H. cbn. by repeat split. Qed.

Lemma paired_nominal (i : nat) (cmds : list cmd_dict) (rest : list event) :
  paired rest -> paired (nominal id total i cmds ++ rest).
Proof.
  intros H. revert i. induction cmds as [|cmd cmds IH]; intros i; [done|].
  cbn [nominal]. unfold step_events.
  destruct (tag cmd); [|apply IH]. destruct (delay_of cmd); [apply IH|].
  rewrite <- !app_assoc. apply paired_update. cbn. apply IH.
Qed.

Lemma paired_announced (i : nat) (cmd : cmd_dict) (rest : list event) :
  paired rest -> paired (announced id total i cmd ++ rest).
Proof.
  intros H. unfold announced. destruct (tag cmd); [|done].
  rewrite <- !app_assoc. by apply paired_update.
Qed.

Lemma delay_follows_update (id' status details : string) (rest : list event) :
  delay_follows rest ->
  delay_follows (update_mission_status id' status details ++ rest).
Proof. done. Qed.

Lemma delay_follows_nominal (i : nat) (cmds : list cmd_dict)
    (rest : list event) :
  delay_follows rest -> delay_follows (nominal id total i cmds ++ rest).
Proof.
  intros H. revert i. induction cmds as [|cmd cmds IH]; intros i; [done|].
  cbn [nominal]. unfold step_events.
  destruct (tag cmd); [|apply IH].
  destruct (delay_of cmd) as [e|delay] eqn:Hd; [apply IH|].
  rewrite <- !app_assoc. apply delay_follows_update. cbn. split; [|apply IH].
  intros delay' E _. rewrite Hd in E. injection E as <-. by eexists.
Qed.

Lemma delay_follows_announced (i : nat) (cmd : cmd_dict) (e : exn)
    (rest : list event) :
  failure_of cmd = Some e ->
  delay_follows rest -> delay_follows (announced id total i cmd ++ rest).
Proof.
  intros Hf H. unfold announced, failure_of in *.
  destruct (tag cmd); [|done].
  rewrite <- !app_assoc. apply delay_follows_update. cbn. split; [|done].
  intros delay Hd Hq. rewrite Hd in Hf. unfold sleep in Hf.
  by rewrite Hq in Hf.
Qed.

End NominalFacts.

Section ListFacts.

(** In a list whose elements all satisfy [P] but the last, an element that
    does not satisfy [P] has nothing after it. *)
Lemma nothing_after_last {A : Type} (P : A -> Prop) (init : list A) (r : A)
    (before : list A) (x : A) (after : list A) :
  init ++ [r] = before ++ x :: after ->
  Forall P init -> ~ P x -> after = [].
Proof.
  revert before. induction init as [|y init IH]; intros before E HP Hx.
  - destruct before as [|z before]; cbn in E.
    + by injection E.
    + injection E as _ E. by destruct before.
  - apply Forall_cons_1 in HP as [Hy HP].
    destruct before as [|z before]; cbn in E.
    + injection E as -> _. done.
    + injection E as _ E. by apply (IH before).
Qed.




End ListFacts.

(** * The task and the failures of the Redis client *)

Section Reliable.

Lemma call_answers (e : event) (w : Unreliable.world) :
  reliable (Unreliable.redis w) ->
  exists w',
    Unreliable.call e w = ([e], w', inr tt)
    /\ reliable (Unreliable.redis w')
    /\ Unreliable.pending w' = Unreliable.pending w.
Proof.
  unfold Unreliable.call, reliable. intros H.
  destruct (Unreliable.redis w) as [|[x|] later] eqn:E.
  - exists w. by rewrite E.
  - by apply Forall_cons_1 in H as [? _].
  - apply Forall_cons_1 in H as [_ H]. by eexists.
Qed.

Lemma update_mission_status_answers (id status details : string)
    (w : Unreliable.world) :
  reliable (Unreliable.redis w) ->
  exists w',
    Unreliable.update_mission_status id status details w
    = (update_mission_status id status details, w', inr tt)
    /\ reliable (Unreliable.redis w')
    /\ Unreliable.pending w' = Unreliable.pending w.
Proof.
  intros H. unfold Unreliable.update_mission_status, Unreliable.bind.
  destruct (call_answers
              (RedisSet (status_key id) (StatusSnapshot status details)) w H)
    as (w1 & -> & H1 & P1).
  destruct (call_answers
              (RedisPublish "mission_status" (StatusMessage id status details))
              w1 H1)
    as (w2 & -> & H2 & P2).
  exists w2. unfold Unreliable.emit. split; [reflexivity|].
  split; [exact H2|]. by rewrite P2.
Qed.

Lemma get_message_answers (w : Unreliable.world) :
  reliable (Unreliable.redis w) ->
  exists w',
    Unreliable.get_message w
    = ([], w', inr (get_message (Unreliable.pending w)).1)
    /\ reliable (Unreliable.redis w')
    /\ Unreliable.pending w' = (get_message (Unreliable.pending w)).2.
Proof.
  unfold Unreliable.get_message, reliable. intros H.
  destruct (get_message (Unreliable.pending w)) as [m rest].
  destruct (Unreliable.redis w) as [|[x|] later] eqn:E.
  - eexists. split; [reflexivity|]. by split.
  - by apply Forall_cons_1 in H as [? _].
  - apply Forall_cons_1 in H as [_ H]. eexists. split; [reflexivity|].
    by split.
Qed.

Lemma run_flight_plan_answers (id : string) (total : nat)
    (cmds : list cmd_dict) (i : nat) (w : Unreliable.world) :
  reliable (Unreliable.redis w) ->
  exists t w' r,
    Unreliable.run_flight_plan id total i cmds w = (t, w', r)
    /\ run_flight_plan id total i cmds (Unreliable.pending w) = (t, exit_of r)
    /\ reliable (Unreliable.redis w').
Proof.
  revert i w. induction cmds as [|cmd cmds IH]; intros i w H.
  { by exists [], w, (inr None). }
  cbn [Unreliable.run_flight_plan run_flight_plan]. unfold Unreliable.bind at 1.
  destruct (get_message_answers w H) as (w1 & -> & H1 & P1).
  destruct (get_message (Unreliable.pending w)) as [m rest].
  cbn [fst snd] in *.
  destruct (abort_signal id m).
  { unfold Unreliable.bind.
    destruct (update_mission_status_answers id "ABORTED"
                "Mission aborted by operator." w1 H1) as (w2 & -> & H2 & P2).
    eexists _, w2, (inr (Some "ABORTED")). rewrite ?app_nil_r. by repeat split. }
  destruct (tag cmd) as [command|].
  2:{ by eexists [], w1, (inl (KeyError "command")). }
  unfold Unreliable.bind at 1.
  destruct (update_mission_status_answers id "IN_PROGRESS"
              ("Executing command " +:+ str_nat (i + 1) +:+ "/"
               +:+ str_nat total +:+ ": " +:+ command) w1 H1)
    as (w2 & -> & H2 & P2).
  unfold Unreliable.bind at 1.
  destruct (call_answers (RedisPublish "gnc_commands" (CommandMessage cmd))
              w2 H2) as (w3 & -> & H3 & P3).
  destruct (delay_of cmd) as [e|delay].
  { eexists _, w3, (inl e). rewrite ?app_nil_r. by repeat split. }
  destruct (sleep delay) as [e|slept].
  { eexists _, w3, (inl e). rewrite ?app_nil_r. by repeat split. }
  unfold Unreliable.bind, Unreliable.emit.
  destruct (IH (S i) w3 H3) as (t & w4 & r & -> & E & H4).
  rewrite P3, P2, P1 in E. rewrite E.
  eexists _, w4, r. split; [reflexivity|]. split; [|exact H4].
  cbn [app]. by rewrite <- !app_assoc.
Qed.

(** With a Redis client that answers, the task is the one of [Worker]. *)
Lemma execute_mission_answers (redis : list (option exn)) (env : environment)
    (plan : mission_plan) :
  reliable redis ->
  Unreliable.execute_mission redis env plan = execute_mission env plan.
Proof.
  intros H.
  unfold Unreliable.execute_mission, Unreliable.task, execute_mission.
  set (w := Unreliable.MkWorld redis (abort_channel env)).
  assert (reliable (Unreliable.redis w)) as H0 by exact H.
  unfold Unreliable.bind at 1.
  destruct (update_mission_status_answers (mission_id plan) "IN_PROGRESS"
              "Starting mission execution." w H0) as (w1 & -> & H1 & P1).
  unfold Unreliable.bind at 1.
  destruct (call_answers (PubsubSubscribe "mission_abort_commands") w1 H1)
    as (w2 & -> & H2 & P2).
  unfold Unreliable.try_finally, Unreliable.try_except, Unreliable.try_body.
  unfold Unreliable.bind at 1.
  destruct (run_flight_plan_answers (mission_id plan)
              (length (flight_plan plan)) (flight_plan plan) 0 w2 H2)
    as (t & w3 & r & -> & E & H3).
  rewrite P2, P1 in E. change (Unreliable.pending w) with (abort_channel env) in E.
  rewrite E. clear E.
  destruct r as [e|[status|]]; cbn [exit_of].
  - unfold Unreliable.except_clause, Unreliable.bind, Unreliable.emit.
    destruct (update_mission_status_answers (mission_id plan) "FAILED"
                ("An error occurred: " +:+ str_exn e) w3 H3)
      as (w4 & -> & H4 & P4).
    unfold Unreliable.raise, Unreliable.finally_clause, Unreliable.bind.
    destruct (call_answers PubsubUnsubscribe w4 H4) as (w5 & -> & H5 & P5).
    destruct (call_answers PubsubClose w5 H5) as (w6 & -> & H6 & P6).
    f_equal. rewrite ?app_nil_r. by rewrite <- !app_assoc.
  - unfold Unreliable.ret, Unreliable.finally_clause, Unreliable.bind.
    destruct (call_answers PubsubUnsubscribe w3 H3) as (w5 & -> & H5 & P5).
    destruct (call_answers PubsubClose w5 H5) as (w6 & -> & H6 & P6).
    f_equal. rewrite ?app_nil_r. by rewrite <- !app_assoc.
  - unfold Unreliable.bind.
    destruct (update_mission_status_answers (mission_id plan) "COMPLETED"
                "All mission commands executed successfully." w3 H3)
      as (w4 & -> & H4 & P4).
    unfold Unreliable.ret, Unreliable.finally_clause, Unreliable.bind.
    destruct (call_answers PubsubUnsubscribe w4 H4) as (w5 & -> & H5 & P5).
    destruct (call_answers PubsubClose w5 H5) as (w6 & -> & H6 & P6).
    f_equal. rewrite ?app_nil_r. by rewrite <- !app_assoc.
Qed.

End Reliable.

Section Faults.

Lemma call_cases (e : event) (w : Unreliable.world) :
  (exists x w', Unreliable.call e w = ([], w', inl x))
  \/ (exists w', Unreliable.call e w = ([e], w', inr tt)).
Proof.
  unfold Unreliable.call.
  destruct (Unreliable.redis w) as [|[x|] later];
    [right; by eexists|left; by eexists _, _|right; by eexists].
Qed.

Lemma update_mission_status_cases (id status details : string)
    (w : Unreliable.world) :
  (exists cut x w',
     Unreliable.update_mission_status id status details w = (cut, w', inl x)
     /\ update_cut id status details cut)
  \/ (exists w',
        Unreliable.update_mission_status id status details w
        = (update_mission_status id status details, w', inr tt)).
Proof.
  unfold Unreliable.update_mission_status, Unreliable.bind.
  destruct (call_cases
              (RedisSet (status_key id) (StatusSnapshot status details)) w)
    as [(x & w1 & ->)|(w1 & ->)].
  { left. exists [], x, w1. split; [reflexivity|]. by left. }
  destruct (call_cases
              (RedisPublish "mission_status" (StatusMessage id status details))
              w1)
    as [(x & w2 & ->)|(w2 & ->)].
  { left. eexists _, x, w2. split; [reflexivity|]. by right. }
  right. by exists w2.
Qed.

Lemma get_message_cases (w : Unreliable.world) :
  (exists x w', Unreliable.get_message w = ([], w', inl x))
  \/ (exists m w', Unreliable.get_message w = ([], w', inr m)).
Proof.
  unfold Unreliable.get_message.
  destruct (get_message (Unreliable.pending w)) as [m rest].
  destruct (Unreliable.redis w) as [|[x|] later]; [right|left|right];
    by eexists _, _.
Qed.

(** A run of the loop that stops in its first step. *)
Lemma stopped_shape (id : string) (total i : nat) (cmd : cmd_dict)
    (cmds : list cmd_dict)
    (X : list event * Unreliable.world * (exn + option string))
    (tail : list event) (w' : Unreliable.world) (e : exn) :
  stopped id total i cmd e tail ->
  X = (tail, w', inl e) ->
  exists done rest tail w' r,
    cmd :: cmds = done ++ rest
    /\ Forall (fun c => well_formed c = true) done
    /\ X = (nominal id total i done ++ tail, w', r)
    /\ ((rest = [] /\ tail = [] /\ r = inr None)
        \/ (rest <> [] /\ tail = abort_events id /\ r = inr (Some "ABORTED"))
        \/ (exists cmd rest' e,
              rest = cmd :: rest' /\ r = inl e
              /\ stopped id total (i + length done) cmd e tail)).
Proof.
  intros Hs E. exists [], (cmd :: cmds), tail, w', (inl e).
  split; [done|]. split; [done|]. split; [exact E|].
  right; right. exists cmd, cmds, e. cbn [length]. rewrite Nat.add_0_r.
  by repeat split.
Qed.

(** Every run of the loop, whatever the Redis client does: some steps
    without incident, then the end of the plan, an abort, or the step that
    raises. *)
Lemma run_flight_plan_redis_shape (id : string) (total : nat)
    (cmds : list cmd_dict) (i : nat) (w : Unreliable.world) :
  exists done rest tail w' r,
    cmds = done ++ rest
    /\ Forall (fun c => well_formed c = true) done
    /\ Unreliable.run_flight_plan id total i cmds w
       = (nominal id total i done ++ tail, w', r)
    /\ ((rest = [] /\ tail = [] /\ r = inr None)
        \/ (rest <> [] /\ tail = abort_events id /\ r = inr (Some "ABORTED"))
        \/ (exists cmd rest' e,
              rest = cmd :: rest' /\ r = inl e
              /\ stopped id total (i + length done) cmd e tail)).
Proof.
  revert i w. induction cmds as [|cmd cmds IH]; intros i w.
  { exists [], [], [], w, (inr None). repeat split; auto. }
  cbn [Unreliable.run_flight_plan]. unfold Unreliable.bind at 1.
  destruct (get_message_cases w) as [(x & w1 & ->)|(m & w1 & ->)].
  { eapply stopped_shape; [apply stopped_at_once|reflexivity]. }
  destruct (abort_signal id m).
  { unfold Unreliable.bind.
    destruct (update_mission_status_cases id "ABORTED"
                "Mission aborted by operator." w1)
      as [(cut & x & w2 & -> & [->| ->])|(w2 & ->)].
    - eapply stopped_shape; [apply stopped_at_once|reflexivity].
    - eapply stopped_shape; [apply stopped_aborting|reflexivity].
    - exists [], (cmd :: cmds), (abort_events id), w2, (inr (Some "ABORTED")).
      split; [done|]. split; [done|]. split.
      { unfold Unreliable.ret. cbn [app]. by rewrite app_nil_r. }
      right; left. by repeat split. }
  destruct (tag cmd) as [command|] eqn:Ht.
  2:{ assert (announced id total i cmd = []) as Ha
        by (unfold announced; by rewrite Ht).
      eapply (stopped_shape _ _ _ _ _ _ (announced id total i cmd)).
      - apply stopped_on_data. unfold failure_of. by rewrite Ht.
      - by rewrite Ha. }
  unfold Unreliable.bind at 1.
  destruct (update_mission_status_cases id "IN_PROGRESS"
              ("Executing command " +:+ str_nat (i + 1) +:+ "/"
               +:+ str_nat total +:+ ": " +:+ command) w1)
    as [(cut & x & w2 & -> & [->| ->])|(w2 & ->)].
  { eapply stopped_shape; [apply stopped_at_once|reflexivity]. }
  { eapply stopped_shape; [by apply stopped_announcing|reflexivity]. }
  unfold Unreliable.bind at 1.
  destruct (call_cases (RedisPublish "gnc_commands" (CommandMessage cmd)) w2)
    as [(x & w3 & ->)|(w3 & ->)].
  { eapply stopped_shape; [by apply stopped_forwarding|].
    by rewrite app_nil_r. }
  assert (update_mission_status id "IN_PROGRESS"
            ("Executing command " +:+ str_nat (i + 1) +:+ "/"
             +:+ str_nat total +:+ ": " +:+ command)
          ++ [RedisPublish "gnc_commands" (CommandMessage cmd)]
          = announced id total i cmd) as Ha.
  { unfold announced. by rewrite Ht. }
  destruct (delay_of cmd) as [e|delay] eqn:Hd.
  { eapply stopped_shape.
    - apply stopped_on_data. unfold failure_of. by rewrite Ht, Hd.
    - unfold Unreliable.raise. by rewrite app_nil_r, <- Ha. }
  destruct (sleep delay) as [e|slept] eqn:Hs.
  { eapply stopped_shape.
    - apply stopped_on_data. unfold failure_of. by rewrite Ht, Hd, Hs.
    - unfold Unreliable.raise. by rewrite app_nil_r, <- Ha. }
  unfold sleep in Hs. destruct (sleep_refused delay) eqn:Hq; [done|].
  injection Hs as <-.
  unfold Unreliable.bind, Unreliable.emit.
  destruct (IH (S i) w3)
    as (done & rest & tail & w4 & r & -> & Hwf & -> & Hend).
  exists (cmd :: done), rest, tail, w4, r.
  split; [done|]. split.
  { constructor; [|done]. unfold well_formed. by rewrite Ht, Hd, Hq. }
  split.
  { cbn [nominal]. unfold step_events. rewrite Ht, Hd.
    cbn [app]. by rewrite <- ?app_assoc. }
  cbn [length]. replace (i + S (length done)) with (S i + length done) by lia.
  done.
Qed.

Lemma finally_cases (w : Unreliable.world) :
  exists fin w' r,
    Unreliable.finally_clause w = (fin, w', r)
    /\ ((fin = released /\ r = inr tt)
        \/ ((fin = [] \/ fin = [PubsubUnsubscribe]) /\ exists e, r = inl e)).
Proof.
  unfold Unreliable.finally_clause, Unreliable.bind.
  destruct (call_cases PubsubUnsubscribe w) as [(x & w1 & ->)|(w1 & ->)].
  { eexists _, _, _. split; [reflexivity|]. right. split; [by left|].
    by exists x. }
  destruct (call_cases PubsubClose w1) as [(x & w2 & ->)|(w2 & ->)].
  { eexists _, _, _. split; [reflexivity|]. right. split; [by right|].
    by exists x. }
  eexists _, _, _. split; [reflexivity|]. by left.
Qed.

Lemma except_cases (plan : mission_plan) (e : exn) (w : Unreliable.world) :
  exists fcut w' e',
    Unreliable.except_clause plan e w
    = (LogError ("Error executing mission " +:+ mission_id plan +:+ ": "
                 +:+ str_exn e) :: fcut, w', inl e')
    /\ ((fcut = update_mission_status (mission_id plan) "FAILED"
                  ("An error occurred: " +:+ str_exn e)
         /\ e' = e)
        \/ update_cut (mission_id plan) "FAILED"
             ("An error occurred: " +:+ str_exn e) fcut).
Proof.
  unfold Unreliable.except_clause, Unreliable.bind at 1, Unreliable.emit.
  unfold Unreliable.bind.
  destruct (update_mission_status_cases (mission_id plan) "FAILED"
              ("An error occurred: " +:+ str_exn e) w)
    as [(cut & x & w1 & -> & Hcut)|(w1 & ->)].
  { exists cut, w1, x. split; [reflexivity|]. by right. }
  eexists _, w1, e. unfold Unreliable.raise. split.
  { cbn [app]. by rewrite app_nil_r. }
  by left.
Qed.

Lemma execute_mission_redis_shape (redis : list (option exn))
    (env : environment) (plan : mission_plan) :
  exists trace o,
    Unreliable.execute_mission redis env plan = (trace, o)
    /\ (((exists e, o = Raised e)
         /\ (update_cut (mission_id plan) "IN_PROGRESS"
               "Starting mission execution." trace
             \/ trace = update_mission_status (mission_id plan) "IN_PROGRESS"
                          "Starting mission execution."))
        \/ (exists done rest middle fin,
              flight_plan plan = done ++ rest
              /\ Forall (fun c => well_formed c = true) done
              /\ trace
                 = started (mission_id plan)
                   ++ nominal (mission_id plan) (length (flight_plan plan)) 0
                        done
                   ++ middle ++ fin
              /\ (fin = released
                  \/ ((fin = [] \/ fin = [PubsubUnsubscribe])
                      /\ exists e, o = Raised e))
              /\ ending (mission_id plan) (length (flight_plan plan)) done
                   rest middle fin o)).
Proof.
  unfold Unreliable.execute_mission, Unreliable.task.
  set (w := Unreliable.MkWorld redis (abort_channel env)).
  unfold Unreliable.bind at 1.
  destruct (update_mission_status_cases (mission_id plan) "IN_PROGRESS"
              "Starting mission execution." w)
    as [(cut & x & w1 & -> & Hcut)|(w1 & ->)].
  { eexists _, _. split; [reflexivity|]. left. split; [by eexists|].
    by left. }
  unfold Unreliable.bind at 1.
  destruct (call_cases (PubsubSubscribe "mission_abort_commands") w1)
    as [(x & w2 & ->)|(w2 & ->)].
  { eexists _, _. split; [reflexivity|]. left. split; [by eexists|].
    right. by rewrite app_nil_r. }
  unfold Unreliable.try_finally, Unreliable.try_except, Unreliable.try_body.
  unfold Unreliable.bind at 1.
  destruct (run_flight_plan_redis_shape (mission_id plan)
              (length (flight_plan plan)) (flight_plan plan) 0 w2)
    as (done & rest & tail & w3 & r & Hplan & Hwf & -> & Hend).
  destruct Hend as [(-> & -> & ->)|[(Hrest & -> & ->)|
                     (cmd & rest' & e & -> & -> & Hstop)]].
  - (* the plan is exhausted *)
    unfold Unreliable.bind.
    destruct (update_mission_status_cases (mission_id plan) "COMPLETED"
                "All mission commands executed successfully." w3)
      as [(cut & x & w4 & -> & Hcut)|(w4 & ->)].
    + destruct (except_cases plan x w4) as (fcut & w5 & e' & -> & Hf).
      destruct (finally_cases w5) as (fin & w6 & r & -> & Hfin).
      eexists _, _. split; [reflexivity|]. right.
      exists done, [], (cut ++ LogError ("Error executing mission "
                                          +:+ mission_id plan +:+ ": "
                                          +:+ str_exn x) :: fcut), fin.
      split; [exact Hplan|]. split; [exact Hwf|].
      split.
      { unfold started. rewrite !app_nil_r, <- !app_assoc. reflexivity. }
      split.
      { destruct Hfin as [[-> ->]|[Hfin [e'' ->]]]; [by left|].
        right. split; [exact Hfin|]. by eexists. }
      right; right. exists cut, x, fcut.
      split; [reflexivity|]. split.
      { destruct Hfin as [[-> ->]|[_ [e'' ->]]]; by eexists. }
      split.
      { destruct Hf as [[-> _]|Hf]; [by left|by right]. }
      by left.
    + unfold Unreliable.ret.
      destruct (finally_cases w4) as (fin & w6 & r & -> & Hfin).
      eexists _, _. split; [reflexivity|]. right.
      exists done, [], (completed_events (mission_id plan)), fin.
      split; [exact Hplan|]. split; [exact Hwf|].
      split.
      { unfold started, completed_events.
        rewrite !app_nil_r, <- !app_assoc. reflexivity. }
      split.
      { destruct Hfin as [[-> ->]|[Hfin [e'' ->]]]; [by left|].
        right. split; [exact Hfin|]. by eexists. }
      left. split; [reflexivity|]. split; [reflexivity|].
      intros ->. destruct Hfin as [[_ ->]|[[H|H] _]]; done.
  - (* an abort was read *)
    unfold Unreliable.ret.
    destruct (finally_cases w3) as (fin & w6 & r & -> & Hfin).
    eexists _, _. split; [reflexivity|]. right.
    exists done, rest, (abort_events (mission_id plan)), fin.
    split; [exact Hplan|]. split; [exact Hwf|].
    split.
    { unfold started. rewrite <- !app_assoc. reflexivity. }
    split.
    { destruct Hfin as [[-> ->]|[Hfin [e'' ->]]]; [by left|].
      right. split; [exact Hfin|]. by eexists. }
    right; left. split; [exact Hrest|]. split; [reflexivity|].
    intros ->. destruct Hfin as [[_ ->]|[[H|H] _]]; done.
  - (* a step raised *)
    destruct (except_cases plan e w3) as (fcut & w5 & e' & -> & Hf).
    destruct (finally_cases w5) as (fin & w6 & r & -> & Hfin).
    eexists _, _. split; [reflexivity|]. right.
    exists done, (cmd :: rest'),
      (tail ++ LogError ("Error executing mission " +:+ mission_id plan
                         +:+ ": " +:+ str_exn e) :: fcut), fin.
    split; [exact Hplan|]. split; [exact Hwf|].
    split.
    { unfold started. rewrite <- !app_assoc. reflexivity. }
    split.
    { destruct Hfin as [[-> ->]|[Hfin [e'' ->]]]; [by left|].
      right. split; [exact Hfin|]. by eexists. }
    right; right. exists tail, e, fcut.
    split; [reflexivity|]. split.
    { destruct Hfin as [[-> ->]|[_ [e'' ->]]]; by eexists. }
    split.
    { destruct Hf as [[-> _]|Hf]; [by left|by right]. }
    right. by exists cmd, rest'.
Qed.

End Faults.

Section StatusFacts.

Lemma status_writes_update (id status details : string) :
  status_writes (update_mission_status id status details)
  = [(status_key id, status, details)].
Proof. reflexivity. Qed.

Lemma status_messages_update (id status details : string) :
  status_messages (update_mission_status id status details)
  = [(id, status, details)].
Proof. reflexivity. Qed.

Lemma status_writes_started (id : string) :
  status_writes (started id)
  = [(status_key id, "IN_PROGRESS", "Starting mission execution.")].
Proof. reflexivity. Qed.

Lemma status_messages_started (id : string) :
  status_messages (started id)
  = [(id, "IN_PROGRESS", "Starting mission execution.")].
Proof. reflexivity. Qed.

Lemma status_writes_failed (id : string) (e : exn) :
  status_writes (failed_events id e)
  = [(status_key id, "FAILED", "An error occurred: " +:+ str_exn e)].
Proof.
  unfold failed_events. cbn [app]. cbn [status_writes].
  apply status_writes_update.
Qed.

Lemma status_messages_failed (id : string) (e : exn) :
  status_messages (failed_events id e)
  = [(id, "FAILED", "An error occurred: " +:+ str_exn e)].
Proof.
  unfold failed_events. cbn [app]. cbn [status_messages].
  apply status_messages_update.
Qed.

Lemma running_in_progress (key details : string) :
  running (key, "IN_PROGRESS", details).
Proof. unfold running, status_of. cbn [fst snd]. reflexivity. Qed.

Lemma status_writes_released : status_writes released = [].
Proof. reflexivity. Qed.

Lemma status_messages_released : status_messages released = [].
Proof. reflexivity. Qed.

Lemma channels_announced (id : string) (total i : nat) (cmd : cmd_dict) :
  Forall (fun c => c = "mission_status" \/ c = "gnc_commands")
    (channels (announced id total i cmd)).
Proof.
  unfold announced. destruct (tag cmd); [|constructor].
  cbn. constructor; [by left|]. constructor; [by right|]. constructor.
Qed.

Lemma forwarded_app (a b : list event) :
  forwarded (a ++ b) = forwarded a ++ forwarded b.
Proof. apply published_app. Qed.

Lemma status_messages_nominal_in_progress (id : string) (total i : nat)
    (cmds : list cmd_dict) :
  Forall (fun r => r.1.1 = id /\ r.1.2 = "IN_PROGRESS")
    (status_messages (nominal id total i cmds)).
Proof.
  revert i. induction cmds as [|cmd cmds IH]; intros i; [constructor|].
  cbn [nominal]. unfold step_events.
  destruct (tag cmd); [|apply IH]. destruct (delay_of cmd); [apply IH|].
  rewrite !status_messages_app, status_messages_update.
  cbn [status_messages app]. constructor; [by split|apply IH].
Qed.

Lemma status_messages_announced_in_progress (id : string) (total i : nat)
    (cmd : cmd_dict) :
  Forall (fun r => r.1.1 = id /\ r.1.2 = "IN_PROGRESS")
    (status_messages (announced id total i cmd)).
Proof.
  unfold announced. destruct (tag cmd); [|constructor].
  rewrite status_messages_app, status_messages_update.
  cbn [status_messages app]. constructor; [by split|constructor].
Qed.

End StatusFacts.

Section FaultyTraces.

Variables (id : string) (total : nat).

(** *** Publication after the write *)

Lemma written_first_app (a b : list event) :
  written_first a -> written_first b -> written_first (a ++ b).
Proof.
  revert b. induction a as [a IH] using (induction_ltof1 _ (@length event)).
  unfold ltof in IH. intros b Ha Hb.
  destruct a as [|e a]; [exact Hb|].
  destruct e as [key [status details| |]|c [| |]| | | | | |];
    cbn [app written_first] in *; try done;
    try (apply IH; [cbn [length]; lia|done|done]).
  destruct a as [|e' a].
  { cbn [app]. destruct b as [|[|c [| |]| | | | | |] b]; try done.
    all: try exact Hb. }
  destruct e' as [|c [|i' s' d'|]| | | | | |]; cbn [app] in *;
    try (apply (IH (_ :: a)); [cbn [length]; lia|done|done]).
  destruct Ha as (-> & -> & -> & -> & Ha). repeat split.
  apply IH; [cbn [length]; lia|done|done].
Qed.

Lemma written_first_update (id' status details : string) :
  written_first (update_mission_status id' status details).
Proof. cbn. by repeat split. Qed.

Lemma written_first_nominal (i : nat) (cmds : list cmd_dict) :
  written_first (nominal id total i cmds).
Proof.
  revert i. induction cmds as [|cmd cmds IH]; intros i; [done|].
  cbn [nominal]. unfold step_events.
  destruct (tag cmd); [|apply IH]. destruct (delay_of cmd); [apply IH|].
  rewrite <- !app_assoc.
  apply written_first_app; [apply written_first_update|].
  cbn [app written_first]. apply IH.
Qed.

Lemma written_first_announced (i : nat) (cmd : cmd_dict) :
  written_first (announced id total i cmd).
Proof.
  unfold announced. destruct (tag cmd); [|done].
  apply written_first_app; [apply written_first_update|done].
Qed.

Lemma written_first_cut (status details : string) (t : list event) :
  update_cut id status details t -> written_first t.
Proof. by intros [->| ->]. Qed.

Lemma written_first_stopped (i : nat) (cmd : cmd_dict) (e : exn)
    (t : list event) :
  stopped id total i cmd e t -> written_first t.
Proof.
  intros [| |command _|command _|_].
  - done.
  - done.
  - done.
  - apply written_first_update.
  - apply written_first_announced.
Qed.

Lemma written_first_ending (done rest : list cmd_dict)
    (middle fin : list event) (o : outcome) :
  ending id total done rest middle fin o -> written_first middle.
Proof.
  intros [(_ & -> & _)|[(_ & -> & _)|
            (broken & e & fcut & -> & _ & Hf & Hb)]].
  - apply written_first_update.
  - apply written_first_update.
  - apply written_first_app.
    + destruct Hb as [[_ Hb]|(cmd & rest' & _ & Hb)].
      * by apply (written_first_cut _ _ _ Hb).
      * by apply (written_first_stopped _ _ _ _ Hb).
    + cbn [written_first]. destruct Hf as [->|Hf].
      * apply written_first_update.
      * by apply (written_first_cut _ _ _ Hf).
Qed.

Lemma channels_cut (status details : string) (t : list event) :
  update_cut id status details t -> channels t = [].
Proof. by intros [->| ->]. Qed.

Lemma channels_stopped (i : nat) (cmd : cmd_dict) (e : exn) (t : list event) :
  stopped id total i cmd e t ->
  Forall (fun c => c = "mission_status" \/ c = "gnc_commands") (channels t).
Proof.
  intros [| |command _|command _|_].
  - constructor.
  - constructor.
  - constructor.
  - cbn. constructor; [by left|constructor].
  - apply channels_announced.
Qed.

Lemma channels_ending (done rest : list cmd_dict) (middle fin : list event)
    (o : outcome) :
  ending id total done rest middle fin o ->
  Forall (fun c => c = "mission_status" \/ c = "gnc_commands")
    (channels middle).
Proof.
  intros [(_ & -> & _)|[(_ & -> & _)|
            (broken & e & fcut & -> & _ & Hf & Hb)]].
  - cbn. constructor; [by left|constructor].
  - cbn. constructor; [by left|constructor].
  - rewrite channels_app. apply Forall_app_2.
    + destruct Hb as [[_ Hb]|(cmd & rest' & _ & Hb)].
      * rewrite (channels_cut _ _ _ Hb). constructor.
      * by apply (channels_stopped _ _ _ _ Hb).
    + cbn [channels]. destruct Hf as [->|Hf].
      * cbn. constructor; [by left|constructor].
      * rewrite (channels_cut _ _ _ Hf). constructor.
Qed.

End FaultyTraces.

Section FaultyRuns.

Lemma written_first_released (fin : list event) (o : outcome) :
  fin = released
  \/ ((fin = [] \/ fin = [PubsubUnsubscribe]) /\ exists e, o = Raised e) ->
  written_first fin /\ channels fin = []
  /\ status_writes fin = [] /\ status_messages fin = []
  /\ sleeps fin = [] /\ forwarded fin = [].
Proof. intros [->|[[->| ->] _]]; by repeat split. Qed.

(** In every run, whatever the Redis client does, a status is published only
    right after the write of its snapshot. *)
Lemma written_first_execute_mission (redis : list (option exn))
    (env : environment) (plan : mission_plan) :
  written_first (Unreliable.execute_mission redis env plan).1.
Proof.
  destruct (execute_mission_redis_shape redis env plan)
    as (trace & o & -> & [[_ [Hcut| ->]]|
          (done & rest & middle & fin & _ & _ & -> & Hfin & Hend)]);
    cbn [fst].
  - by apply (written_first_cut _ _ _ _ Hcut).
  - apply written_first_update.
  - apply written_first_app.
    { unfold started. apply written_first_app;
        [apply written_first_update|done]. }
    apply written_first_app; [apply written_first_nominal|].
    apply written_first_app.
    + by apply (written_first_ending _ _ _ _ _ _ _ Hend).
    + by apply (written_first_released _ _ Hfin).
Qed.

Lemma channels_execute_mission_redis (redis : list (option exn))
    (env : environment) (plan : mission_plan) :
  Forall (fun c => c = "mission_status" \/ c = "gnc_commands")
    (channels (Unreliable.execute_mission redis env plan).1).
Proof.
  destruct (execute_mission_redis_shape redis env plan)
    as (trace & o & -> & [[_ [Hcut| ->]]|
          (done & rest & middle & fin & _ & _ & -> & Hfin & Hend)]);
    cbn [fst].
  - rewrite (channels_cut _ _ _ _ Hcut). constructor.
  - cbn. constructor; [by left|constructor].
  - rewrite !channels_app. repeat apply Forall_app_2.
    + cbn. constructor; [by left|constructor].
    + apply nominal_channels.
    + by apply (channels_ending _ _ _ _ _ _ _ Hend).
    + destruct (written_first_released _ _ Hfin) as (_ & -> & _).
      constructor.
Qed.

End FaultyRuns.

Section Settled.

Lemma settled_quiet (t : list event) : status_messages t = [] -> settled t.
Proof.
  induction t as [|e t IH]; [done|].
  destruct e as [|c [|i' s' d'|]| | | | | |]; cbn [status_messages settled];
    try exact IH.
  discriminate.
Qed.

Lemma settled_running (a b : list event) :
  Forall running (status_messages a) -> settled b -> settled (a ++ b).
Proof.
  intros Ha Hb. induction a as [|e a IH]; [exact Hb|].
  destruct e as [|c [|i' s' d'|]| | | | | |];
    cbn [app status_messages settled] in *; try (by apply IH).
  apply Forall_cons_1 in Ha as [Hr Ha]. unfold running, status_of in Hr.
  cbn [fst snd] in Hr. rewrite Hr. by apply IH.
Qed.

Lemma settled_update (id status details : string) (rest : list event) :
  status_writes rest = [] -> status_messages rest = [] ->
  settled (update_mission_status id status details ++ rest).
Proof.
  intros Hw Hm. unfold update_mission_status. cbn [app settled].
  destruct (terminal status).
  - cbn [status_writes status_messages]. by split.
  - by apply settled_quiet.
Qed.

Lemma settled_split (before after : list event)
    (channel id status details : string) :
  settled (before ++ RedisPublish channel (StatusMessage id status details)
                     :: after) ->
  terminal status = true ->
  status_writes after = [] /\ status_messages after = [].
Proof.
  intros H Ht. induction before as [|e before IH].
  - cbn [app settled] in H. by rewrite Ht in H.
  - apply IH. clear IH.
    destruct e as [|c [|i' s' d'|]| | | | | |]; cbn [app settled] in H;
      try exact H.
    destruct (terminal s'); [|exact H].
    apply settled_quiet. by destruct H.
Qed.

Lemma running_cut (id status details : string) (t : list event) :
  update_cut id status details t -> status_messages t = [].
Proof. by intros [->| ->]. Qed.

Lemma running_nominal (id : string) (total i : nat) (cmds : list cmd_dict) :
  Forall running (status_messages (nominal id total i cmds)).
Proof.
  eapply Forall_impl; [apply status_messages_nominal_in_progress|].
  intros [[k s] d] [_ Hs]. cbn [fst snd] in Hs. subst s.
  apply running_in_progress.
Qed.

Lemma running_stopped (id : string) (total i : nat) (cmd : cmd_dict)
    (e : exn) (t : list event) :
  stopped id total i cmd e t -> Forall running (status_messages t).
Proof.
  intros [| |command _|command _|_].
  - constructor.
  - constructor.
  - constructor.
  - rewrite status_messages_update. constructor; [|constructor].
    apply running_in_progress.
  - eapply Forall_impl; [apply status_messages_announced_in_progress|].
    intros [[k s] d] [_ Hs]. cbn [fst snd] in Hs. subst s.
    apply running_in_progress.
Qed.

(** In every run, whatever the Redis client does, nothing about a status
    follows the publication of a terminal status. *)
Lemma settled_execute_mission (redis : list (option exn)) (env : environment)
    (plan : mission_plan) :
  settled (Unreliable.execute_mission redis env plan).1.
Proof.
  destruct (execute_mission_redis_shape redis env plan)
    as (trace & o & -> & [[_ [Hcut| ->]]|
          (done & rest & middle & fin & _ & _ & -> & Hfin & Hend)]);
    cbn [fst].
  - apply settled_quiet. by apply (running_cut _ _ _ _ Hcut).
  - rewrite <- (app_nil_r (update_mission_status _ _ _)).
    by apply settled_update.
  - destruct (written_first_released _ _ Hfin) as (_ & _ & Hw & Hm & _).
    apply settled_running.
    { rewrite status_messages_started. constructor; [|constructor].
      apply running_in_progress. }
    apply settled_running; [apply running_nominal|].
    destruct Hend as [(_ & -> & _)|[(_ & -> & _)|
                       (broken & e & fcut & -> & _ & Hf & Hb)]].
    + by apply settled_update.
    + by apply settled_update.
    + rewrite <- app_assoc. apply settled_running.
      { destruct Hb as [[_ Hb]|(cmd & rest' & _ & Hb)].
        - rewrite (running_cut _ _ _ _ Hb). constructor.
        - by apply (running_stopped _ _ _ _ _ _ Hb). }
      cbn [app settled]. destruct Hf as [->|Hf].
      * by apply settled_update.
      * apply settled_quiet. rewrite status_messages_app, Hm.
        by rewrite (running_cut _ _ _ _ Hf).
Qed.

End Settled.

Section DelayKept.

Variables (id : string) (total : nat) (o : outcome).

Lemma well_formed_delay (cmd : cmd_dict) :
  well_formed cmd = true ->
  failure_of cmd = None /\ delay_of cmd = inr (delay_seconds cmd).
Proof.
  intros H. destruct (well_formed_inv cmd H) as (command & delay & Ht & Hd & Hq).
  unfold failure_of, delay_seconds, sleep. by rewrite Ht, Hd, Hq.
Qed.

Lemma delay_kept_tail (e : event) (rest : list event) :
  delay_kept id o (e :: rest) -> delay_kept id o rest.
Proof.
  destruct e as [|c [| |cmd]| | | | | |]; cbn [delay_kept]; try done.
  by intros [_ H].
Qed.

Lemma delay_kept_split (before after : list event) (channel : string)
    (cmd : cmd_dict) :
  delay_kept id o
    (before ++ RedisPublish channel (CommandMessage cmd) :: after) ->
  match failure_of cmd with
  | None => exists after', after = Sleep (delay_seconds cmd) :: after'
  | Some e =>
      (exists after',
         after = LogError ("Error executing mission " +:+ id +:+ ": "
                           +:+ str_exn e) :: after')
      /\ sleeps after = [] /\ forwarded after = []
      /\ exists e', o = Raised e'
  end.
Proof.
  induction before as [|e before IH].
  - cbn [app delay_kept]. by intros [H _].
  - intros H. apply IH. by apply (delay_kept_tail e).
Qed.

Lemma delay_kept_update (id' status details : string) (rest : list event) :
  delay_kept id o rest ->
  delay_kept id o (update_mission_status id' status details ++ rest).
Proof. done. Qed.

Lemma delay_kept_cut (status details : string) (t rest : list event) :
  update_cut id status details t ->
  delay_kept id o rest -> delay_kept id o (t ++ rest).
Proof. by intros [->| ->]. Qed.

Lemma delay_kept_nominal (i : nat) (cmds : list cmd_dict) (rest : list event) :
  Forall (fun c => well_formed c = true) cmds ->
  delay_kept id o rest -> delay_kept id o (nominal id total i cmds ++ rest).
Proof.
  intros Hwf H. revert i.
  induction cmds as [|cmd cmds IH]; intros i; [done|].
  apply Forall_cons_1 in Hwf as [Hcmd Hwf].
  destruct (well_formed_delay cmd Hcmd) as [Hf Hd].
  cbn [nominal]. unfold step_events. rewrite Hd.
  destruct (tag cmd); [|by apply IH].
  rewrite <- !app_assoc. apply delay_kept_update. cbn [app delay_kept].
  rewrite Hf. split; [by eexists|by apply IH].
Qed.

End DelayKept.

Section DelayKeptRuns.

Lemma delay_kept_released (id : string) (o : outcome) (fin : list event) :
  fin = released
  \/ ((fin = [] \/ fin = [PubsubUnsubscribe]) /\ exists e, o = Raised e) ->
  delay_kept id o fin.
Proof. by intros [->|[[->| ->] _]]. Qed.

(** What follows the step that raised: the [except] clause and the
    [finally] clause. *)
Lemma delay_kept_handler (id : string) (o : outcome) (e : exn)
    (fcut fin : list event) :
  fcut = update_mission_status id "FAILED" ("An error occurred: " +:+ str_exn e)
  \/ update_cut id "FAILED" ("An error occurred: " +:+ str_exn e) fcut ->
  fin = released
  \/ ((fin = [] \/ fin = [PubsubUnsubscribe]) /\ exists e, o = Raised e) ->
  sleeps (fcut ++ fin) = [] /\ forwarded (fcut ++ fin) = []
  /\ delay_kept id o (fcut ++ fin).
Proof.
  intros Hf Hfin.
  destruct (written_first_released _ _ Hfin) as (_ & _ & _ & _ & Hs & Hfw).
  pose proof (delay_kept_released id o fin Hfin) as Hk.
  rewrite sleeps_app, forwarded_app, Hs, Hfw.
  destruct Hf as [->|[->| ->]]; by repeat split.
Qed.

Lemma delay_kept_stopped (id : string) (total i : nat) (cmd : cmd_dict)
    (e : exn) (broken fcut fin : list event) (o : outcome) :
  stopped id total i cmd e broken ->
  (exists e', o = Raised e') ->
  fcut = update_mission_status id "FAILED" ("An error occurred: " +:+ str_exn e)
  \/ update_cut id "FAILED" ("An error occurred: " +:+ str_exn e) fcut ->
  fin = released
  \/ ((fin = [] \/ fin = [PubsubUnsubscribe]) /\ exists e, o = Raised e) ->
  delay_kept id o
    (broken
     ++ LogError ("Error executing mission " +:+ id +:+ ": " +:+ str_exn e)
        :: fcut ++ fin).
Proof.
  intros Hb Ho Hf Hfin.
  destruct (delay_kept_handler id o e fcut fin Hf Hfin) as (Hs & Hfw & Hk).
  destruct Hb as [| |command _|command _|Hfail].
  - exact Hk.
  - exact Hk.
  - exact Hk.
  - exact Hk.
  - unfold announced. destruct (tag cmd); [|exact Hk].
    rewrite <- !app_assoc. apply delay_kept_update.
    cbn [app delay_kept]. rewrite Hfail.
    split; [|exact Hk]. split; [by eexists|].
    cbn [sleeps]. split; [exact Hs|]. split; [|exact Ho].
    exact Hfw.
Qed.

(** In every run, whatever the Redis client does: a command forwarded is
    followed by the sleep of its delay, or by the [except] clause. *)
Lemma delay_kept_execute_mission (redis : list (option exn))
    (env : environment) (plan : mission_plan) :
  delay_kept (mission_id plan) (Unreliable.execute_mission redis env plan).2
    (Unreliable.execute_mission redis env plan).1.
Proof.
  destruct (execute_mission_redis_shape redis env plan)
    as (trace & o & -> & [[_ [Hcut| ->]]|
          (done & rest & middle & fin & _ & Hwf & -> & Hfin & Hend)]);
    cbn [fst snd].
  - rewrite <- (app_nil_r trace). by apply (delay_kept_cut _ _ _ _ _ _ Hcut).
  - done.
  - unfold started. rewrite <- !app_assoc. apply delay_kept_update.
    cbn [app delay_kept]. apply delay_kept_nominal; [exact Hwf|].
    pose proof (delay_kept_released (mission_id plan) o fin Hfin) as Hk.
    destruct Hend as [(_ & -> & _)|[(_ & -> & _)|
                       (broken & e & fcut & -> & Ho & Hf & Hb)]].
    + by apply delay_kept_update.
    + by apply delay_kept_update.
    + rewrite <- app_assoc. cbn [app].
      destruct Hb as [[_ Hb]|(cmd & rest' & _ & Hb)].
      * apply (delay_kept_cut _ _ _ _ _ _ Hb). cbn [delay_kept].
        by apply (delay_kept_handler _ _ e).
      * by apply (delay_kept_stopped _ _ _ _ _ _ _ _ _ Hb).
Qed.

End DelayKeptRuns.

Section Completion.

Lemma execute_mission_nominal (env : environment) (plan : mission_plan) :
  no_abort (mission_id plan) (length (flight_plan plan)) (abort_channel env) ->
  Forall (fun c => well_formed c = true) (flight_plan plan) ->
  execute_mission env plan
  = (started (mission_id plan)
     ++ nominal (mission_id plan) (length (flight_plan plan)) 0
          (flight_plan plan)
     ++ completed_events (mission_id plan) ++ released,
     Returned "COMPLETED").
Proof.
  intros Hna Hwf. unfold execute_mission.
  pose proof (run_flight_plan_prefix (mission_id plan)
                (length (flight_plan plan)) (flight_plan plan) [] 0
                (abort_channel env) Hwf Hna) as E.
  rewrite app_nil_r in E. rewrite E. cbn [run_flight_plan fst snd].
  by rewrite app_nil_r.
Qed.

Lemma redis_after_final (before : list event) (id status details : string)
    (store : gmap string payload) :
  redis_after (before ++ update_mission_status id status details ++ released)
    store !! status_key id
  = Some (StatusSnapshot status details).
Proof.
  rewrite !redis_after_app. cbn. apply lookup_insert_eq.
Qed.

Lemma execute_mission_nominal_forwarded (env : environment)
    (plan : mission_plan) :
  no_abort (mission_id plan) (length (flight_plan plan)) (abort_channel env) ->
  Forall (fun c => well_formed c = true) (flight_plan plan) ->
  (execute_mission env plan).2 = Returned "COMPLETED"
  /\ forwarded (execute_mission env plan).1
     = map CommandMessage (flight_plan plan).
Proof.
  intros Hna Hwf. rewrite (execute_mission_nominal env plan Hna Hwf).
  cbn [fst snd]. split; [done|].
  unfold forwarded. rewrite !published_app.
  change (published "gnc_commands" (started (mission_id plan)))
    with (@nil payload).
  change (published "gnc_commands" (completed_events (mission_id plan)))
    with (@nil payload).
  change (published "gnc_commands" released) with (@nil payload).
  rewrite !app_nil_r. apply (nominal_forwarded _ _ 0 _ Hwf).
Qed.

Lemma last_status_write (before : list event) (id status details : string) :
  last (status_writes
          (before ++ update_mission_status id status details ++ released))
  = Some (status_key id, status, details).
Proof.
  rewrite !status_writes_app.
  change (status_writes (update_mission_status id status details))
    with [(status_key id, status, details)].
  change (status_writes released) with (@nil (string * string * string)).
  rewrite app_nil_r. apply last_snoc.
Qed.

Lemma last_status_message (before : list event) (id status details : string) :
  last (status_messages
          (before ++ update_mission_status id status details ++ released))
  = Some (id, status, details).
Proof.
  rewrite !status_messages_app.
  change (status_messages (update_mission_status id status details))
    with [(id, status, details)].
  change (status_messages released) with (@nil (string * string * string)).
  rewrite app_nil_r. apply last_snoc.
Qed.

End Completion.

(** C1: when no read of the abort channel is an abort of the mission and
    nothing fails (every call of the Redis client answers, every step has
    its tag and a delay that [time.sleep] takes), [execute_mission] forwards
    the commands of the plan on ["gnc_commands"], one per step and in the
    order of the plan, and after that records COMPLETED with "All mission
    commands executed successfully." (last snapshot written, last status
    published, value of the status key at the end); with an empty plan
    nothing is forwarded and COMPLETED directly follows the start of the
    task. *)
Theorem execute_mission_forwards_all_then_completes
    (redis : list (option exn)) (env : environment) (plan : mission_plan)
    (store : gmap string payload) :
  reliable redis ->
  no_abort (mission_id plan) (length (flight_plan plan)) (abort_channel env) ->
  Forall (fun c => well_formed c = true) (flight_plan plan) ->
  let id := mission_id plan in
  let trace := (Unreliable.execute_mission redis env plan).1 in
  let message := "All mission commands executed successfully." in
  (Unreliable.execute_mission redis env plan).2 = Returned "COMPLETED"
  /\ (exists before,
        trace = before ++ update_mission_status id "COMPLETED" message
                ++ [PubsubUnsubscribe; PubsubClose]
        /\ forwarded before = map CommandMessage (flight_plan plan))
  /\ forwarded trace = map CommandMessage (flight_plan plan)
  /\ length (forwarded trace) = length (flight_plan plan)
  /\ last (status_writes trace) = Some (status_key id, "COMPLETED", message)
  /\ last (status_messages trace) = Some (id, "COMPLETED", message)
  /\ redis_after trace store !! status_key id
     = Some (StatusSnapshot "COMPLETED" message)
  /\ (flight_plan plan = [] ->
      forwarded trace = []
      /\ trace = update_mission_status id "IN_PROGRESS"
                   "Starting mission execution."
                 ++ [PubsubSubscribe "mission_abort_commands"]
                 ++ update_mission_status id "COMPLETED" message
                 ++ [PubsubUnsubscribe; PubsubClose]).
Proof.
  intros Hr Hna Hwf id trace message. subst trace.
  rewrite (execute_mission_answers redis env plan Hr).
  rewrite (execute_mission_nominal env plan Hna Hwf). fold id. cbn [fst snd].
  assert (forwarded (started id ++ nominal id (length (flight_plan plan)) 0
                       (flight_plan plan))
          = map CommandMessage (flight_plan plan)) as Hfw.
  { unfold forwarded. rewrite published_app.
    change (published "gnc_commands" (started id)) with (@nil payload).
    apply (nominal_forwarded id _ 0 _ Hwf). }
  assert (forwarded (started id ++ nominal id (length (flight_plan plan)) 0
                       (flight_plan plan) ++ completed_events id ++ released)
          = map CommandMessage (flight_plan plan)) as Hall.
  { rewrite app_assoc. unfold forwarded in *. rewrite published_app, Hfw.
    apply app_nil_r. }
  split; [done|]. split.
  { eexists. split; [|exact Hfw]. by rewrite <- app_assoc. }
  split; [done|]. split; [by rewrite Hall, length_map|].
  rewrite (app_assoc (started id)).
  split; [apply last_status_write|]. split; [apply last_status_message|].
  split; [apply redis_after_final|].
  rewrite <- (app_assoc (started id)).
  intros Hnil. split; [by rewrite Hall, Hnil|]. by rewrite Hnil.
Qed.

(** C1, at a plan of two steps. *)
Lemma execute_mission_forwards_all_then_completes_witness :
  reliable []
  /\ no_abort "m1" 2 (abort_channel quiet)
  /\ Forall (fun c => well_formed c = true) [set_throttle; stage_quarter_second]
  /\ (Unreliable.execute_mission [] quiet
        (MkPlan "m1" [set_throttle; stage_quarter_second])).2
     = Returned "COMPLETED".
Proof.
  assert (reliable []) as Hr by constructor.
  assert (no_abort "m1" 2 (abort_channel quiet)) as Hna by constructor.
  assert (Forall (fun c => well_formed c = true)
            [set_throttle; stage_quarter_second]) as Hwf
    by (repeat constructor).
  split; [exact Hr|]. split; [exact Hna|]. split; [exact Hwf|].
  exact (proj1 (execute_mission_forwards_all_then_completes [] quiet
                  (MkPlan "m1" [set_throttle; stage_quarter_second])
                  (gmap_empty) Hr Hna Hwf)).
Defined.

Section UnknownTag.

Lemma dispatch_unknown (float_of_str : string -> exn + float)
    (st : FlightControl.krpc_state) (command : option string) (params : json) :
  FlightControl.known_command command = false ->
  FlightControl.dispatch float_of_str st command params
  = ([FlightControl.Logged "WARNING" ("Unknown command: " +:+ str_opt command)],
     None).
Proof.
  unfold FlightControl.known_command, FlightControl.dispatch.
  intros H.
  repeat (apply orb_false_elim in H as [H ?]).
  by repeat match goal with E : _ = false |- _ => rewrite E; clear E end.
Qed.

Lemma execute_command_unknown (float_of_str : string -> exn + float)
    (st : FlightControl.krpc_state) (cmd : cmd_dict) :
  FlightControl.connected st = true ->
  FlightControl.known_command (tag cmd) = false ->
  FlightControl.execute_command float_of_str st cmd
  = [FlightControl.LoggedExecuting (tag cmd)
       (match dict_get "parameters" (items cmd) with
        | Some v => v
        | None => JObj []
        end);
     FlightControl.Logged "WARNING"
       ("Unknown command: " +:+ str_opt (tag cmd))].
Proof.
  intros Hc Hk. unfold FlightControl.execute_command.
  rewrite Hc. cbn [negb]. by rewrite (dispatch_unknown _ _ _ _ Hk).
Qed.

Lemma nominal_never_failed (id : string) (total i : nat)
    (cmds : list cmd_dict) :
  Forall (fun r => status_of r <> "FAILED")
    (status_writes (nominal id total i cmds)).
Proof.
  eapply Forall_impl; [apply nominal_status_writes|].
  intros r Hr E. unfold terminal in Hr. by rewrite E in Hr.
Qed.

End UnknownTag.

(** C2 fails on this plan: the tag INVALID_COMMAND is none that flight
    control knows, yet the mission is not FAILED (so no record mentions
    "Invalid command"): it ends COMPLETED, and the command that follows the
    unknown one is forwarded too. *)
Lemma unknown_tag_counterexample :
  FlightControl.known_command (tag invalid_command) = false
  /\ ~ (exists details,
          last (status_writes
                  (execute_mission quiet
                     (MkPlan "test-failure-123"
                        [invalid_command; set_throttle])).1)
          = Some (status_key "test-failure-123", "FAILED", details)
          /\ py_in "Invalid command" details = true)
  /\ forwarded
       (execute_mission quiet
          (MkPlan "test-failure-123" [invalid_command; set_throttle])).1
     <> [CommandMessage invalid_command]
  /\ execute_mission quiet
       (MkPlan "test-failure-123" [invalid_command; set_throttle])
     = (started "test-failure-123"
        ++ update_mission_status "test-failure-123" "IN_PROGRESS"
             "Executing command 1/2: INVALID_COMMAND"
        ++ [RedisPublish "gnc_commands" (CommandMessage invalid_command);
            Sleep (1000 / 1000)]
        ++ update_mission_status "test-failure-123" "IN_PROGRESS"
             "Executing command 2/2: SET_THROTTLE"
        ++ [RedisPublish "gnc_commands" (CommandMessage set_throttle);
            Sleep (1000 / 1000)]
        ++ update_mission_status "test-failure-123" "COMPLETED"
             "All mission commands executed successfully."
        ++ released,
        Returned "COMPLETED").
Proof.
  split; [reflexivity|]. split.
  { intros (details & H & _). vm_compute in H. discriminate H. }
  split; [|reflexivity].
  intros H. vm_compute in H. discriminate H.
Qed.

(** C2 as amended: an unknown tag fails nothing.  When no read of the abort
    channel is an abort and no step raises (the Redis client answers, every
    step has its tag and a delay that [time.sleep] takes), a plan that holds
    a command with a tag unknown to flight control ends COMPLETED, no
    snapshot written is FAILED, and every command is forwarded, the unknown
    one and those after it alike; [execute_command], once connected, logs
    the command as unknown and makes no call on the vessel. *)
Theorem unknown_tag_is_forwarded_not_failed
    (float_of_str : string -> exn + float) (st : FlightControl.krpc_state)
    (redis : list (option exn)) (env : environment) (plan : mission_plan)
    (cmd : cmd_dict) :
  reliable redis ->
  cmd ∈ flight_plan plan ->
  FlightControl.known_command (tag cmd) = false ->
  no_abort (mission_id plan) (length (flight_plan plan)) (abort_channel env) ->
  Forall (fun c => well_formed c = true) (flight_plan plan) ->
  (Unreliable.execute_mission redis env plan).2 = Returned "COMPLETED"
  /\ forwarded (Unreliable.execute_mission redis env plan).1
     = map CommandMessage (flight_plan plan)
  /\ CommandMessage cmd ∈ forwarded (Unreliable.execute_mission redis env plan).1
  /\ Forall (fun r => status_of r <> "FAILED")
       (status_writes (Unreliable.execute_mission redis env plan).1)
  /\ FlightControl.handle_calls
       (FlightControl.execute_command float_of_str st cmd) = []
  /\ (FlightControl.connected st = true ->
      FlightControl.execute_command float_of_str st cmd
      = [FlightControl.LoggedExecuting (tag cmd)
           (match dict_get "parameters" (items cmd) with
            | Some v => v
            | None => JObj []
            end);
         FlightControl.Logged "WARNING"
           ("Unknown command: " +:+ str_opt (tag cmd))]).
Proof.
  intros Hr Hin Hk Hna Hwf.
  rewrite (execute_mission_answers redis env plan Hr).
  destruct (execute_mission_nominal_forwarded env plan Hna Hwf)
    as (Hout & Hfw).
  split; [done|]. split; [done|]. split.
  { rewrite Hfw. by apply list_elem_of_fmap_2. }
  split.
  { rewrite (execute_mission_nominal env plan Hna Hwf). cbn [fst].
    rewrite !status_writes_app. repeat apply Forall_app_2.
    - by repeat constructor.
    - apply nominal_never_failed.
    - by repeat constructor.
    - constructor. }
  split; [|intros Hc; by apply execute_command_unknown].
  unfold FlightControl.execute_command.
  destruct (FlightControl.connected st); [|reflexivity].
  cbn [negb]. by rewrite (dispatch_unknown _ _ _ _ Hk).
Qed.

(** C2 as amended, at the plan of the counterexample. *)
Lemma unknown_tag_is_forwarded_not_failed_witness :
  reliable []
  /\ invalid_command ∈ [invalid_command; set_throttle]
  /\ FlightControl.known_command (tag invalid_command) = false
  /\ no_abort "test-failure-123" 2 (abort_channel quiet)
  /\ Forall (fun c => well_formed c = true) [invalid_command; set_throttle]
  /\ (Unreliable.execute_mission [] quiet
        (MkPlan "test-failure-123" [invalid_command; set_throttle])).2
     = Returned "COMPLETED".
Proof.
  assert (reliable []) as Hr by constructor.
  assert (invalid_command ∈ [invalid_command; set_throttle]) as Hin
    by constructor.
  assert (no_abort "test-failure-123" 2 (abort_channel quiet)) as Hna
    by constructor.
  assert (Forall (fun c => well_formed c = true)
            [invalid_command; set_throttle]) as Hwf by (repeat constructor).
  split; [exact Hr|]. split; [exact Hin|]. split; [reflexivity|].
  split; [exact Hna|]. split; [exact Hwf|].
  exact (proj1 (unknown_tag_is_forwarded_not_failed
                  FlightControl.float_unreadable climbing_then_falling [] quiet
                  (MkPlan "test-failure-123" [invalid_command; set_throttle])
                  invalid_command Hr Hin eq_refl Hna Hwf)).
Defined.

Section Abort.

(** The run when the read before step [length done] is an abort. *)
Lemma run_flight_plan_abort (id : string) (total : nat)
    (done : list cmd_dict) (cmd : cmd_dict) (rest : list cmd_dict)
    (pending : list (option message)) (m : option message) :
  Forall (fun c => well_formed c = true) done ->
  no_abort id (length done) pending ->
  pending !! length done = Some m ->
  abort_signal id m = true ->
  run_flight_plan id total 0 (done ++ cmd :: rest) pending
  = (nominal id total 0 done ++ abort_events id, Return "ABORTED").
Proof.
  intros Hwf Hna Hm Hab.
  rewrite (run_flight_plan_prefix id total done (cmd :: rest) 0 pending Hwf Hna).
  cbn [run_flight_plan].
  pose proof (get_message_lookup pending (length done) m Hm) as E.
  destruct (get_message (drop (length done) pending)) as [m' pending'].
  cbn [fst] in E. subst m'. by rewrite Hab.
Qed.

End Abort.

Section AbortedRecords.

Variable id : string.

Lemma operator_in_progress (rs : list (string * string * string)) :
  Forall (fun r => r.1.1 = id /\ r.1.2 = "IN_PROGRESS") rs ->
  Forall (operator id) rs.
Proof.
  intros H. eapply Forall_impl; [exact H|]. intros [[k s] d] [_ Hs] E.
  unfold status_of in E. cbn [fst snd] in *. by rewrite Hs in E.
Qed.

Lemma operator_update (status details : string) :
  status <> "ABORTED" ->
  Forall (operator id) (status_messages (update_mission_status id status details)).
Proof.
  intros H. rewrite status_messages_update. constructor; [|constructor].
  intros E. by destruct H.
Qed.

Lemma operator_cut (status details : string) (t : list event) :
  update_cut id status details t -> Forall (operator id) (status_messages t).
Proof. intros [->| ->]; constructor. Qed.

Lemma operator_stopped (total i : nat) (cmd : cmd_dict) (e : exn)
    (t : list event) :
  stopped id total i cmd e t -> Forall (operator id) (status_messages t).
Proof.
  intros [| |command _|command _|_].
  - constructor.
  - constructor.
  - constructor.
  - by apply operator_update.
  - apply operator_in_progress, status_messages_announced_in_progress.
Qed.

Lemma operator_ending (total : nat) (done rest : list cmd_dict)
    (middle fin : list event) (o : outcome) :
  ending id total done rest middle fin o ->
  Forall (operator id) (status_messages middle).
Proof.
  intros [(_ & -> & _)|[(_ & -> & _)|
            (broken & e & fcut & -> & _ & Hf & Hb)]].
  - by apply operator_update.
  - unfold abort_events. rewrite status_messages_update.
    by constructor; [|constructor].
  - rewrite status_messages_app. apply Forall_app_2.
    + destruct Hb as [[_ Hb]|(cmd & rest' & _ & Hb)].
      * by apply (operator_cut _ _ _ Hb).
      * by apply (operator_stopped _ _ _ _ _ Hb).
    + cbn [status_messages]. destruct Hf as [->|Hf].
      * by apply operator_update.
      * by apply (operator_cut _ _ _ Hf).
Qed.

End AbortedRecords.

(** In every run, whatever the Redis client does, a status published as
    ABORTED is the operator's abort of the mission of the plan. *)
Lemma aborted_by_operator (redis : list (option exn)) (env : environment)
    (plan : mission_plan) (r : string * string * string) :
  r ∈ status_messages (Unreliable.execute_mission redis env plan).1 ->
  status_of r = "ABORTED" ->
  r = (mission_id plan, "ABORTED", "Mission aborted by operator.").
Proof.
  intros Hin. revert r Hin.
  apply (proj1 (Forall_forall (operator (mission_id plan)) _)).
  destruct (execute_mission_redis_shape redis env plan)
    as (trace & o & -> & [[_ [Hcut| ->]]|
          (done & rest & middle & fin & _ & _ & -> & Hfin & Hend)]);
    cbn [fst].
  - by apply (operator_cut _ _ _ _ Hcut).
  - by apply operator_update.
  - rewrite !status_messages_app. repeat apply Forall_app_2.
    + rewrite status_messages_started. constructor; [|constructor]. done.
    + apply operator_in_progress, status_messages_nominal_in_progress.
    + by apply (operator_ending _ _ _ _ _ _ _ Hend).
    + destruct (written_first_released _ _ Hfin) as (_ & _ & _ & -> & _).
      constructor.
Qed.

(** One message is read per step: an abort that arrives behind the
    confirmation of the subscription is not read before the first step, and
    a plan of one step is run to its end. *)
Remark abort_behind_confirmation_not_read :
  execute_mission (MkEnv false (abort_after_confirmation "m1"))
    (MkPlan "m1" [set_throttle])
  = execute_mission quiet (MkPlan "m1" [set_throttle])
  /\ (execute_mission (MkEnv false (abort_after_confirmation "m1"))
        (MkPlan "m1" [set_throttle])).2
     = Returned "COMPLETED".
Proof. split; reflexivity. Qed.

(** C3 fails on the code.  With the shutdown of the service requested, a
    plan of one step is run to COMPLETED and its command is forwarded: no
    record is ABORTED, none says "Service shutdown" (worker.py has no stop
    flag to look at; the field of the surroundings stands for the request).
    When an abort of the mission is read, the details recorded are the
    text "Mission aborted by operator." with its full stop.  And whatever
    the surroundings and the Redis client do, no run of this plan publishes
    ABORTED with the details "Service shutdown": the task has no such
    record to write. *)
Lemma shutdown_flag_counterexample :
  shutdown_requested (MkEnv true []) = true
  /\ (execute_mission (MkEnv true []) (MkPlan "test-restart-123" [wait_5])).2
     = Returned "COMPLETED"
  /\ forwarded
       (execute_mission (MkEnv true []) (MkPlan "test-restart-123" [wait_5])).1
     = [CommandMessage wait_5]
  /\ status_messages
       (execute_mission (MkEnv true []) (MkPlan "test-restart-123" [wait_5])).1
     = [("test-restart-123", "IN_PROGRESS", "Starting mission execution.");
        ("test-restart-123", "IN_PROGRESS", "Executing command 1/1: WAIT");
        ("test-restart-123", "COMPLETED",
         "All mission commands executed successfully.")]
  /\ ~ (exists reason,
          ("test-restart-123", "ABORTED", reason)
          ∈ status_messages
              (execute_mission (MkEnv true [])
                 (MkPlan "test-restart-123" [wait_5])).1)
  /\ status_messages
       (execute_mission
          (MkEnv false [Some (MkMessage "message" (JStr "test-restart-123"))])
          (MkPlan "test-restart-123" [wait_5])).1
     = [("test-restart-123", "IN_PROGRESS", "Starting mission execution.");
        ("test-restart-123", "ABORTED", "Mission aborted by operator.")]
  /\ "Mission aborted by operator." <> "Mission aborted by operator"
  /\ (forall (redis : list (option exn)) (env : environment),
        ("test-restart-123", "ABORTED", "Service shutdown")
        ∉ status_messages
            (Unreliable.execute_mission redis env
               (MkPlan "test-restart-123" [wait_5])).1).
Proof.
  repeat split; try reflexivity; try discriminate.
  - intros (reason & H). vm_compute in H.
    repeat (apply elem_of_cons in H as [H|H]; [discriminate H|]).
    by apply elem_of_nil in H.
  - intros redis env H. by apply aborted_by_operator in H.
Qed.

(** C3 as amended: before each step the task reads one message from the
    abort channel, without blocking; there is no stop flag.  When the steps
    before have run without incident (the Redis client answers, each of
    them has its tag and a delay that [time.sleep] takes, none was preceded
    by an abort) and the message read before the next step is an abort
    whose data is the id of the mission, the task records ABORTED with the
    details "Mission aborted by operator.", forwards none of the remaining
    commands, releases the subscription and returns ABORTED.  No run, of
    any plan and with any surroundings, publishes ABORTED with other
    details. *)
Theorem abort_read_between_steps
    (redis : list (option exn)) (env : environment) (plan : mission_plan)
    (done : list cmd_dict) (cmd : cmd_dict) (rest : list cmd_dict)
    (m : option message) :
  reliable redis ->
  flight_plan plan = done ++ cmd :: rest ->
  Forall (fun c => well_formed c = true) done ->
  no_abort (mission_id plan) (length done) (abort_channel env) ->
  abort_channel env !! length done = Some m ->
  abort_signal (mission_id plan) m = true ->
  let id := mission_id plan in
  Unreliable.execute_mission redis env plan
  = (started id ++ nominal id (length (flight_plan plan)) 0 done
     ++ update_mission_status id "ABORTED" "Mission aborted by operator."
     ++ [PubsubUnsubscribe; PubsubClose],
     Returned "ABORTED")
  /\ forwarded (Unreliable.execute_mission redis env plan).1
     = map CommandMessage done
  /\ last (status_writes (Unreliable.execute_mission redis env plan).1)
     = Some (status_key id, "ABORTED", "Mission aborted by operator.")
  /\ last (status_messages (Unreliable.execute_mission redis env plan).1)
     = Some (id, "ABORTED", "Mission aborted by operator.")
  /\ (forall (redis' : list (option exn)) (env' : environment)
        (plan' : mission_plan) (r : string * string * string),
        r ∈ status_messages (Unreliable.execute_mission redis' env' plan').1 ->
        status_of r = "ABORTED" ->
        r = (mission_id plan', "ABORTED", "Mission aborted by operator.")).
Proof.
  intros Hr Hsplit Hwf Hna Hm Hab id.
  rewrite (execute_mission_answers redis env plan Hr).
  assert (execute_mission env plan
          = (started id ++ nominal id (length (flight_plan plan)) 0 done
             ++ abort_events id ++ released, Returned "ABORTED")) as E.
  { unfold execute_mission. fold id. rewrite Hsplit at 2.
    rewrite (run_flight_plan_abort id _ done cmd rest _ m Hwf Hna Hm Hab).
    by rewrite <- !app_assoc. }
  rewrite E. cbn [fst snd]. split; [done|]. split.
  { unfold forwarded. rewrite !published_app.
    change (published "gnc_commands" (started id)) with (@nil payload).
    change (published "gnc_commands" (abort_events id)) with (@nil payload).
    change (published "gnc_commands" released) with (@nil payload).
    rewrite !app_nil_r. apply (nominal_forwarded id _ 0 _ Hwf). }
  rewrite (app_assoc (started id)).
  split; [apply last_status_write|]. split; [apply last_status_message|].
  intros redis' env' plan' r. apply aborted_by_operator.
Qed.

(** C3 as amended, at an abort read before the second step (the first read
    is the confirmation of the subscription). *)
Lemma abort_read_between_steps_witness :
  reliable []
  /\ Forall (fun c => well_formed c = true) [set_throttle]
  /\ no_abort "m1" 1 (abort_after_confirmation "m1")
  /\ abort_after_confirmation "m1" !! 1
     = Some (Some (MkMessage "message" (JStr "m1")))
  /\ abort_signal "m1" (Some (MkMessage "message" (JStr "m1"))) = true
  /\ forwarded
       (Unreliable.execute_mission []
          (MkEnv false (abort_after_confirmation "m1"))
          (MkPlan "m1" [set_throttle; wait_5; stage_quarter_second])).1
     = [CommandMessage set_throttle].
Proof.
  assert (reliable []) as Hr by constructor.
  assert (Forall (fun c => well_formed c = true) [set_throttle]) as Hwf
    by (repeat constructor).
  assert (no_abort "m1" 1 (abort_after_confirmation "m1")) as Hna
    by (repeat constructor).
  split; [exact Hr|]. split; [exact Hwf|]. split; [exact Hna|].
  split; [reflexivity|]. split; [reflexivity|].
  exact (proj1 (proj2 (abort_read_between_steps []
                  (MkEnv false (abort_after_confirmation "m1"))
                  (MkPlan "m1" [set_throttle; wait_5; stage_quarter_second])
                  [set_throttle] wait_5 [stage_quarter_second]
                  (Some (MkMessage "message" (JStr "m1")))
                  Hr eq_refl Hwf Hna eq_refl eq_refl))).
Defined.

(** C4 fails on the code: with the apoapsis climbing from 100000 to 102500
    and then falling to 102400, [execute_command] on WAIT_UNTIL_APOAPSIS
    reads no value of a telemetry stream (not 5) and releases no stream (not
    once); it logs the command as unknown. *)
Lemma wait_until_apoapsis_counterexample :
  FlightControl.apoapsis_altitude climbing_then_falling
  = [100000; 101000; 102000; 102500; 102400]%Z
  /\ FlightControl.execute_command FlightControl.float_unreadable
       climbing_then_falling wait_until_apoapsis
     = [FlightControl.LoggedExecuting (Some "WAIT_UNTIL_APOAPSIS") (JObj []);
        FlightControl.Logged "WARNING" "Unknown command: WAIT_UNTIL_APOAPSIS"]
  /\ FlightControl.polls
       (FlightControl.execute_command FlightControl.float_unreadable
          climbing_then_falling wait_until_apoapsis) = 0
  /\ ~ (FlightControl.polls
          (FlightControl.execute_command FlightControl.float_unreadable
             climbing_then_falling wait_until_apoapsis) = 5
        /\ FlightControl.unsubscribes
             (FlightControl.execute_command FlightControl.float_unreadable
                climbing_then_falling wait_until_apoapsis) = 1).
Proof.
  repeat split; try reflexivity.
  intros [H _]. vm_compute in H. discriminate H.
Qed.

(** C4 as amended: WAIT_UNTIL_APOAPSIS is no command that flight control
    knows.  Whatever its parameters and whatever the state of the link,
    [execute_command] makes no call on the vessel for it, reads no telemetry
    value and releases no stream; once connected it logs "Unknown command:
    WAIT_UNTIL_APOAPSIS".  The worker forwards it as any other command and
    sleeps its delay (when the Redis client answers, no abort is read and
    the delay is one that [time.sleep] takes). *)
Theorem wait_until_apoapsis_is_unknown
    (float_of_str : string -> exn + float) (st : FlightControl.krpc_state)
    (fields : list (string * json)) (redis : list (option exn))
    (env : environment) (id : string) :
  let cmd := MkCmd (Some "WAIT_UNTIL_APOAPSIS") fields in
  let effects := FlightControl.execute_command float_of_str st cmd in
  FlightControl.known_command (tag cmd) = false
  /\ FlightControl.handle_calls effects = []
  /\ FlightControl.polls effects = 0
  /\ FlightControl.unsubscribes effects = 0
  /\ (FlightControl.connected st = true ->
      effects
      = [FlightControl.LoggedExecuting (Some "WAIT_UNTIL_APOAPSIS")
           (match dict_get "parameters" fields with
            | Some v => v
            | None => JObj []
            end);
         FlightControl.Logged "WARNING"
           "Unknown command: WAIT_UNTIL_APOAPSIS"])
  /\ (reliable redis -> no_abort id 1 (abort_channel env) ->
      well_formed cmd = true ->
      (Unreliable.execute_mission redis env (MkPlan id [cmd])).2
      = Returned "COMPLETED"
      /\ forwarded (Unreliable.execute_mission redis env (MkPlan id [cmd])).1
         = [CommandMessage cmd]
      /\ sleeps (Unreliable.execute_mission redis env (MkPlan id [cmd])).1
         = [delay_seconds cmd]).
Proof.
  intros cmd effects.
  assert (FlightControl.known_command (tag cmd) = false) as Hk by reflexivity.
  assert (reliable redis -> no_abort id 1 (abort_channel env) ->
          well_formed cmd = true ->
          (Unreliable.execute_mission redis env (MkPlan id [cmd])).2
          = Returned "COMPLETED"
          /\ forwarded
               (Unreliable.execute_mission redis env (MkPlan id [cmd])).1
             = [CommandMessage cmd]
          /\ sleeps (Unreliable.execute_mission redis env (MkPlan id [cmd])).1
             = [delay_seconds cmd]) as Hworker.
  { intros Hr Hna Hwf.
    rewrite (execute_mission_answers redis env (MkPlan id [cmd]) Hr).
    assert (Forall (fun c => well_formed c = true) [cmd]) as Hall
      by (by constructor).
    destruct (execute_mission_nominal_forwarded env (MkPlan id [cmd]) Hna Hall)
      as [Hout Hfw].
    split; [done|]. split; [done|].
    rewrite (execute_mission_nominal env (MkPlan id [cmd]) Hna Hall).
    cbn [fst mission_id flight_plan]. rewrite !sleeps_app.
    by rewrite (nominal_sleeps id _ 0 [cmd] Hall). }
  split; [done|].
  destruct (FlightControl.connected st) eqn:Hc.
  - assert (effects
            = [FlightControl.LoggedExecuting (Some "WAIT_UNTIL_APOAPSIS")
                 (match dict_get "parameters" fields with
                  | Some v => v
                  | None => JObj []
                  end);
               FlightControl.Logged "WARNING"
                 "Unknown command: WAIT_UNTIL_APOAPSIS"]) as ->.
    { subst effects.
      by rewrite (execute_command_unknown float_of_str st cmd Hc Hk). }
    do 3 (split; [reflexivity|]). split; [done|]. exact Hworker.
  - assert (effects
            = [FlightControl.Logged "ERROR"
                 "Cannot execute command: kRPC is not connected."]) as ->.
    { subst effects. unfold FlightControl.execute_command. by rewrite Hc. }
    do 3 (split; [reflexivity|]). split; [done|]. exact Hworker.
Qed.

(** C4 as amended, at the sample command. *)
Lemma wait_until_apoapsis_is_unknown_witness :
  FlightControl.connected climbing_then_falling = true
  /\ no_abort "test-apoapsis-123" 1 (abort_channel quiet)
  /\ well_formed wait_until_apoapsis = true
  /\ FlightControl.polls
       (FlightControl.execute_command FlightControl.float_unreadable
          climbing_then_falling wait_until_apoapsis) = 0
  /\ forwarded
       (Unreliable.execute_mission [] quiet
          (MkPlan "test-apoapsis-123" [wait_until_apoapsis])).1
     = [CommandMessage wait_until_apoapsis].
Proof.
  assert (no_abort "test-apoapsis-123" 1 (abort_channel quiet)) as Hna
    by constructor.
  pose proof (wait_until_apoapsis_is_unknown FlightControl.float_unreadable
                climbing_then_falling [] [] quiet "test-apoapsis-123")
    as (_ & _ & Hpolls & _ & _ & Hworker).
  split; [reflexivity|]. split; [exact Hna|]. split; [reflexivity|].
  split; [exact Hpolls|].
  exact (proj1 (proj2 (Hworker (List.Forall_nil _) Hna eq_refl))).
Defined.

(** C5 fails on the code: the record published before the only step of this
    plan has status IN_PROGRESS and a text for details; no record of the run
    has status EXECUTING_COMMAND. *)
Lemma executing_command_status_counterexample :
  status_messages
    (execute_mission quiet (MkPlan "test-status-123" [wait_5])).1
  = [("test-status-123", "IN_PROGRESS", "Starting mission execution.");
     ("test-status-123", "IN_PROGRESS", "Executing command 1/1: WAIT");
     ("test-status-123", "COMPLETED",
      "All mission commands executed successfully.")]
  /\ ~ (exists details,
          ("test-status-123", "EXECUTING_COMMAND", details)
          ∈ status_messages
              (execute_mission quiet (MkPlan "test-status-123" [wait_5])).1).
Proof.
  split; [reflexivity|].
  intros (details & H). vm_compute in H.
  repeat (apply elem_of_cons in H as [H|H]; [discriminate H|]).
  by apply elem_of_nil in H.
Qed.

(** C5 as amended: for the command at index [i] of the plan, reached without
    incident (the Redis client answers, the steps before have their tag and
    a delay that [time.sleep] takes) and not aborted, the task writes and
    publishes, right before forwarding the command, a record with status
    IN_PROGRESS whose details are the text "Executing command [i+1]/[N]:
    [tag]". *)
Theorem step_announced_in_progress
    (redis : list (option exn)) (env : environment) (plan : mission_plan)
    (done : list cmd_dict) (cmd : cmd_dict) (rest : list cmd_dict)
    (command : string) :
  reliable redis ->
  flight_plan plan = done ++ cmd :: rest ->
  Forall (fun c => well_formed c = true) done ->
  no_abort (mission_id plan) (S (length done)) (abort_channel env) ->
  tag cmd = Some command ->
  let id := mission_id plan in
  let total := length (flight_plan plan) in
  exists later,
    (Unreliable.execute_mission redis env plan).1
    = started id ++ nominal id total 0 done
      ++ update_mission_status id "IN_PROGRESS"
           ("Executing command " +:+ str_nat (length done + 1) +:+ "/"
            +:+ str_nat total +:+ ": " +:+ command)
      ++ RedisPublish "gnc_commands" (CommandMessage cmd) :: later.
Proof.
  intros Hr Hsplit Hwf Hna Ht id total.
  rewrite (execute_mission_answers redis env plan Hr).
  apply no_abort_last in Hna as [Hna Hm].
  unfold execute_mission. fold id total. rewrite Hsplit.
  rewrite (run_flight_plan_prefix id total done (cmd :: rest) 0 _ Hwf Hna).
  destruct (run_flight_plan id total (0 + length done) (cmd :: rest)
              (drop (length done) (abort_channel env))) as [tr ex] eqn:HX.
  cbn [run_flight_plan] in HX.
  destruct (get_message (drop (length done) (abort_channel env)))
    as [m pending'].
  cbn [fst] in Hm. change (abort_signal id m = false) in Hm.
  rewrite Hm, Ht in HX.
  assert (exists tr',
            tr = update_mission_status id "IN_PROGRESS"
                   ("Executing command " +:+ str_nat (length done + 1) +:+ "/"
                    +:+ str_nat total +:+ ": " +:+ command)
                 ++ RedisPublish "gnc_commands" (CommandMessage cmd) :: tr')
    as [tr' ->].
  { destruct (delay_of cmd) as [e|delay].
    - injection HX as <- _. by exists [].
    - destruct (sleep delay) as [e|slept].
      + injection HX as <- _. by exists [].
      + destruct (run_flight_plan id total (S (0 + length done)) rest pending')
          as [later ex'].
        injection HX as <- _. by exists (slept ++ later). }
  cbn [fst snd].
  destruct ex; cbn [fst]; eexists; rewrite <- !app_assoc; reflexivity.
Qed.

(** C5 as amended, at the second step of a plan. *)
Lemma step_announced_in_progress_witness :
  reliable []
  /\ Forall (fun c => well_formed c = true) [set_throttle]
  /\ no_abort "m1" 2 (abort_channel quiet)
  /\ exists later,
       (Unreliable.execute_mission [] quiet
          (MkPlan "m1" [set_throttle; wait_5])).1
       = started "m1" ++ nominal "m1" 2 0 [set_throttle]
         ++ update_mission_status "m1" "IN_PROGRESS"
              "Executing command 2/2: WAIT"
         ++ RedisPublish "gnc_commands" (CommandMessage wait_5) :: later.
Proof.
  assert (Forall (fun c => well_formed c = true) [set_throttle]) as Hwf
    by (repeat constructor).
  assert (no_abort "m1" 2 (abort_channel quiet)) as Hna by constructor.
  split; [constructor|]. split; [exact Hwf|]. split; [exact Hna|].
  exact (step_announced_in_progress [] quiet
           (MkPlan "m1" [set_throttle; wait_5]) [set_throttle] wait_5 []
           "WAIT" (List.Forall_nil _) eq_refl Hwf Hna eq_refl).
Defined.

Section Pairing.

Lemma paired_execute_mission (env : environment) (plan : mission_plan) :
  paired (execute_mission env plan).1.
Proof.
  destruct (execute_mission_shape env plan)
    as (done & rest & _ & _ & [[_ E]|[[_ E]|(c & r & e & _ & _ & E)]]);
    rewrite E; cbn [fst]; unfold started; rewrite <- app_assoc;
    apply paired_update; cbn [app paired]; apply paired_nominal.
  - by apply paired_update.
  - by apply paired_update.
  - apply paired_announced. unfold failed_events. rewrite <- app_assoc.
    cbn [app paired]. by apply paired_update.
Qed.

Lemma channels_execute_mission (env : environment) (plan : mission_plan) :
  Forall (fun c => c = "mission_status" \/ c = "gnc_commands")
    (channels (execute_mission env plan).1).
Proof.
  destruct (execute_mission_shape env plan)
    as (done & rest & _ & _ & [[_ E]|[[_ E]|(c & r & e & _ & _ & E)]]);
    rewrite E; cbn [fst]; rewrite !channels_app;
    repeat apply Forall_app_2;
    try apply nominal_channels; try apply channels_announced;
    by repeat constructor; auto.
Qed.

End Pairing.

(** C6 fails on the code: a status update publishes on the one channel
    ["mission_status"]; nothing is published on a channel of the mission,
    neither by the update nor anywhere in a run.  And the write and the
    publication are two calls of the Redis client: when the second one
    raises, the snapshot is written and not published. *)
Lemma per_mission_channel_counterexample :
  channels
    (update_mission_status "test-status-123" "IN_PROGRESS"
       "Starting mission execution.")
  = ["mission_status"]
  /\ published "mission_status:test-status-123"
       (update_mission_status "test-status-123" "IN_PROGRESS"
          "Starting mission execution.")
     = []
  /\ channels (execute_mission quiet (MkPlan "test-status-123" [wait_5])).1
     = ["mission_status"; "mission_status"; "gnc_commands"; "mission_status"]
  /\ published "mission_status:test-status-123"
       (execute_mission quiet (MkPlan "test-status-123" [wait_5])).1
     = []
  /\ Unreliable.update_mission_status "test-status-123" "IN_PROGRESS"
       "Starting mission execution."
       (Unreliable.MkWorld [None; Some (ConnectionError "Connection lost")] [])
     = ([RedisSet "mission:test-status-123:status"
           (StatusSnapshot "IN_PROGRESS" "Starting mission execution.")],
        Unreliable.MkWorld [] [],
        inl (ConnectionError "Connection lost")).
Proof. repeat split; reflexivity. Qed.

(** C6 as amended: a status update overwrites the snapshot under the key of
    the mission with {status, details} and then publishes {mission_id,
    status, details} on the global channel ["mission_status"], the only
    channel for statuses; the two are successive calls of the Redis client,
    not one atomic step.  Whatever the client does, an update leaves both
    (and returns), or the snapshot alone, or nothing (and raises): never the
    publication without the write.  Throughout a run of the task no status
    is published but right after the write of its snapshot, and nothing is
    published on any channel but ["mission_status"] and ["gnc_commands"];
    when every call of the client answers, each snapshot written is followed
    at once by its publication. *)
Theorem status_written_and_published_together
    (redis : list (option exn)) (env : environment) (plan : mission_plan)
    (id status details : string) (pending : list (option message))
    (store : gmap string payload) :
  let w := Unreliable.MkWorld redis pending in
  ((exists w',
      Unreliable.update_mission_status id status details w
      = (update_mission_status id status details, w', inr tt))
   \/ (exists cut e w',
         Unreliable.update_mission_status id status details w
         = (cut, w', inl e)
         /\ (cut = []
             \/ cut = [RedisSet (status_key id)
                         (StatusSnapshot status details)])))
  /\ (reliable redis ->
      exists w',
        Unreliable.update_mission_status id status details w
        = (update_mission_status id status details, w', inr tt))
  /\ redis_after (update_mission_status id status details) store
       !! status_key id
     = Some (StatusSnapshot status details)
  /\ status_writes (update_mission_status id status details)
     = [(status_key id, status, details)]
  /\ published "mission_status" (update_mission_status id status details)
     = [StatusMessage id status details]
  /\ channels (update_mission_status id status details) = ["mission_status"]
  /\ written_first (Unreliable.execute_mission redis env plan).1
  /\ Forall (fun c => c = "mission_status" \/ c = "gnc_commands")
       (channels (Unreliable.execute_mission redis env plan).1)
  /\ (reliable redis -> paired (Unreliable.execute_mission redis env plan).1).
Proof.
  intros w. split.
  { destruct (update_mission_status_cases id status details w)
      as [(cut & x & w' & E & Hcut)|(w' & E)].
    - right. by exists cut, x, w'.
    - left. by exists w'. }
  split.
  { intros Hr.
    destruct (update_mission_status_answers id status details w Hr)
      as (w' & E & _). by exists w'. }
  split; [apply lookup_insert_eq|].
  do 3 (split; [reflexivity|]).
  split; [apply written_first_execute_mission|].
  split; [apply channels_execute_mission_redis|].
  intros Hr. rewrite (execute_mission_answers redis env plan Hr).
  apply paired_execute_mission.
Qed.

Section Terminal.

Lemma announced_status_writes (id : string) (total i : nat) (cmd : cmd_dict) :
  Forall running (status_writes (announced id total i cmd)).
Proof.
  unfold announced. destruct (tag cmd); [|constructor].
  rewrite status_writes_app.
  change (Forall running [(status_key id, "IN_PROGRESS",
            "Executing command " +:+ str_nat (i + 1) +:+ "/"
            +:+ str_nat total +:+ ": " +:+ s)]).
  constructor; [|constructor]. unfold running, status_of. reflexivity.
Qed.

Lemma announced_status_messages (id : string) (total i : nat)
    (cmd : cmd_dict) :
  Forall running (status_messages (announced id total i cmd)).
Proof.
  unfold announced. destruct (tag cmd); [|constructor].
  rewrite status_messages_app.
  change (Forall running [(id, "IN_PROGRESS",
            "Executing command " +:+ str_nat (i + 1) +:+ "/"
            +:+ str_nat total +:+ ": " +:+ s)]).
  constructor; [|constructor]. unfold running, status_of. reflexivity.
Qed.

(** The snapshots written in a run: records of a running mission, then one
    last record. *)
Lemma status_writes_execute_mission (env : environment) (plan : mission_plan) :
  exists init r,
    status_writes (execute_mission env plan).1 = init ++ [r]
    /\ Forall running init.
Proof.
  destruct (execute_mission_shape env plan)
    as (done & rest & _ & _ & [[_ E]|[[_ E]|(c & r & e & _ & _ & E)]]);
    rewrite E; cbn [fst];
    rewrite !status_writes_app, status_writes_started, status_writes_released,
      app_nil_r.
  - unfold completed_events. rewrite status_writes_update, app_assoc.
    eexists _, _. split; [reflexivity|].
    apply Forall_app_2; [|apply nominal_status_writes].
    constructor; [apply running_in_progress|constructor].
  - unfold abort_events. rewrite status_writes_update, app_assoc.
    eexists _, _. split; [reflexivity|].
    apply Forall_app_2; [|apply nominal_status_writes].
    constructor; [apply running_in_progress|constructor].
  - rewrite status_writes_failed, !app_assoc.
    eexists _, _. split; [reflexivity|].
    repeat apply Forall_app_2;
      [|apply nominal_status_writes|apply announced_status_writes].
    constructor; [apply running_in_progress|constructor].
Qed.

Lemma status_messages_execute_mission (env : environment)
    (plan : mission_plan) :
  exists init r,
    status_messages (execute_mission env plan).1 = init ++ [r]
    /\ Forall running init.
Proof.
  destruct (execute_mission_shape env plan)
    as (done & rest & _ & _ & [[_ E]|[[_ E]|(c & r & e & _ & _ & E)]]);
    rewrite E; cbn [fst];
    rewrite !status_messages_app, status_messages_started,
      status_messages_released, app_nil_r.
  - unfold completed_events. rewrite status_messages_update, app_assoc.
    eexists _, _. split; [reflexivity|].
    apply Forall_app_2; [|apply nominal_status_messages].
    constructor; [apply running_in_progress|constructor].
  - unfold abort_events. rewrite status_messages_update, app_assoc.
    eexists _, _. split; [reflexivity|].
    apply Forall_app_2; [|apply nominal_status_messages].
    constructor; [apply running_in_progress|constructor].
  - rewrite status_messages_failed, !app_assoc.
    eexists _, _. split; [reflexivity|].
    repeat apply Forall_app_2;
      [|apply nominal_status_messages|apply announced_status_messages].
    constructor; [apply running_in_progress|constructor].
Qed.

End Terminal.

Lemma written_first_split (before after : list event)
    (channel id status details : string) :
  written_first
    (before ++ RedisPublish channel (StatusMessage id status details) :: after) ->
  channel = "mission_status"
  /\ exists before',
       before
       = before' ++ [RedisSet (status_key id) (StatusSnapshot status details)].
Proof.
  induction before as [before IH] using (induction_ltof1 _ (@length event)).
  unfold ltof in IH. intros H.
  destruct before as [|e before]; [done|].
  assert (written_first
            (before ++ RedisPublish channel (StatusMessage id status details)
                       :: after) ->
          channel = "mission_status"
          /\ exists before',
               e :: before
               = before' ++ [RedisSet (status_key id)
                               (StatusSnapshot status details)]) as Hnext.
  { intros H'. destruct (IH before) as (Hc & before' & ->); [cbn; lia|done|].
    split; [exact Hc|]. by exists (e :: before'). }
  destruct e as [key [s d| |]|c [|i' s' d'|]| | | | | |];
    cbn [app written_first] in H; try done; try (by apply Hnext).
  destruct before as [|e' before].
  { cbn [app] in H. destruct H as (-> & -> & -> & -> & _).
    split; [done|]. by exists []. }
  destruct e' as [|c [|i' s' d'|]| | | | | |]; cbn [app] in H;
    try (by apply Hnext).
  destruct H as (_ & _ & _ & _ & H).
  destruct (IH before) as (Hc & before' & ->); [cbn; lia|done|].
  split; [exact Hc|]. by eexists (_ :: _ :: before').
Qed.

(** C7 fails on the code.  The publication of COMPLETED raises (the fifth
    call of the Redis client, with an empty plan): the snapshot COMPLETED is
    written already, the [except] clause then writes and publishes FAILED,
    and FAILED is what the status key holds at the end. *)
Lemma terminal_overwritten_counterexample :
  terminal "COMPLETED" = true
  /\ status_writes
       (Unreliable.execute_mission fifth_call_lost quiet (MkPlan "m1" [])).1
     = [("mission:m1:status", "IN_PROGRESS", "Starting mission execution.");
        ("mission:m1:status", "COMPLETED",
         "All mission commands executed successfully.");
        ("mission:m1:status", "FAILED", "An error occurred: Connection lost")]
  /\ status_messages
       (Unreliable.execute_mission fifth_call_lost quiet (MkPlan "m1" [])).1
     = [("m1", "IN_PROGRESS", "Starting mission execution.");
        ("m1", "FAILED", "An error occurred: Connection lost")]
  /\ redis_after
       (Unreliable.execute_mission fifth_call_lost quiet (MkPlan "m1" [])).1 ∅
       !! "mission:m1:status"
     = Some (StatusSnapshot "FAILED" "An error occurred: Connection lost")
  /\ (Unreliable.execute_mission fifth_call_lost quiet (MkPlan "m1" [])).2
     = Raised (ConnectionError "Connection lost").
Proof.
  split; [reflexivity|]. split; [reflexivity|].
  split; [reflexivity|]. split; [|reflexivity].
  vm_compute. reflexivity.
Qed.

(** C7 as amended: once a run of the task has written and published a
    terminal status (COMPLETED, FAILED or ABORTED), the rest of the run
    writes no status snapshot and publishes no status message, whatever the
    Redis client does; the publication comes right after the write of the
    same snapshot, on ["mission_status"].  When every call of the client
    answers, nothing is written either after the write of a terminal
    snapshot.  (A terminal snapshot whose publication raises is overwritten
    with FAILED by the [except] clause: see the counterexample.) *)
Theorem no_status_after_terminal
    (redis : list (option exn)) (env : environment) (plan : mission_plan)
    (before after : list event) (channel id status details : string) :
  (Unreliable.execute_mission redis env plan).1
  = before ++ RedisPublish channel (StatusMessage id status details) :: after ->
  terminal status = true ->
  status_writes after = [] /\ status_messages after = []
  /\ channel = "mission_status"
  /\ (exists before',
        before
        = before' ++ [RedisSet (status_key id) (StatusSnapshot status details)])
  /\ (reliable redis ->
      forall (earlier later : list event) (key status' details' : string),
        (Unreliable.execute_mission redis env plan).1
        = earlier ++ RedisSet key (StatusSnapshot status' details') :: later ->
        terminal status' = true ->
        status_writes later = []).
Proof.
  intros Htrace Hterm.
  pose proof (settled_execute_mission redis env plan) as Hs.
  pose proof (written_first_execute_mission redis env plan) as Hw.
  rewrite Htrace in Hs, Hw.
  destruct (settled_split _ _ _ _ _ _ Hs Hterm) as [H1 H2].
  destruct (written_first_split _ _ _ _ _ _ Hw) as [Hc Hb].
  split; [exact H1|]. split; [exact H2|]. split; [exact Hc|].
  split; [exact Hb|].
  intros Hr earlier later key status' details' E Hterm'.
  rewrite (execute_mission_answers redis env plan Hr) in E.
  destruct (status_writes_execute_mission env plan) as (init & r & E' & Hinit).
  rewrite E, status_writes_app in E'. cbn [status_writes] in E'.
  symmetry in E'.
  apply (nothing_after_last running init r _ _ _ E' Hinit).
  unfold running, status_of. cbn. by rewrite Hterm'.
Qed.

(** C7 as amended, at the FAILED record of the run of the counterexample. *)
Lemma no_status_after_terminal_witness :
  (Unreliable.execute_mission fifth_call_lost quiet (MkPlan "m1" [])).1
  = (started "m1"
     ++ snapshot_only "m1" "COMPLETED"
          "All mission commands executed successfully."
     ++ [LogError "Error executing mission m1: Connection lost"]
     ++ snapshot_only "m1" "FAILED" "An error occurred: Connection lost")
    ++ RedisPublish "mission_status"
         (StatusMessage "m1" "FAILED" "An error occurred: Connection lost")
       :: LogInfo "Mission m1 status updated to FAILED: An error occurred: Connection lost"
          :: released
  /\ terminal "FAILED" = true
  /\ status_writes
       (LogInfo "Mission m1 status updated to FAILED: An error occurred: Connection lost"
        :: released) = [].
Proof.
  split; [reflexivity|]. split; [reflexivity|].
  exact (proj1 (no_status_after_terminal fifth_call_lost quiet
                  (MkPlan "m1" [])
                  (started "m1"
                   ++ snapshot_only "m1" "COMPLETED"
                        "All mission commands executed successfully."
                   ++ [LogError "Error executing mission m1: Connection lost"]
                   ++ snapshot_only "m1" "FAILED"
                        "An error occurred: Connection lost")
                  (LogInfo "Mission m1 status updated to FAILED: An error occurred: Connection lost"
                   :: released)
                  "mission_status" "m1" "FAILED"
                  "An error occurred: Connection lost" eq_refl eq_refl)).
Defined.

Section Failure.

(** The run when step [length done] raises. *)
Lemma run_flight_plan_failure (id : string) (total : nat)
    (done : list cmd_dict) (cmd : cmd_dict) (rest : list cmd_dict)
    (pending : list (option message)) (e : exn) :
  Forall (fun c => well_formed c = true) done ->
  no_abort id (S (length done)) pending ->
  failure_of cmd = Some e ->
  run_flight_plan id total 0 (done ++ cmd :: rest) pending
  = (nominal id total 0 done ++ announced id total (length done) cmd, Raise e).
Proof.
  intros Hwf Hna Hf. apply no_abort_last in Hna as [Hna Hm].
  rewrite (run_flight_plan_prefix id total done (cmd :: rest) 0 pending Hwf Hna).
  cbn [run_flight_plan Nat.add].
  destruct (get_message (drop (length done) pending)) as [m pending'].
  cbn [fst] in Hm. rewrite Hm.
  unfold failure_of in Hf. unfold announced.
  destruct (tag cmd) as [command|].
  2:{ injection Hf as <-. reflexivity. }
  destruct (delay_of cmd) as [e'|delay].
  { injection Hf as <-. reflexivity. }
  destruct (sleep delay) as [e'|slept]; [|discriminate Hf].
  injection Hf as <-. reflexivity.
Qed.

End Failure.

(** * Flight control and its errors *)

Section CommandFacts.

Variable float_of_str : string -> exn + float.

Lemma polls_app (a b : list FlightControl.effect) :
  FlightControl.polls (a ++ b)
  = FlightControl.polls a + FlightControl.polls b.
Proof.
  induction a as [|e a IH]; [reflexivity|].
  destruct e as [| |[]]; cbn [app FlightControl.polls]; by rewrite ?IH.
Qed.

Lemma unsubscribes_app (a b : list FlightControl.effect) :
  FlightControl.unsubscribes (a ++ b)
  = FlightControl.unsubscribes a + FlightControl.unsubscribes b.
Proof.
  induction a as [|e a IH]; [reflexivity|].
  destruct e as [| |[]]; cbn [app FlightControl.unsubscribes]; by rewrite ?IH.
Qed.

Lemma handle_calls_app (a b : list FlightControl.effect) :
  FlightControl.handle_calls (a ++ b)
  = FlightControl.handle_calls a ++ FlightControl.handle_calls b.
Proof. apply omap_app. Qed.

(** The effects of the [try] block: control calls, at most two, or the
    warning about an unknown command; none when calls fail. *)
Lemma dispatch_effects (st : FlightControl.krpc_state)
    (command : option string) (params : json) :
  Forall (fun c => control_call c = true)
    (FlightControl.handle_calls
       (FlightControl.dispatch float_of_str st command params).1)
  /\ length (FlightControl.handle_calls
               (FlightControl.dispatch float_of_str st command params).1) <= 2
  /\ (FlightControl.handle_calls
        (FlightControl.dispatch float_of_str st command params).1 <> [] ->
      FlightControl.rpc_failure st = None
      /\ FlightControl.known_command command = true).
Proof.
  unfold FlightControl.dispatch, FlightControl.rpc,
    FlightControl.known_command.
  destruct (FlightControl.rpc_failure st) as [msg|];
    repeat case_match; simplify_eq;
    cbn [fst snd FlightControl.handle_calls omap app length control_call
         option_bind mbind];
    (split; [repeat constructor|]); (split; [cbn; lia|]);
    intros Hne; try done; (split; [done|]);
    repeat match goal with H : _ = true |- _ => rewrite H end;
    by rewrite ?orb_true_r.
Qed.

End CommandFacts.

Section CommandTheorems.

Variable float_of_str : string -> exn + float.

Lemma execute_command_calls (st : FlightControl.krpc_state) (cmd : cmd_dict) :
  FlightControl.connected st = true ->
  FlightControl.handle_calls
    (FlightControl.execute_command float_of_str st cmd)
  = FlightControl.handle_calls
      (FlightControl.dispatch float_of_str st (tag cmd)
         (match dict_get "parameters" (items cmd) with
          | Some v => v
          | None => JObj []
          end)).1.
Proof.
  intros Hc. unfold FlightControl.execute_command. rewrite Hc. cbn [negb].
  destruct (FlightControl.dispatch _ _ _ _) as [done raised].
  cbn [fst].
  match goal with
  | |- FlightControl.handle_calls (?first :: done ++ ?last) = _ =>
      change (FlightControl.handle_calls ([first] ++ done ++ last)
              = FlightControl.handle_calls done)
  end.
  rewrite !handle_calls_app.
  destruct raised as [e|]; [|apply app_nil_r].
  unfold FlightControl.report. destruct e; apply app_nil_r.
Qed.

Lemma handle_calls_polls (effects : list FlightControl.effect) :
  Forall (fun c => control_call c = true)
    (FlightControl.handle_calls effects) ->
  FlightControl.polls effects = 0 /\ FlightControl.unsubscribes effects = 0.
Proof.
  induction effects as [|e effects IH]; [done|].
  destruct e as [| |c]; cbn [FlightControl.handle_calls omap]; [done|done|].
  intros [Hc H]%Forall_cons_1. destruct (IH H) as [IH1 IH2].
  by destruct c.
Qed.

End CommandTheorems.

Section SubscriberFacts.

Variable float_of_str : string -> exn + float.

Lemma calls_app (a b : list Subscriber.record) :
  Subscriber.calls (a ++ b) = Subscriber.calls a ++ Subscriber.calls b.
Proof.
  unfold Subscriber.calls. by rewrite omap_app, handle_calls_app.
Qed.

Lemma calls_did (effects : list FlightControl.effect) :
  Subscriber.calls (map Subscriber.Did effects)
  = FlightControl.handle_calls effects.
Proof.
  unfold Subscriber.calls.
  assert (omap (fun r => match r with
                         | Subscriber.Did e => Some e
                         | _ => None
                         end) (map Subscriber.Did effects) = effects) as ->;
    [|reflexivity].
  induction effects as [|e effects IH]; [reflexivity|].
  cbn. by rewrite IH.
Qed.

Lemma calls_turn_idle (st : FlightControl.krpc_state) (p : Subscriber.poll) :
  Subscriber.idle p = true ->
  Subscriber.calls (Subscriber.turn float_of_str st p) = []
  /\ p <> Subscriber.Cancelled.
Proof.
  destruct p as [|type data|text|]; cbn [Subscriber.idle Subscriber.turn];
    intros H; try done.
  destruct (String.eqb type "message"); cbn [negb orb] in H; [|done].
  destruct data as [text|cmd|type']; try done.
  by destruct (negb (FlightControl.connected st)).
Qed.

Lemma calls_turn_dict (st : FlightControl.krpc_state) (cmd : cmd_dict) :
  Subscriber.calls
    (Subscriber.turn float_of_str st
       (Subscriber.Message "message" (Subscriber.Dict cmd)))
  = FlightControl.handle_calls
      (FlightControl.execute_command float_of_str st cmd).
Proof.
  cbn [Subscriber.turn].
  change (String.eqb "message" "message") with true. cbv iota.
  change (Subscriber.calls
            ([Subscriber.Received (Subscriber.Dict cmd)]
             ++ map Subscriber.Did
                  (FlightControl.execute_command float_of_str st cmd))
          = FlightControl.handle_calls
              (FlightControl.execute_command float_of_str st cmd)).
  by rewrite calls_app, calls_did.
Qed.

(** Dropping a turn that runs no command changes no call. *)
Lemma calls_turns_idle
    (before after : list (FlightControl.krpc_state * Subscriber.poll))
    (st : FlightControl.krpc_state) (p : Subscriber.poll) :
  Subscriber.idle p = true ->
  Subscriber.calls (Subscriber.turns float_of_str (before ++ (st, p) :: after))
  = Subscriber.calls (Subscriber.turns float_of_str (before ++ after)).
Proof.
  intros Hidle. destruct (calls_turn_idle st p Hidle) as [Hcalls Hp].
  induction before as [|[st' p'] before IH].
  - cbn [app Subscriber.turns]. rewrite calls_app, Hcalls.
    by destruct p.
  - cbn [app Subscriber.turns]. rewrite !calls_app.
    destruct p'; by rewrite ?IH.
Qed.

(** The commands delivered one after the other are all run, in order. *)
Lemma calls_turns_commands (st : FlightControl.krpc_state)
    (cmds : list cmd_dict) :
  Subscriber.calls
    (Subscriber.turns float_of_str
       (map (fun c => (st, Subscriber.as_poll (CommandMessage c))) cmds))
  = flat_map
      (fun c => FlightControl.handle_calls
                  (FlightControl.execute_command float_of_str st c))
      cmds.
Proof.
  induction cmds as [|cmd cmds IH]; [reflexivity|].
  cbn [map Subscriber.turns flat_map].
  change (Subscriber.as_poll (CommandMessage cmd))
    with (Subscriber.Message "message" (Subscriber.Dict cmd)).
  cbv iota. by rewrite calls_app, calls_turn_dict, IH.
Qed.

End SubscriberFacts.

Section HandleErrors.

Variable float_of_str : string -> exn + float.







End HandleErrors.

Section ExceptClause.


End ExceptClause.



(** On the flight-control side an error of the vessel handle stays there:
    [execute_command] logs it, and no effect of it is a Redis call. *)
Remark handle_error_is_logged (msg : string) :
  FlightControl.execute_command FlightControl.float_unreadable
    (FlightControl.MkKrpc true (Some msg) [])
    (MkCmd (Some "ACTIVATE_NEXT_STAGE") [])
  = [FlightControl.LoggedExecuting (Some "ACTIVATE_NEXT_STAGE") (JObj []);
     FlightControl.Logged "ERROR"
       ("kRPC Error executing command 'ACTIVATE_NEXT_STAGE': " +:+ msg)].
Proof. reflexivity. Qed.




Section ConsumerFacts.

Variable retry_delay : float.

Lemma process_missions_cons (t : Consumer.turn) (rest : list Consumer.turn) :
  Consumer.stop_requested t = false ->
  Consumer.process_missions retry_delay (t :: rest)
  = (Consumer.BlockingPop
     :: match Consumer.popped t with
        | Consumer.Payload plan => [Consumer.RunMission plan]
        | Consumer.Timeout => []
        | Consumer.Unreachable e =>
            [Consumer.LogFailure e; Consumer.BackOff retry_delay]
        end
     ++ (Consumer.process_missions retry_delay rest).1,
     (Consumer.process_missions retry_delay rest).2).
Proof.
  intros Hstop. cbn [Consumer.process_missions]. rewrite Hstop.
  destruct (Consumer.process_missions retry_delay rest) as [events returned].
  by destruct (Consumer.popped t).
Qed.

Lemma process_missions_app (before after : list Consumer.turn) :
  Consumer.never_stopped before ->
  Consumer.process_missions retry_delay (before ++ after)
  = ((Consumer.process_missions retry_delay before).1
     ++ (Consumer.process_missions retry_delay after).1,
     (Consumer.process_missions retry_delay after).2).
Proof.
  induction 1 as [|t before Hstop _ IH].
  - cbn. by destruct (Consumer.process_missions retry_delay after).
  - rewrite <- app_comm_cons, !process_missions_cons, IH by done. cbn [fst snd].
    by rewrite app_comm_cons, app_assoc.
Qed.

Lemma missions_run_app (l k : list Consumer.event) :
  Consumer.missions_run (l ++ k)
  = Consumer.missions_run l ++ Consumer.missions_run k.
Proof.
  induction l as [|[] l IH]; cbn; by rewrite ?IH.
Qed.

Lemma pops_app (l k : list Consumer.event) :
  Consumer.pops (l ++ k) = Consumer.pops l + Consumer.pops k.
Proof.
  induction l as [|[] l IH]; cbn; by rewrite ?IH.
Qed.

Lemma plans_popped_app (l k : list Consumer.turn) :
  Consumer.plans_popped (l ++ k)
  = Consumer.plans_popped l ++ Consumer.plans_popped k.
Proof.
  induction l as [|[stop []] l IH]; cbn; by rewrite ?IH.
Qed.

Lemma never_stopped_runs (turns : list Consumer.turn) :
  Consumer.never_stopped turns ->
  (Consumer.process_missions retry_delay turns).2 = false
  /\ Consumer.pops (Consumer.process_missions retry_delay turns).1
     = length turns
  /\ Consumer.missions_run (Consumer.process_missions retry_delay turns).1
     = Consumer.plans_popped turns.
Proof.
  induction 1 as [|t turns Hstop _ (IH1 & IH2 & IH3)]; [done|].
  rewrite process_missions_cons by done. cbn [fst snd length].
  cbn [Consumer.plans_popped].
  destruct (Consumer.popped t); cbn; by rewrite ?IH2, ?IH3.
Qed.

Lemma back_offs_retry_delay (turns : list Consumer.turn) :
  Forall (fun seconds => seconds = retry_delay)
    (Consumer.back_offs (Consumer.process_missions retry_delay turns).1).
Proof.
  induction turns as [|t turns IH]; [constructor|].
  destruct (Consumer.stop_requested t) eqn:Hstop.
  - cbn [Consumer.process_missions]. rewrite Hstop. constructor.
  - rewrite process_missions_cons by done. cbn [fst].
    destruct (Consumer.popped t); cbn; repeat constructor; exact IH.
Qed.

Lemma returned_stopped (turns : list Consumer.turn) :
  (Consumer.process_missions retry_delay turns).2 = true ->
  Exists (fun t => Consumer.stop_requested t = true) turns.
Proof.
  induction turns as [|t turns IH]; [done|].
  destruct (Consumer.stop_requested t) eqn:Hstop.
  - intros _. by apply Exists_cons_hd.
  - rewrite process_missions_cons by done. cbn [snd]. intros H.
    apply Exists_cons_tl. by apply IH.
Qed.

End ConsumerFacts.

(** C9: a pop that fails on the connection to the broker does not end the
    loop of the consumer.  In any sequence of turns, at a turn where no stop
    has been requested so far and the pop raises, what the loop does is
    what it did before, then the pop, the log of the failure and one sleep
    of the retry interval, then what it does on the turns that follow, the
    next pop first; whether the loop returns is decided by those turns
    alone.  Every sleep between pops is of the retry interval, no longer.
    The loop returns only where the stop flag is read set.  When no
    stop is requested in the turns that follow either, the loop has not
    returned, it has popped at every turn, and the missions handed to the
    runner are the plans popped before and after the failure, in the order
    of the pops, each as many times as it was popped and no other. *)
Theorem pop_failure_does_not_end_the_loop
    (retry_delay : float) (before after : list Consumer.turn) (e : exn) :
  Consumer.never_stopped before ->
  Consumer.process_missions retry_delay
    (before ++ Consumer.MkTurn false (Consumer.Unreachable e) :: after)
  = ((Consumer.process_missions retry_delay before).1
     ++ [Consumer.BlockingPop; Consumer.LogFailure e;
         Consumer.BackOff retry_delay]
     ++ (Consumer.process_missions retry_delay after).1,
     (Consumer.process_missions retry_delay after).2)
  /\ (forall t rest,
        after = t :: rest ->
        Consumer.stop_requested t = false ->
        exists events,
          (Consumer.process_missions retry_delay after).1
          = Consumer.BlockingPop :: events)
  /\ Forall (fun seconds => seconds = retry_delay)
       (Consumer.back_offs
          (Consumer.process_missions retry_delay
             (before ++ Consumer.MkTurn false (Consumer.Unreachable e)
                :: after)).1)
  /\ ((Consumer.process_missions retry_delay
         (before ++ Consumer.MkTurn false (Consumer.Unreachable e) :: after)).2
      = true ->
      Exists (fun t => Consumer.stop_requested t = true) after)
  /\ (Consumer.never_stopped after ->
      (Consumer.process_missions retry_delay
         (before ++ Consumer.MkTurn false (Consumer.Unreachable e) :: after)).2
      = false
      /\ Consumer.pops
           (Consumer.process_missions retry_delay
              (before ++ Consumer.MkTurn false (Consumer.Unreachable e)
                 :: after)).1
         = length before + 1 + length after
      /\ Consumer.missions_run
           (Consumer.process_missions retry_delay
              (before ++ Consumer.MkTurn false (Consumer.Unreachable e)
                 :: after)).1
         = Consumer.plans_popped before ++ Consumer.plans_popped after
      /\ Consumer.plans_popped
           (before ++ Consumer.MkTurn false (Consumer.Unreachable e) :: after)
         = Consumer.plans_popped before ++ Consumer.plans_popped after).
Proof.
  intros Hbefore.
  assert (Consumer.process_missions retry_delay
            (before ++ Consumer.MkTurn false (Consumer.Unreachable e) :: after)
          = ((Consumer.process_missions retry_delay before).1
             ++ [Consumer.BlockingPop; Consumer.LogFailure e;
                 Consumer.BackOff retry_delay]
             ++ (Consumer.process_missions retry_delay after).1,
             (Consumer.process_missions retry_delay after).2)) as Hrun.
  { rewrite process_missions_app by done.
    by rewrite process_missions_cons by done. }
  split; [exact Hrun|].
  pose proof (back_offs_retry_delay retry_delay
                (before ++ Consumer.MkTurn false (Consumer.Unreachable e)
                   :: after)) as Hsleep.
  rewrite Hrun in Hsleep |- *. cbn [fst snd] in Hsleep |- *.
  split.
  { intros t rest -> Hstop. rewrite process_missions_cons by done.
    by eexists. }
  split; [exact Hsleep|].
  split; [apply returned_stopped|].
  intros Hafter.
  destruct (never_stopped_runs retry_delay before Hbefore) as (_ & Hb2 & Hb3).
  destruct (never_stopped_runs retry_delay after Hafter) as (Ha1 & Ha2 & Ha3).
  split; [done|].
  rewrite !pops_app, !missions_run_app, plans_popped_app, Hb2, Hb3.
  cbn. rewrite Ha2, Ha3. split; [lia|done].
Qed.

(** C9 on the scenario of the test: the first pop raises, the plan comes at
    the second, and the mission is run once. *)
Lemma pop_failure_does_not_end_the_loop_witness :
  Consumer.never_stopped []
  /\ Consumer.connection_lost_and_restored
     = [] ++ Consumer.MkTurn false
               (Consumer.Unreachable
                  (ConnectionError "Simulated connection error"))
          :: [Consumer.MkTurn false (Consumer.Payload Consumer.test_mission);
              Consumer.MkTurn false Consumer.Timeout;
              Consumer.MkTurn false Consumer.Timeout]
  /\ Consumer.process_missions 1 Consumer.connection_lost_and_restored
     = ([Consumer.BlockingPop;
         Consumer.LogFailure (ConnectionError "Simulated connection error");
         Consumer.BackOff 1;
         Consumer.BlockingPop; Consumer.RunMission Consumer.test_mission;
         Consumer.BlockingPop; Consumer.BlockingPop], false).
Proof.
  split; [constructor|]. split; [reflexivity|].
  exact (proj1 (pop_failure_does_not_end_the_loop 1 []
                  [Consumer.MkTurn false
                     (Consumer.Payload Consumer.test_mission);
                   Consumer.MkTurn false Consumer.Timeout;
                   Consumer.MkTurn false Consumer.Timeout]
                  (ConnectionError "Simulated connection error")
                  (List.Forall_nil _))).
Defined.

Section Delay.

Lemma delay_follows_tail (e : event) (rest : list event) :
  delay_follows (e :: rest) -> delay_follows rest.
Proof.
  destruct e as [| c [| |]| | | | | |]; cbn [delay_follows]; try done.
  by intros [_ H].
Qed.

Lemma delay_follows_split (trace before after : list event)
    (channel : string) (cmd : cmd_dict) (delay : float) :
  delay_follows trace ->
  trace = before ++ RedisPublish channel (CommandMessage cmd) :: after ->
  delay_of cmd = inr delay -> sleep_refused delay = None ->
  exists after', after = Sleep delay :: after'.
Proof.
  intros H -> Hd Hq. induction before as [|e before IH].
  - cbn [app delay_follows] in H. destruct H as [H _]. by apply H.
  - apply IH. by apply (delay_follows_tail e).
Qed.

Lemma delay_follows_execute_mission (env : environment) (plan : mission_plan) :
  delay_follows (execute_mission env plan).1.
Proof.
  destruct (execute_mission_shape env plan)
    as (done & rest & _ & _ & [[_ E]|[[_ E]|(c & r & e & _ & Hf & E)]]);
    rewrite E; cbn [fst]; unfold started; rewrite <- app_assoc;
    apply delay_follows_update; cbn [app delay_follows];
    apply delay_follows_nominal.
  - exact I.
  - exact I.
  - apply (delay_follows_announced _ _ _ _ e _ Hf). exact I.
Qed.

Lemma default_delay (cmd : cmd_dict) (delay : float) :
  dict_get "delay_ms" (items cmd) = None ->
  delay_of cmd = inr delay -> delay = 1%float.
Proof.
  unfold delay_of. intros ->. intros E. injection E as <-. reflexivity.
Qed.

End Delay.

(** C10 fails on the code: the delay of this command is a string, so the
    division raises after the command has been forwarded; nothing is slept
    after it, and the mission fails.  A delay of 2^63 ms divides well and is
    refused by [time.sleep]; one of 2^1024 ms does not convert to a
    double; a negative one is refused. *)
Lemma forwarded_without_delay_counterexample :
  forwarded
    (Unreliable.execute_mission [] quiet (MkPlan "m1" [stage_delay_text])).1
  = [CommandMessage stage_delay_text]
  /\ sleeps
       (Unreliable.execute_mission [] quiet (MkPlan "m1" [stage_delay_text])).1
     = []
  /\ Unreliable.execute_mission [] quiet (MkPlan "m1" [stage_delay_text])
     = (started "m1"
        ++ update_mission_status "m1" "IN_PROGRESS"
             "Executing command 1/1: ACTIVATE_NEXT_STAGE"
        ++ [RedisPublish "gnc_commands" (CommandMessage stage_delay_text)]
        ++ failed_events "m1"
             (TypeError "unsupported operand type(s) for /: 'str' and 'float'")
        ++ released,
        Raised
          (TypeError "unsupported operand type(s) for /: 'str' and 'float'"))
  /\ failure_of (MkCmd (Some "WAIT") [("delay_ms", JInt (2 ^ 63))])
     = Some (OverflowError "timestamp too large to convert to C _PyTime_t")
  /\ failure_of (MkCmd (Some "WAIT") [("delay_ms", JInt (2 ^ 1024))])
     = Some (OverflowError "int too large to convert to float")
  /\ failure_of (MkCmd (Some "WAIT") [("delay_ms", JInt (-5))])
     = Some (ValueError "sleep length must be non-negative").
Proof. repeat split; vm_compute; reflexivity. Qed.

(** C10 as amended: in every run, whatever the Redis client does, each
    command forwarded on ["gnc_commands"] is followed at once by the sleep of
    its delay, whatever its tag and its place in the plan (the last command
    too), when the delay is one that the step can compute and [time.sleep]
    takes: a number (not a NaN) that is not negative and not beyond the
    range of [time.sleep].  Otherwise the command has been forwarded all the
    same, the next event is the record of the [except] clause, nothing more
    is forwarded or slept, and the task raises.  The delay is the double
    under ["delay_ms"] divided by 1000.0 (an int is converted to the nearest
    double first), and 1.0 second when the key is absent. *)
Theorem delay_after_each_forward
    (redis : list (option exn)) (env : environment) (plan : mission_plan)
    (before after : list event) (cmd : cmd_dict) :
  (Unreliable.execute_mission redis env plan).1
  = before ++ RedisPublish "gnc_commands" (CommandMessage cmd) :: after ->
  (failure_of cmd = None ->
   exists after', after = Sleep (delay_seconds cmd) :: after')
  /\ (forall e,
        failure_of cmd = Some e ->
        (exists after',
           after = LogError ("Error executing mission " +:+ mission_id plan
                             +:+ ": " +:+ str_exn e) :: after')
        /\ sleeps after = [] /\ forwarded after = []
        /\ exists e', (Unreliable.execute_mission redis env plan).2 = Raised e')
  /\ (dict_get "delay_ms" (items cmd) = None ->
      delay_seconds cmd = 1%float /\ sleep_refused 1 = None)
  /\ (forall ms,
        dict_get "delay_ms" (items cmd) = Some (JFloat ms) ->
        delay_seconds cmd = (ms / 1000)%float)
  /\ (forall ms f,
        dict_get "delay_ms" (items cmd) = Some (JInt ms) ->
        float_of_int ms = inr f ->
        delay_seconds cmd = (f / 1000)%float).
Proof.
  intros Htrace.
  pose proof (delay_kept_execute_mission redis env plan) as H.
  rewrite Htrace in H. apply delay_kept_split in H.
  split; [intros Hf; by rewrite Hf in H|].
  split; [intros e Hf; by rewrite Hf in H|].
  unfold delay_seconds, delay_of.
  split; [by intros ->|].
  split; [by intros ms ->|].
  intros ms f -> Hms. by rewrite Hms.
Qed.

(** C10 as amended, at the last command of a plan, whose delay is 250 ms. *)
Lemma delay_after_each_forward_witness :
  (Unreliable.execute_mission [] quiet
     (MkPlan "m1" [set_throttle; stage_quarter_second])).1
  = (started "m1" ++ nominal "m1" 2 0 [set_throttle]
     ++ update_mission_status "m1" "IN_PROGRESS"
          "Executing command 2/2: ACTIVATE_NEXT_STAGE")
    ++ RedisPublish "gnc_commands" (CommandMessage stage_quarter_second)
       :: Sleep 0.25
          :: completed_events "m1" ++ released
  /\ failure_of stage_quarter_second = None
  /\ delay_seconds stage_quarter_second = 0.25%float
  /\ exists after',
       Sleep 0.25 :: completed_events "m1" ++ released
       = Sleep (delay_seconds stage_quarter_second) :: after'.
Proof.
  split; [reflexivity|]. split; [reflexivity|]. split; [reflexivity|].
  exact (proj1 (delay_after_each_forward [] quiet
                  (MkPlan "m1" [set_throttle; stage_quarter_second])
                  (started "m1" ++ nominal "m1" 2 0 [set_throttle]
                   ++ update_mission_status "m1" "IN_PROGRESS"
                        "Executing command 2/2: ACTIVATE_NEXT_STAGE")
                  (Sleep 0.25
                   :: completed_events "m1" ++ released)
                  stage_quarter_second eq_refl) eq_refl).
Defined.

(** * Further properties of the worker *)

Section WorkerRuns.

Lemma redis_after_failed (before : list event) (id : string) (e : exn)
    (store : gmap string payload) :
  redis_after (before ++ failed_events id e ++ released) store !! status_key id
  = Some (StatusSnapshot "FAILED" ("An error occurred: " +:+ str_exn e)).
Proof.
  unfold failed_events. rewrite <- (app_assoc [_]), (app_assoc before).
  apply redis_after_final.
Qed.




Lemma written_keys_app (a b : list event) :
  written_keys (a ++ b) = written_keys a ++ written_keys b.
Proof.
  induction a as [|e a IH]; [reflexivity|].
  destruct e; cbn [app written_keys]; by rewrite ?IH.
Qed.

Lemma written_keys_nominal (id : string) (total i : nat)
    (cmds : list cmd_dict) :
  Forall (fun key => key = status_key id)
    (written_keys (nominal id total i cmds)).
Proof.
  revert i. induction cmds as [|cmd cmds IH]; intros i; [constructor|].
  cbn [nominal]. unfold step_events.
  destruct (tag cmd); [|apply IH]. destruct (delay_of cmd); [apply IH|].
  rewrite !written_keys_app. cbn [update_mission_status written_keys app].
  constructor; [reflexivity|apply IH].
Qed.

Lemma written_keys_announced (id : string) (total i : nat) (cmd : cmd_dict) :
  Forall (fun key => key = status_key id)
    (written_keys (announced id total i cmd)).
Proof.
  unfold announced. destruct (tag cmd); [|constructor].
  cbn [update_mission_status written_keys app].
  constructor; [reflexivity|constructor].
Qed.

Lemma written_keys_execute_mission (env : environment) (plan : mission_plan) :
  Forall (fun key => key = status_key (mission_id plan))
    (written_keys (execute_mission env plan).1).
Proof.
  destruct (execute_mission_shape env plan)
    as (done & rest & _ & _ & [[_ E]|[[_ E]|(c & r & e & _ & _ & E)]]);
    rewrite E; cbn [fst]; rewrite !written_keys_app;
    repeat apply Forall_app_2;
    try apply written_keys_nominal; try apply written_keys_announced;
    cbn [started completed_events abort_events failed_events released
         update_mission_status written_keys app];
    repeat constructor.
Qed.

(** A key that the trace does not write keeps its value. *)
Lemma redis_after_other_key (trace : list event) (store : gmap string payload)
    (key : string) :
  Forall (fun k => k <> key) (written_keys trace) ->
  redis_after trace store !! key = store !! key.
Proof.
  revert store. induction trace as [|e trace IH]; intros store H; [reflexivity|].
  unfold redis_after in *. cbn [foldl].
  destruct e as [k v| | | | | | |]; cbn [written_keys redis_apply] in *;
    try (by apply IH).
  apply Forall_cons_1 in H as [Hk H].
  rewrite (IH _ H). by apply lookup_insert_ne.
Qed.

End WorkerRuns.



(** X4: a run writes under no key but the status key of its own mission:
    every other key of the store keeps its value. *)
Theorem other_keys_untouched
    (env : environment) (plan : mission_plan) (store : gmap string payload)
    (key : string) :
  key <> status_key (mission_id plan) ->
  redis_after (execute_mission env plan).1 store !! key = store !! key.
Proof.
  intros Hkey. apply redis_after_other_key.
  eapply Forall_impl; [apply written_keys_execute_mission|].
  intros k -> E. by apply Hkey.
Qed.

(** X4, at the status key of another mission. *)
Lemma other_keys_untouched_witness :
  status_key "m2" <> status_key (mission_id (MkPlan "m1" [set_throttle]))
  /\ redis_after (execute_mission quiet (MkPlan "m1" [set_throttle])).1
       (<[status_key "m2" := StatusSnapshot "QUEUED" "x"]> ∅)
       !! status_key "m2"
     = (<[status_key "m2" := StatusSnapshot "QUEUED" "x"]> ∅ : gmap string payload)
         !! status_key "m2".
Proof.
  assert (status_key "m2" <> status_key (mission_id (MkPlan "m1" [set_throttle])))
    as H by discriminate.
  split; [exact H|].
  exact (other_keys_untouched quiet (MkPlan "m1" [set_throttle])
           (<[status_key "m2" := StatusSnapshot "QUEUED" "x"]> ∅)
           (status_key "m2") H).
Defined.

Section WorkerPrefix.

Lemma forwarded_announced (id : string) (total i : nat) (cmd : cmd_dict) :
  forwarded (announced id total i cmd)
  = match tag cmd with
    | Some _ => [CommandMessage cmd]
    | None => []
    end.
Proof. unfold announced. by destruct (tag cmd). Qed.

Lemma sleeps_announced (id : string) (total i : nat) (cmd : cmd_dict) :
  sleeps (announced id total i cmd) = [].
Proof. unfold announced. by destruct (tag cmd). Qed.

Lemma forwarded_pieces (id : string) (e : exn) :
  forwarded (started id) = [] /\ forwarded (completed_events id) = []
  /\ forwarded (abort_events id) = [] /\ forwarded (failed_events id e) = []
  /\ forwarded released = [].
Proof. repeat split; reflexivity. Qed.

Lemma sleeps_pieces (id : string) (e : exn) :
  sleeps (started id) = [] /\ sleeps (completed_events id) = []
  /\ sleeps (abort_events id) = [] /\ sleeps (failed_events id e) = []
  /\ sleeps released = [].
Proof. repeat split; reflexivity. Qed.

(** What is forwarded and slept in a run, by the way it ends. *)
Lemma forwarded_and_slept (env : environment) (plan : mission_plan) :
  exists done rest,
    flight_plan plan = done ++ rest
    /\ sleeps (execute_mission env plan).1 = map delay_seconds done
    /\ (forwarded (execute_mission env plan).1 = map CommandMessage done
        \/ exists cmd rest',
             rest = cmd :: rest'
             /\ forwarded (execute_mission env plan).1
                = map CommandMessage (done ++ [cmd])).
Proof.
  destruct (execute_mission_shape env plan)
    as (done & rest & Hsplit & Hwf
        & [[_ E]|[[_ E]|(c & r & e & Hrest & _ & E)]]);
    exists done, rest; (split; [exact Hsplit|]); rewrite E; cbn [fst];
    rewrite !sleeps_app, !forwarded_app,
      (nominal_sleeps _ _ 0 _ Hwf), (nominal_forwarded _ _ 0 _ Hwf).
  - split; [|left]; cbn; by rewrite !app_nil_r.
  - split; [|left]; cbn; by rewrite !app_nil_r.
  - rewrite sleeps_announced, forwarded_announced.
    split; [cbn; by rewrite !app_nil_r|].
    destruct (tag c).
    + right. exists c, r. split; [exact Hrest|].
      cbn. by rewrite map_app.
    + left. cbn. by rewrite !app_nil_r.
Qed.

End WorkerPrefix.

(** X3: in every run the commands forwarded are the first [k] commands of
    the plan, in the order of the plan: none is forwarded twice, skipped or
    reordered.  The sleeps are the delays of the first [j] commands, where
    [j] is [k], or [k - 1] when the run raised after forwarding its last
    command. *)
Theorem forwarded_is_plan_prefix (env : environment) (plan : mission_plan) :
  exists k j,
    k <= length (flight_plan plan)
    /\ forwarded (execute_mission env plan).1
       = map CommandMessage (take k (flight_plan plan))
    /\ sleeps (execute_mission env plan).1
       = map delay_seconds (take j (flight_plan plan))
    /\ j <= k <= S j.
Proof.
  destruct (forwarded_and_slept env plan)
    as (done & rest & Hsplit & Hs & [Hf|(cmd & rest' & -> & Hf)]).
  - exists (length done), (length done). rewrite Hsplit, length_app.
    rewrite take_app_length.
    split; [lia|]. split; [done|]. split; [done|]. lia.
  - exists (S (length done)), (length done). rewrite Hsplit, length_app.
    rewrite take_app_length.
    replace (take (S (length done)) (done ++ cmd :: rest'))
      with (done ++ [cmd]).
    2:{ rewrite (take_app_ge done) by lia.
        by replace (S (length done) - length done) with 1 by lia. }
    cbn [length]. split; [lia|]. split; [done|]. split; [done|]. lia.
Qed.

Section WorkerAbort.

Lemma abort_signal_inv (id : string) (m : option message) :
  abort_signal id m = true ->
  exists msg,
    m = Some msg /\ msg_type msg = "message" /\ msg_data msg = JStr id.
Proof.
  destruct m as [msg|]; [|discriminate]. cbn [abort_signal].
  intros [Ht Hd]%andb_true_iff. exists msg. split; [reflexivity|].
  apply String.eqb_eq in Ht. split; [exact Ht|].
  unfold data_is in Hd. destruct (msg_data msg); try discriminate.
  apply String.eqb_eq in Hd. by rewrite Hd.
Qed.

(** The loop is left by [return] only on an abort that was read. *)
Lemma run_flight_plan_return (id : string) (total : nat) (cmds : list cmd_dict)
    (i : nat) (pending : list (option message)) (trace : list event)
    (status : string) :
  run_flight_plan id total i cmds pending = (trace, Return status) ->
  status = "ABORTED"
  /\ exists k m,
       k < length cmds /\ pending !! k = Some m /\ abort_signal id m = true.
Proof.
  revert i pending trace.
  induction cmds as [|cmd cmds IH]; intros i pending trace H; [discriminate H|].
  cbn [run_flight_plan] in H.
  destruct pending as [|m pending']; cbn [get_message] in H.
  - cbn [abort_signal] in H.
    destruct (tag cmd); [|discriminate H].
    destruct (delay_of cmd) as [|q]; [discriminate H|].
    destruct (sleep q); [discriminate H|].
    destruct (run_flight_plan id total (S i) cmds []) as [later ex] eqn:E.
    injection H as _ ->.
    destruct (IH _ _ _ E) as (_ & k & m & _ & Hk & _). discriminate Hk.
  - destruct (abort_signal id m) eqn:Hm.
    + injection H as _ <-. split; [reflexivity|].
      exists 0, m. cbn [length]. split; [lia|]. by split.
    + destruct (tag cmd); [|discriminate H].
      destruct (delay_of cmd) as [|q]; [discriminate H|].
      destruct (sleep q); [discriminate H|].
      destruct (run_flight_plan id total (S i) cmds pending')
        as [later ex] eqn:E.
      injection H as _ ->.
      destruct (IH _ _ _ E) as (Hs & k & m' & Hlt & Hk & Hab).
      split; [exact Hs|]. exists (S k), m'. cbn [length].
      split; [lia|]. by split.
Qed.

(** The loop reads one message per step and no more. *)
Lemma run_flight_plan_take (id : string) (total : nat) (cmds : list cmd_dict)
    (i : nat) (pending : list (option message)) :
  run_flight_plan id total i cmds (take (length cmds) pending)
  = run_flight_plan id total i cmds pending.
Proof.
  revert i pending.
  induction cmds as [|cmd cmds IH]; intros i pending; [reflexivity|].
  cbn [run_flight_plan length].
  destruct pending as [|m pending']; [reflexivity|].
  cbn [take get_message]. by rewrite IH.
Qed.

End WorkerAbort.

(** X5: a run ends ABORTED only if one of the messages it read, one per
    step, was of type "message" with the id of its own mission as data.
    Messages about other missions, and anything else on the channel, never
    abort it. *)
Theorem aborted_only_by_own_abort (env : environment) (plan : mission_plan) :
  (execute_mission env plan).2 = Returned "ABORTED" ->
  exists k msg,
    k < length (flight_plan plan)
    /\ abort_channel env !! k = Some (Some msg)
    /\ msg_type msg = "message"
    /\ msg_data msg = JStr (mission_id plan).
Proof.
  unfold execute_mission.
  destruct (run_flight_plan (mission_id plan) (length (flight_plan plan)) 0
              (flight_plan plan) (abort_channel env)) as [body ex] eqn:E.
  destruct ex as [|status|e]; cbn [snd]; intros H; try discriminate H.
  destruct (run_flight_plan_return _ _ _ _ _ _ _ E) as (_ & k & m & Hk & Hm & Hab).
  destruct (abort_signal_inv _ _ Hab) as (msg & -> & Ht & Hd).
  by exists k, msg.
Qed.

(** X5, at an abort read before the second step. *)
Lemma aborted_only_by_own_abort_witness :
  (execute_mission (MkEnv false (abort_after_confirmation "m1"))
     (MkPlan "m1" [set_throttle; wait_5])).2
  = Returned "ABORTED"
  /\ exists k msg,
       k < 2
       /\ abort_after_confirmation "m1" !! k = Some (Some msg)
       /\ msg_type msg = "message"
       /\ msg_data msg = JStr "m1".
Proof.
  split; [reflexivity|].
  exact (aborted_only_by_own_abort
           (MkEnv false (abort_after_confirmation "m1"))
           (MkPlan "m1" [set_throttle; wait_5]) eq_refl).
Defined.

(** X6: the task reads at most one message per step, and none after the
    check before the last step: a run is the same as with only the first [N]
    messages of the channel (and whatever the shutdown request), so that an
    abort that arrives later than the last check is never acted on. *)
Theorem only_the_first_reads_matter
    (env : environment) (plan : mission_plan) (flag : bool) :
  execute_mission
    (MkEnv flag (take (length (flight_plan plan)) (abort_channel env))) plan
  = execute_mission env plan.
Proof.
  unfold execute_mission. cbn [abort_channel].
  by rewrite run_flight_plan_take.
Qed.

(** X7: when a step raises, whether its command has been forwarded depends
    on what is wrong with it: a command with a tag whose delay cannot be
    slept has already been published on ["gnc_commands"] when the mission
    fails, a command without tag has not; in both cases no delay is slept
    for it. *)
Theorem failing_step_forwarded_iff_tagged
    (env : environment) (plan : mission_plan)
    (done : list cmd_dict) (cmd : cmd_dict) (rest : list cmd_dict) (e : exn) :
  flight_plan plan = done ++ cmd :: rest ->
  Forall (fun c => well_formed c = true) done ->
  no_abort (mission_id plan) (S (length done)) (abort_channel env) ->
  failure_of cmd = Some e ->
  forwarded (execute_mission env plan).1
  = map CommandMessage done
    ++ match tag cmd with
       | Some _ => [CommandMessage cmd]
       | None => []
       end
  /\ sleeps (execute_mission env plan).1 = map delay_seconds done.
Proof.
  intros Hsplit Hwf Hna Hf.
  assert ((execute_mission env plan).1
          = started (mission_id plan)
            ++ (nominal (mission_id plan) (length (flight_plan plan)) 0 done
                ++ announced (mission_id plan) (length (flight_plan plan))
                     (length done) cmd)
            ++ [LogError ("Error executing mission " +:+ mission_id plan
                          +:+ ": " +:+ str_exn e)]
            ++ update_mission_status (mission_id plan) "FAILED"
                 ("An error occurred: " +:+ str_exn e)
            ++ released) as E.
  { unfold execute_mission. rewrite Hsplit at 2.
    by rewrite (run_flight_plan_failure _ _ done cmd rest _ e Hwf Hna Hf). }
  rewrite E. split.
  - rewrite !forwarded_app, (nominal_forwarded _ _ 0 _ Hwf),
      forwarded_announced.
    cbn. by rewrite !app_nil_r.
  - rewrite !sleeps_app, (nominal_sleeps _ _ 0 _ Hwf), sleeps_announced.
    cbn. by rewrite !app_nil_r.
Qed.

(** X7, at a plan whose second command has a negative delay. *)
Lemma failing_step_forwarded_iff_tagged_witness :
  Forall (fun c => well_formed c = true) [set_throttle]
  /\ no_abort "m1" 2 (abort_channel quiet)
  /\ failure_of (MkCmd (Some "WAIT") [("delay_ms", JInt (-5))])
     = Some (ValueError "sleep length must be non-negative")
  /\ forwarded
       (execute_mission quiet
          (MkPlan "m1"
             [set_throttle; MkCmd (Some "WAIT") [("delay_ms", JInt (-5))]])).1
     = [CommandMessage set_throttle;
        CommandMessage (MkCmd (Some "WAIT") [("delay_ms", JInt (-5))])].
Proof.
  assert (Forall (fun c => well_formed c = true) [set_throttle]) as Hwf
    by (repeat constructor).
  assert (no_abort "m1" 2 (abort_channel quiet)) as Hna by constructor.
  split; [exact Hwf|]. split; [exact Hna|]. split; [reflexivity|].
  exact (proj1 (failing_step_forwarded_iff_tagged quiet
                  (MkPlan "m1"
                     [set_throttle;
                      MkCmd (Some "WAIT") [("delay_ms", JInt (-5))]])
                  [set_throttle]
                  (MkCmd (Some "WAIT") [("delay_ms", JInt (-5))]) []
                  (ValueError "sleep length must be non-negative")
                  eq_refl Hwf Hna eq_refl)).
Defined.


(** * Further properties of flight control *)



(** X10: whatever the command and the state of the link, [execute_command]
    makes at most two calls on the vessel, all of them on its control or its
    autopilot: it never opens, reads or removes a telemetry stream. *)
Theorem execute_command_makes_control_calls_only
    (float_of_str : string -> exn + float) (st : FlightControl.krpc_state)
    (cmd : cmd_dict) :
  Forall (fun c => control_call c = true)
    (FlightControl.handle_calls
       (FlightControl.execute_command float_of_str st cmd))
  /\ length (FlightControl.handle_calls
               (FlightControl.execute_command float_of_str st cmd)) <= 2
  /\ FlightControl.polls (FlightControl.execute_command float_of_str st cmd)
     = 0
  /\ FlightControl.unsubscribes
       (FlightControl.execute_command float_of_str st cmd) = 0.
Proof.
  assert (Forall (fun c => control_call c = true)
            (FlightControl.handle_calls
               (FlightControl.execute_command float_of_str st cmd))
          /\ length (FlightControl.handle_calls
                       (FlightControl.execute_command float_of_str st cmd))
             <= 2) as [H1 H2].
  { destruct (FlightControl.connected st) eqn:Hc.
    - rewrite (execute_command_calls float_of_str st cmd Hc).
      destruct (dispatch_effects float_of_str st (tag cmd)
                  (match dict_get "parameters" (items cmd) with
                   | Some v => v
                   | None => JObj []
                   end)) as (Ha & Hb & _).
      by split.
    - unfold FlightControl.execute_command. rewrite Hc. cbn.
      split; [constructor|lia]. }
  split; [exact H1|]. split; [exact H2|].
  by apply handle_calls_polls.
Qed.

Section Arms.

Variable float_of_str : string -> exn + float.

(** On a healthy link, the calls made for a command are those of its arm,
    with the calls going through. *)
Ltac run_arm st :=
  let c := fresh "c" in let r := fresh "r" in let a := fresh "a" in
  destruct st as [c r a];
  match goal with H : healthy _ |- _ =>
    destruct H as [Hc Hr]; cbn [FlightControl.connected
                                 FlightControl.rpc_failure] in Hc, Hr; subst
  end;
  unfold FlightControl.execute_command, FlightControl.dispatch,
    FlightControl.rpc, FlightControl.params_get;
  cbn [FlightControl.connected FlightControl.rpc_failure negb tag items
       FlightControl.is_command];
  repeat match goal with
  | |- context [String.eqb ?a ?b] =>
      let v := eval vm_compute in (String.eqb a b) in
      change (String.eqb a b) with v
  end;
  cbn match.

Lemma throttle_arm (st : FlightControl.krpc_state)
    (fields : list (string * json)) :
  healthy st ->
  FlightControl.handle_calls
    (FlightControl.execute_command float_of_str st
       (MkCmd (Some "SET_THROTTLE") fields))
  = match dict_get "parameters" fields with
    | None => [FlightControl.SetThrottle 0]
    | Some (JObj members) =>
        match dict_get "value" members with
        | None => [FlightControl.SetThrottle 0]
        | Some v =>
            match FlightControl.py_float float_of_str v with
            | inr x => [FlightControl.SetThrottle x]
            | inl _ => []
            end
        end
    | Some _ => []
    end.
Proof.
  intros H. run_arm st.
  destruct (dict_get "parameters" fields) as [[| | | | | |members]|];
    try reflexivity.
  destruct (dict_get "value" members) as [v|]; [|reflexivity].
  destruct (FlightControl.py_float float_of_str v) as [e|x]; [|reflexivity].
  unfold FlightControl.report. by destruct e.
Qed.

Lemma switch_arms (st : FlightControl.krpc_state)
    (fields : list (string * json)) :
  healthy st ->
  FlightControl.handle_calls
    (FlightControl.execute_command float_of_str st
       (MkCmd (Some "SET_SAS") fields))
  = match dict_get "parameters" fields with
    | None => [FlightControl.SetSas false]
    | Some (JObj members) =>
        match dict_get "value" members with
        | None => [FlightControl.SetSas false]
        | Some v => [FlightControl.SetSas (truthy v)]
        end
    | Some _ => []
    end
  /\ FlightControl.handle_calls
       (FlightControl.execute_command float_of_str st
          (MkCmd (Some "SET_RCS") fields))
     = match dict_get "parameters" fields with
       | None => [FlightControl.SetRcs false]
       | Some (JObj members) =>
           match dict_get "value" members with
           | None => [FlightControl.SetRcs false]
           | Some v => [FlightControl.SetRcs (truthy v)]
           end
       | Some _ => []
       end.
Proof.
  intros H. split; run_arm st.
  all: destruct (dict_get "parameters" fields) as [[| | | | | |members]|];
    try reflexivity.
  all: by destruct (dict_get "value" members) as [v|].
Qed.

Lemma stage_arm (st : FlightControl.krpc_state)
    (fields : list (string * json)) :
  healthy st ->
  FlightControl.handle_calls
    (FlightControl.execute_command float_of_str st
       (MkCmd (Some "ACTIVATE_NEXT_STAGE") fields))
  = [FlightControl.ActivateNextStage].
Proof. intros H. run_arm st. reflexivity. Qed.

Lemma autopilot_arm (st : FlightControl.krpc_state)
    (fields : list (string * json)) :
  healthy st ->
  FlightControl.handle_calls
    (FlightControl.execute_command float_of_str st
       (MkCmd (Some "SET_AUTOPILOT_PITCH_AND_HEADING") fields))
  = FlightControl.AutoPilotEngage
    :: match dict_get "parameters" fields with
       | None =>
           [FlightControl.TargetPitchAndHeading 90 90]
       | Some (JObj members) =>
           match
             FlightControl.py_float float_of_str
               (match dict_get "pitch" members with
                | Some v => v
                | None => JInt 90
                end),
             FlightControl.py_float float_of_str
               (match dict_get "heading" members with
                | Some v => v
                | None => JInt 90
                end)
           with
           | inr pitch, inr heading =>
               [FlightControl.TargetPitchAndHeading pitch heading]
           | _, _ => []
           end
       | Some _ => []
       end.
Proof.
  intros H. run_arm st.
  destruct (dict_get "parameters" fields) as [[| | | | | |members]|];
    try reflexivity.
  destruct (FlightControl.py_float float_of_str _) as [e|pitch].
  { unfold FlightControl.report. by destruct e. }
  destruct (FlightControl.py_float float_of_str _) as [e|heading];
    [|reflexivity].
  unfold FlightControl.report. by destruct e.
Qed.

End Arms.

(** X11: on a healthy link, SET_THROTTLE takes the throttle from
    [parameters.value] and from nowhere else: without a ["parameters"] key
    the throttle is set to 0, whatever other keys the command has (a
    top-level ["value"] is not read); with a [parameters.value] that is a
    float it is set to that double, unchanged; with one that is an int it is
    set to the double nearest to it, and no call is made when the int is
    beyond the doubles. *)
Theorem throttle_comes_from_parameters_value
    (float_of_str : string -> exn + float) (st : FlightControl.krpc_state)
    (fields : list (string * json)) :
  healthy st ->
  (dict_get "parameters" fields = None ->
   FlightControl.handle_calls
     (FlightControl.execute_command float_of_str st
        (MkCmd (Some "SET_THROTTLE") fields))
   = [FlightControl.SetThrottle 0])
  /\ (forall members x,
        dict_get "parameters" fields = Some (JObj members) ->
        dict_get "value" members = Some (JFloat x) ->
        FlightControl.handle_calls
          (FlightControl.execute_command float_of_str st
             (MkCmd (Some "SET_THROTTLE") fields))
        = [FlightControl.SetThrottle x])
  /\ (forall members z,
        dict_get "parameters" fields = Some (JObj members) ->
        dict_get "value" members = Some (JInt z) ->
        FlightControl.handle_calls
          (FlightControl.execute_command float_of_str st
             (MkCmd (Some "SET_THROTTLE") fields))
        = match float_of_int z with
          | inr x => [FlightControl.SetThrottle x]
          | inl _ => []
          end).
Proof.
  intros H. rewrite (throttle_arm float_of_str st fields H).
  split; [by intros ->|].
  split; intros members x -> Hv; by rewrite Hv.
Qed.

(** X11, at the throttle command as the sequencer's plans write it. *)
Lemma throttle_comes_from_parameters_value_witness :
  healthy climbing_then_falling
  /\ dict_get "parameters" (items set_throttle) = None
  /\ dict_get "value" (items set_throttle) = Some (JFloat 1)
  /\ FlightControl.handle_calls
       (FlightControl.execute_command FlightControl.float_unreadable
          climbing_then_falling set_throttle)
     = [FlightControl.SetThrottle 0].
Proof.
  assert (healthy climbing_then_falling) as H by (split; reflexivity).
  split; [exact H|]. split; [reflexivity|]. split; [reflexivity|].
  exact (proj1 (throttle_comes_from_parameters_value
                  FlightControl.float_unreadable climbing_then_falling
                  (items set_throttle) H) eq_refl).
Defined.

(** X12: on a healthy link, SET_AUTOPILOT_PITCH_AND_HEADING always engages
    the autopilot first; the target follows only if both angles convert to
    numbers (90 and 90 when there is no ["parameters"] key).  With a pitch
    that is null the autopilot is left engaged with no target set. *)
Theorem autopilot_engaged_before_target
    (float_of_str : string -> exn + float) (st : FlightControl.krpc_state)
    (fields : list (string * json)) :
  healthy st ->
  exists rest,
    FlightControl.handle_calls
      (FlightControl.execute_command float_of_str st
         (MkCmd (Some "SET_AUTOPILOT_PITCH_AND_HEADING") fields))
    = FlightControl.AutoPilotEngage :: rest
    /\ (rest = []
        \/ exists pitch heading,
             rest = [FlightControl.TargetPitchAndHeading pitch heading])
    /\ (dict_get "parameters" fields = None ->
        rest = [FlightControl.TargetPitchAndHeading 90 90])
    /\ (forall members,
          dict_get "parameters" fields = Some (JObj members) ->
          dict_get "pitch" members = Some JNull -> rest = []).
Proof.
  intros H. rewrite (autopilot_arm float_of_str st fields H).
  eexists. split; [reflexivity|]. split; [|split].
  - destruct (dict_get "parameters" fields) as [[| | | | | |members]|];
      try (by left).
    + destruct (FlightControl.py_float float_of_str _) as [e|pitch];
        [by left|].
      destruct (FlightControl.py_float float_of_str _) as [e|heading];
        [by left|].
      right. by exists pitch, heading.
    + right. by eexists _, _.
  - by intros ->.
  - intros members -> Hp. by rewrite Hp.
Qed.

(** X12, at a command whose pitch is null. *)
Lemma autopilot_engaged_before_target_witness :
  healthy climbing_then_falling
  /\ exists rest,
       FlightControl.handle_calls
         (FlightControl.execute_command FlightControl.float_unreadable
            climbing_then_falling
            (MkCmd (Some "SET_AUTOPILOT_PITCH_AND_HEADING")
               [("parameters", JObj [("pitch", JNull)])]))
       = FlightControl.AutoPilotEngage :: rest.
Proof.
  assert (healthy climbing_then_falling) as H by (split; reflexivity).
  split; [exact H|].
  destruct (autopilot_engaged_before_target FlightControl.float_unreadable
              climbing_then_falling
              [("parameters", JObj [("pitch", JNull)])] H)
    as (rest & E & _).
  by exists rest.
Defined.

(** X13: on a healthy link, SET_SAS and SET_RCS switch to the truth value
    that Python gives [parameters.value]: any non-empty string switches on
    (the string "false" too), a missing value switches off. *)
Theorem switches_follow_python_truth
    (float_of_str : string -> exn + float) (st : FlightControl.krpc_state)
    (fields members : list (string * json)) :
  healthy st ->
  dict_get "parameters" fields = Some (JObj members) ->
  FlightControl.handle_calls
    (FlightControl.execute_command float_of_str st
       (MkCmd (Some "SET_SAS") fields))
  = [FlightControl.SetSas
       (match dict_get "value" members with
        | Some v => truthy v
        | None => false
        end)]
  /\ FlightControl.handle_calls
       (FlightControl.execute_command float_of_str st
          (MkCmd (Some "SET_RCS") fields))
     = [FlightControl.SetRcs
          (match dict_get "value" members with
           | Some v => truthy v
           | None => false
           end)]
  /\ (forall s, s <> "" -> dict_get "value" members = Some (JStr s) ->
      FlightControl.handle_calls
        (FlightControl.execute_command float_of_str st
           (MkCmd (Some "SET_SAS") fields))
      = [FlightControl.SetSas true]).
Proof.
  intros H Hp. destruct (switch_arms float_of_str st fields H) as [Hs Hr].
  rewrite Hs, Hr, Hp.
  split; [by destruct (dict_get "value" members)|].
  split; [by destruct (dict_get "value" members)|].
  intros s Hne ->. cbn [truthy].
  destruct (String.eqb s "") eqn:E; [|reflexivity].
  apply String.eqb_eq in E. by destruct Hne.
Qed.

(** X13, at the value "false". *)
Lemma switches_follow_python_truth_witness :
  healthy climbing_then_falling
  /\ FlightControl.handle_calls
       (FlightControl.execute_command FlightControl.float_unreadable
          climbing_then_falling
          (MkCmd (Some "SET_SAS")
             [("parameters", JObj [("value", JStr "false")])]))
     = [FlightControl.SetSas true].
Proof.
  assert (healthy climbing_then_falling) as H by (split; reflexivity).
  split; [exact H|].
  exact (proj1 (switches_follow_python_truth FlightControl.float_unreadable
                  climbing_then_falling
                  [("parameters", JObj [("value", JStr "false")])]
                  [("value", JStr "false")] H eq_refl)).
Defined.

(** X14: on a healthy link, when ["parameters"] is not a dict, the commands
    that read a parameter make no call for it (SET_THROTTLE, SET_SAS,
    SET_RCS) or stop after engaging the autopilot, while
    ACTIVATE_NEXT_STAGE, which reads none, activates the next stage
    whatever the command holds. *)
Theorem parameters_that_are_no_dict
    (float_of_str : string -> exn + float) (st : FlightControl.krpc_state)
    (fields : list (string * json)) (v : json) :
  healthy st ->
  dict_get "parameters" fields = Some v ->
  (forall members, v <> JObj members) ->
  let calls_of name :=
    FlightControl.handle_calls
      (FlightControl.execute_command float_of_str st
         (MkCmd (Some name) fields)) in
  calls_of "SET_THROTTLE" = []
  /\ calls_of "SET_SAS" = []
  /\ calls_of "SET_RCS" = []
  /\ calls_of "SET_AUTOPILOT_PITCH_AND_HEADING"
     = [FlightControl.AutoPilotEngage]
  /\ calls_of "ACTIVATE_NEXT_STAGE" = [FlightControl.ActivateNextStage].
Proof.
  intros H Hp Hv calls_of. subst calls_of. cbv beta.
  destruct (switch_arms float_of_str st fields H) as [Hs Hr].
  rewrite (throttle_arm float_of_str st fields H), Hs, Hr,
    (autopilot_arm float_of_str st fields H),
    (stage_arm float_of_str st fields H), Hp.
  destruct v; try (by repeat split). by destruct (Hv members).
Qed.

(** X14, at a list for parameters. *)
Lemma parameters_that_are_no_dict_witness :
  healthy climbing_then_falling
  /\ dict_get "parameters" [("parameters", JArr [])] = Some (JArr [])
  /\ FlightControl.handle_calls
       (FlightControl.execute_command FlightControl.float_unreadable
          climbing_then_falling
          (MkCmd (Some "SET_THROTTLE") [("parameters", JArr [])]))
     = [].
Proof.
  assert (healthy climbing_then_falling) as H by (split; reflexivity).
  split; [exact H|]. split; [reflexivity|].
  exact (proj1 (parameters_that_are_no_dict FlightControl.float_unreadable
                  climbing_then_falling [("parameters", JArr [])] (JArr [])
                  H eq_refl ltac:(discriminate))).
Defined.

(** * The subscriber of flight control *)

(** X15: a turn of the subscriber that brings no command (nothing within the
    timeout, an error of the Redis client, a message of another type, data
    that is no JSON or no dict) makes no call on the vessel and does not end
    the loop: the calls made for the messages before and after it are the
    same as without it. *)
Theorem subscriber_survives_bad_messages
    (float_of_str : string -> exn + float)
    (before after : list (FlightControl.krpc_state * Subscriber.poll))
    (st : FlightControl.krpc_state) (p : Subscriber.poll) :
  Subscriber.idle p = true ->
  Subscriber.calls
    (Subscriber.redis_subscriber float_of_str (before ++ (st, p) :: after))
  = Subscriber.calls
      (Subscriber.redis_subscriber float_of_str (before ++ after)).
Proof.
  intros Hidle. unfold Subscriber.redis_subscriber.
  change (Subscriber.calls
            ([Subscriber.Did
                (FlightControl.Logged "INFO"
                   "Subscribed to 'gnc_commands' channel.")]
             ++ Subscriber.turns float_of_str (before ++ (st, p) :: after))
          = Subscriber.calls
              ([Subscriber.Did
                  (FlightControl.Logged "INFO"
                     "Subscribed to 'gnc_commands' channel.")]
               ++ Subscriber.turns float_of_str (before ++ after))).
  by rewrite !calls_app, (calls_turns_idle float_of_str _ _ _ _ Hidle).
Qed.

(** X15, at data that is no JSON between two stage commands. *)
Lemma subscriber_survives_bad_messages_witness :
  Subscriber.idle (Subscriber.Message "message" (Subscriber.Undecodable "x"))
  = true
  /\ Subscriber.calls
       (Subscriber.redis_subscriber FlightControl.float_unreadable
          ([(climbing_then_falling,
             Subscriber.as_poll (CommandMessage stage_quarter_second))]
           ++ (climbing_then_falling,
               Subscriber.Message "message" (Subscriber.Undecodable "x"))
              :: [(climbing_then_falling,
                   Subscriber.as_poll (CommandMessage stage_quarter_second))]))
     = Subscriber.calls
         (Subscriber.redis_subscriber FlightControl.float_unreadable
            ([(climbing_then_falling,
               Subscriber.as_poll (CommandMessage stage_quarter_second))]
             ++ [(climbing_then_falling,
                  Subscriber.as_poll (CommandMessage stage_quarter_second))])).
Proof.
  split; [reflexivity|].
  exact (subscriber_survives_bad_messages FlightControl.float_unreadable
           [(climbing_then_falling,
             Subscriber.as_poll (CommandMessage stage_quarter_second))]
           [(climbing_then_falling,
             Subscriber.as_poll (CommandMessage stage_quarter_second))]
           climbing_then_falling
           (Subscriber.Message "message" (Subscriber.Undecodable "x"))
           eq_refl).
Defined.

(** X16: from the worker to the vessel.  When the commands that a run of
    [execute_mission] publishes on ["gnc_commands"] reach the subscriber one
    after the other, the link being in the same state throughout, the calls
    made on the vessel are those of [execute_command] on the first [k]
    commands of the plan, in the order of the plan; on all of them when the
    run is not aborted and no step raises. *)
Theorem mission_commands_reach_the_vessel_in_order
    (float_of_str : string -> exn + float) (st : FlightControl.krpc_state)
    (env : environment) (plan : mission_plan) :
  (exists k,
     k <= length (flight_plan plan)
     /\ Subscriber.calls
          (Subscriber.redis_subscriber float_of_str
             (map (fun p => (st, Subscriber.as_poll p))
                (forwarded (execute_mission env plan).1)))
        = flat_map
            (fun c => FlightControl.handle_calls
                        (FlightControl.execute_command float_of_str st c))
            (take k (flight_plan plan)))
  /\ (no_abort (mission_id plan) (length (flight_plan plan))
        (abort_channel env) ->
      Forall (fun c => well_formed c = true) (flight_plan plan) ->
      Subscriber.calls
        (Subscriber.redis_subscriber float_of_str
           (map (fun p => (st, Subscriber.as_poll p))
              (forwarded (execute_mission env plan).1)))
      = flat_map
          (fun c => FlightControl.handle_calls
                      (FlightControl.execute_command float_of_str st c))
          (flight_plan plan)).
Proof.
  assert (forall cmds,
            Subscriber.calls
              (Subscriber.redis_subscriber float_of_str
                 (map (fun p => (st, Subscriber.as_poll p))
                    (map CommandMessage cmds)))
            = flat_map
                (fun c => FlightControl.handle_calls
                            (FlightControl.execute_command float_of_str st c))
                cmds) as Hcmds.
  { intros cmds. rewrite map_map. unfold Subscriber.redis_subscriber.
    change (Subscriber.calls
              ([Subscriber.Did
                  (FlightControl.Logged "INFO"
                     "Subscribed to 'gnc_commands' channel.")]
               ++ Subscriber.turns float_of_str
                    (map (fun c => (st, Subscriber.as_poll (CommandMessage c)))
                       cmds))
            = flat_map
                (fun c => FlightControl.handle_calls
                            (FlightControl.execute_command float_of_str st c))
                cmds).
    by rewrite calls_app, calls_turns_commands. }
  split.
  - destruct (forwarded_and_slept env plan)
      as (done & rest & Hsplit & _ & [Hf|(cmd & rest' & -> & Hf)]);
      rewrite Hf, Hcmds, Hsplit.
    + exists (length done). rewrite length_app, take_app_length.
      split; [lia|done].
    + exists (S (length done)). rewrite length_app. cbn [length].
      split; [lia|].
      rewrite (take_app_ge done) by lia.
      by replace (S (length done) - length done) with 1 by lia.
  - intros Hna Hwf.
    destruct (execute_mission_nominal_forwarded env plan Hna Hwf) as [_ Hf].
    by rewrite Hf, Hcmds.
Qed.

(** X16, at a plan of two steps without incident. *)
Lemma mission_commands_reach_the_vessel_in_order_witness :
  no_abort "m1" 2 (abort_channel quiet)
  /\ Forall (fun c => well_formed c = true)
       [stage_quarter_second; stage_quarter_second]
  /\ Subscriber.calls
       (Subscriber.redis_subscriber FlightControl.float_unreadable
          (map (fun p => (climbing_then_falling, Subscriber.as_poll p))
             (forwarded
                (execute_mission quiet
                   (MkPlan "m1"
                      [stage_quarter_second; stage_quarter_second])).1)))
     = flat_map
         (fun c => FlightControl.handle_calls
                     (FlightControl.execute_command
                        FlightControl.float_unreadable climbing_then_falling c))
         [stage_quarter_second; stage_quarter_second].
Proof.
  assert (no_abort "m1" 2 (abort_channel quiet)) as Hna by constructor.
  assert (Forall (fun c => well_formed c = true)
            [stage_quarter_second; stage_quarter_second]) as Hwf
    by (repeat constructor).
  split; [exact Hna|]. split; [exact Hwf|].
  exact (proj2 (mission_commands_reach_the_vessel_in_order
                  FlightControl.float_unreadable climbing_then_falling quiet
                  (MkPlan "m1" [stage_quarter_second; stage_quarter_second]))
           Hna Hwf).
Defined.

(** * The endpoints of the sequencer *)

Section ApiFacts.

Lemma redis_exists_true (store : gmap string payload) (key : string) :
  Api.redis_exists store key = true <-> is_Some (store !! key).
Proof. unfold Api.redis_exists. apply bool_decide_eq_true. Qed.

Lemma redis_exists_false (store : gmap string payload) (key : string) :
  Api.redis_exists store key = false <-> store !! key = None.
Proof.
  unfold Api.redis_exists. rewrite bool_decide_eq_false.
  by rewrite eq_None_not_Some.
Qed.

(** How a run leaves the status key of its mission. *)
Lemma final_snapshot (env : environment) (plan : mission_plan)
    (store : gmap string payload) :
  exists status details,
    redis_after (execute_mission env plan).1 store
      !! status_key (mission_id plan)
    = Some (StatusSnapshot status details)
    /\ terminal status = true
    /\ ((execute_mission env plan).2 = Returned status
        \/ (status = "FAILED"
            /\ exists e, (execute_mission env plan).2 = Raised e)).
Proof.
  destruct (execute_mission_shape env plan)
    as (done & rest & _ & _ & [[_ E]|[[_ E]|(c & r & e & _ & _ & E)]]);
    rewrite E; cbn [fst snd].
  - exists "COMPLETED", "All mission commands executed successfully.".
    split; [|split; [reflexivity|by left]].
    rewrite (app_assoc (started _)). apply redis_after_final.
  - exists "ABORTED", "Mission aborted by operator.".
    split; [|split; [reflexivity|by left]].
    rewrite (app_assoc (started _)). apply redis_after_final.
  - exists "FAILED", ("An error occurred: " +:+ str_exn e).
    split; [|split; [reflexivity|right; split; [reflexivity|by exists e]]].
    rewrite (app_assoc (nominal _ _ _ _)), (app_assoc (started _)).
    apply redis_after_failed.
Qed.

(** An accepted submission leaves a status under the key of the mission. *)
Lemma accepted_status (store : gmap string payload) (plan : mission_plan) :
  store !! status_key (mission_id plan) = None ->
  exists value,
    Api.store_after (Api.submit_mission store true None (Some plan)).1 store
      !! status_key (mission_id plan)
    = Some value.
Proof.
  intros Hfresh. unfold Api.submit_mission. cbn [negb].
  rewrite (proj2 (redis_exists_false _ _) Hfresh). cbn [fst].
  unfold Api.store_after. cbn [foldl Api.store_apply redis_apply].
  eexists. apply lookup_insert_eq.
Qed.

End ApiFacts.

(** X17: a plan submitted under a fresh mission id, with the schema loaded
    and the validation passing, is accepted with 202, handed to the worker
    once, and [get_mission_status] then answers 200 with the status QUEUED;
    no other key of the store changes. *)
Theorem accepted_mission_is_queued
    (store : gmap string payload) (plan : mission_plan) :
  store !! status_key (mission_id plan) = None ->
  Api.code (Api.submit_mission store true None (Some plan)).2 = 202
  /\ Api.queued (Api.submit_mission store true None (Some plan)).1 = [plan]
  /\ Api.get_mission_status
       (Api.store_after (Api.submit_mission store true None (Some plan)).1
          store)
       (mission_id plan)
     = Api.MkResponse 200
         (Api.StoredBody
            (StatusSnapshot "QUEUED"
               "Mission plan validated and queued for execution."))
  /\ (forall key, key <> status_key (mission_id plan) ->
      Api.store_after (Api.submit_mission store true None (Some plan)).1 store
        !! key
      = store !! key).
Proof.
  intros Hfresh. unfold Api.submit_mission. cbn [negb].
  rewrite (proj2 (redis_exists_false _ _) Hfresh). cbn [fst snd Api.code].
  split; [reflexivity|]. split; [reflexivity|].
  unfold Api.get_mission_status, Api.store_after.
  cbn [foldl Api.store_apply redis_apply].
  split; [by rewrite lookup_insert_eq|].
  intros key Hkey. by apply lookup_insert_ne.
Qed.

(** X17, at an empty store. *)
Lemma accepted_mission_is_queued_witness :
  (∅ : gmap string payload) !! status_key "m1" = None
  /\ Api.code
       (Api.submit_mission ∅ true None (Some (MkPlan "m1" [set_throttle]))).2
     = 202.
Proof.
  split; [reflexivity|].
  exact (proj1 (accepted_mission_is_queued ∅ (MkPlan "m1" [set_throttle])
                  eq_refl)).
Defined.

(** X18: [submit_mission] answers 202 exactly when there is a body, the
    schema is loaded, the validation passes and the mission id has no status
    yet; in every other case (400, 500, 409) it hands nothing to the worker
    and leaves the store as it is.  [abort_mission] on a mission without
    status answers 404 and publishes nothing. *)
Theorem refused_requests_change_nothing
    (store : gmap string payload) (schema_loaded : bool)
    (validation : option string) (request : option mission_plan)
    (id : string) :
  (Api.code (Api.submit_mission store schema_loaded validation request).2 = 202
   <-> exists plan,
         request = Some plan /\ schema_loaded = true /\ validation = None
         /\ store !! status_key (mission_id plan) = None)
  /\ (Api.code (Api.submit_mission store schema_loaded validation request).2
      <> 202 ->
      Api.queued (Api.submit_mission store schema_loaded validation request).1
      = []
      /\ Api.store_after
           (Api.submit_mission store schema_loaded validation request).1 store
         = store)
  /\ (store !! status_key id = None ->
      Api.abort_mission store id
      = ([], Api.MkResponse 404 (Api.ErrorBody "Mission not found" None))).
Proof.
  split; [|split].
  - unfold Api.submit_mission.
    destruct request as [plan|]; [|split; [discriminate|by intros (? & ? & _)]].
    destruct schema_loaded; cbn [negb];
      [|split; [discriminate|by intros (? & _ & ? & _)]].
    destruct validation as [text|];
      [split; [discriminate|by intros (? & _ & _ & ? & _)]|].
    destruct (Api.redis_exists store (status_key (mission_id plan))) eqn:E;
      cbn [snd Api.code].
    + split; [discriminate|]. intros (plan' & [= <-] & _ & _ & Hnone).
      apply redis_exists_false in Hnone. congruence.
    + split; [|reflexivity]. intros _. exists plan.
      by apply redis_exists_false in E.
  - unfold Api.submit_mission.
    destruct request as [plan|]; [|by intros _].
    destruct schema_loaded; cbn [negb]; [|by intros _].
    destruct validation as [text|]; [by intros _|].
    destruct (Api.redis_exists store (status_key (mission_id plan)));
      [by intros _|].
    cbn [snd Api.code]. by intros H.
  - intros Hnone. unfold Api.abort_mission.
    by rewrite (proj2 (redis_exists_false _ _) Hnone).
Qed.

(** X18, at a plan that fails the validation. *)
Lemma refused_requests_change_nothing_witness :
  Api.code
    (Api.submit_mission ∅ true (Some "'mission_name' is a required property")
       (Some (MkPlan "m1" [set_throttle]))).2
  <> 202
  /\ Api.queued
       (Api.submit_mission ∅ true
          (Some "'mission_name' is a required property")
          (Some (MkPlan "m1" [set_throttle]))).1
     = [].
Proof.
  assert (Api.code
            (Api.submit_mission ∅ true
               (Some "'mission_name' is a required property")
               (Some (MkPlan "m1" [set_throttle]))).2
          <> 202) as H by discriminate.
  split; [exact H|].
  exact (proj1 (proj1 (proj2 (refused_requests_change_nothing ∅ true
                         (Some "'mission_name' is a required property")
                         (Some (MkPlan "m1" [set_throttle])) "m1")) H)).
Defined.

(** X19: a mission id is taken for good.  Once a plan has been accepted,
    and whether or not the worker has run it since (to completion, abort or
    failure), a further submission under the same id, valid as it may be, is
    answered 409 and is not handed to the worker. *)
Theorem resubmission_conflicts
    (store : gmap string payload) (plan again : mission_plan)
    (env : environment) :
  store !! status_key (mission_id plan) = None ->
  mission_id again = mission_id plan ->
  let queued_store :=
    Api.store_after (Api.submit_mission store true None (Some plan)).1 store in
  let run_store := redis_after (execute_mission env plan).1 queued_store in
  Api.code (Api.submit_mission queued_store true None (Some again)).2 = 409
  /\ Api.queued (Api.submit_mission queued_store true None (Some again)).1 = []
  /\ Api.code (Api.submit_mission run_store true None (Some again)).2 = 409
  /\ Api.queued (Api.submit_mission run_store true None (Some again)).1 = [].
Proof.
  intros Hfresh Hid queued_store run_store.
  assert (Api.redis_exists queued_store (status_key (mission_id again)) = true)
    as Hq.
  { apply redis_exists_true. rewrite Hid. subst queued_store.
    destruct (accepted_status store plan Hfresh) as [v ->]. by eexists. }
  assert (Api.redis_exists run_store (status_key (mission_id again)) = true)
    as Hr.
  { apply redis_exists_true. rewrite Hid. subst run_store.
    destruct (final_snapshot env plan queued_store) as (s & d & -> & _).
    by eexists. }
  unfold Api.submit_mission. cbn [negb]. by rewrite Hq, Hr.
Qed.

(** X19, at two plans under the id "m1". *)
Lemma resubmission_conflicts_witness :
  (∅ : gmap string payload) !! status_key "m1" = None
  /\ mission_id (MkPlan "m1" [wait_5]) = mission_id (MkPlan "m1" [set_throttle])
  /\ Api.code
       (Api.submit_mission
          (Api.store_after
             (Api.submit_mission ∅ true None
                (Some (MkPlan "m1" [set_throttle]))).1 ∅)
          true None (Some (MkPlan "m1" [wait_5]))).2
     = 409.
Proof.
  split; [reflexivity|]. split; [reflexivity|].
  exact (proj1 (resubmission_conflicts ∅ (MkPlan "m1" [set_throttle])
                  (MkPlan "m1" [wait_5]) quiet eq_refl eq_refl)).
Defined.

Section ApiAbort.

Lemma abort_mission_known (store : gmap string payload) (id : string) :
  is_Some (store !! status_key id) ->
  Api.abort_mission store id
  = ([Api.PublishAbort id;
      Api.Redis (RedisSet (status_key id)
                   (StatusSnapshot "ABORT_REQUESTED"
                      "Abort signal sent to mission worker."));
      Api.Redis (RedisPublish "mission_status"
                   (StatusMessage id "ABORT_REQUESTED"
                      "Abort signal sent to mission worker."))],
     Api.MkResponse 200 (Api.MessageBody "Abort signal sent" id)).
Proof.
  intros H. unfold Api.abort_mission.
  by rewrite (proj2 (redis_exists_true _ _) H).
Qed.

Lemma no_abort_app (id : string) (earlier later : list (option message)) :
  no_abort id (length earlier) earlier ->
  no_abort id (length earlier) (earlier ++ later).
Proof. unfold no_abort. by rewrite take_app_length, firstn_all. Qed.

Lemma abort_signal_own (id : string) :
  abort_signal id (Some (MkMessage "message" (JStr id))) = true.
Proof.
  unfold abort_signal, data_is. cbn [msg_type msg_data].
  apply andb_true_iff. split; apply String.eqb_refl.
Qed.

End ApiAbort.

(** X20: from the abort endpoint to the worker.  For a mission that has a
    status, [abort_mission] answers 200 and publishes the mission id on the
    abort channel; when that message is the one the worker reads before a
    step of this mission, the steps before having run without incident, the
    run returns ABORTED and forwards none of the remaining commands. *)
Theorem abort_request_stops_the_mission
    (store : gmap string payload) (plan : mission_plan) (flag : bool)
    (done : list cmd_dict) (cmd : cmd_dict) (rest : list cmd_dict)
    (earlier : list (option message)) :
  is_Some (store !! status_key (mission_id plan)) ->
  flight_plan plan = done ++ cmd :: rest ->
  Forall (fun c => well_formed c = true) done ->
  length earlier = length done ->
  no_abort (mission_id plan) (length earlier) earlier ->
  let request := Api.abort_mission store (mission_id plan) in
  let env := MkEnv flag (earlier ++ Api.abort_messages request.1) in
  Api.code request.2 = 200
  /\ (execute_mission env plan).2 = Returned "ABORTED"
  /\ forwarded (execute_mission env plan).1 = map CommandMessage done.
Proof.
  intros Hknown Hsplit Hwf Hlen Hna request env. subst env request.
  rewrite (abort_mission_known store _ Hknown).
  cbn [fst snd Api.code Api.abort_messages].
  split; [reflexivity|].
  assert (execute_mission
            (MkEnv flag
               (earlier ++ [Some (MkMessage "message" (JStr (mission_id plan)))]))
            plan
          = (started (mission_id plan)
             ++ (nominal (mission_id plan) (length (flight_plan plan)) 0 done
                 ++ abort_events (mission_id plan))
             ++ released, Returned "ABORTED")) as E.
  { unfold execute_mission. cbn [abort_channel]. rewrite Hsplit at 2.
    rewrite (run_flight_plan_abort _ _ done cmd rest _
               (Some (MkMessage "message" (JStr (mission_id plan)))) Hwf).
    - reflexivity.
    - rewrite <- Hlen. by apply no_abort_app.
    - rewrite <- Hlen. by rewrite lookup_app_r, Nat.sub_diag.
    - apply abort_signal_own. }
  rewrite E. cbn [fst snd]. split; [reflexivity|].
  rewrite !forwarded_app, (nominal_forwarded _ _ 0 _ Hwf).
  cbn. by rewrite !app_nil_r.
Qed.

(** X20, at an abort read before the second step of a plan. *)
Lemma abort_request_stops_the_mission_witness :
  is_Some ((<[status_key "m1" := StatusSnapshot "IN_PROGRESS" "x"]> ∅
            : gmap string payload) !! status_key "m1")
  /\ Forall (fun c => well_formed c = true) [set_throttle]
  /\ no_abort "m1" 1 [None]
  /\ (execute_mission
        (MkEnv false
           ([None]
            ++ Api.abort_messages
                 (Api.abort_mission
                    (<[status_key "m1" := StatusSnapshot "IN_PROGRESS" "x"]> ∅)
                    "m1").1))
        (MkPlan "m1" [set_throttle; wait_5])).2
     = Returned "ABORTED".
Proof.
  assert (is_Some ((<[status_key "m1" := StatusSnapshot "IN_PROGRESS" "x"]> ∅
                    : gmap string payload) !! status_key "m1")) as Hk
    by (rewrite lookup_insert_eq; by eexists).
  assert (Forall (fun c => well_formed c = true) [set_throttle]) as Hwf
    by (repeat constructor).
  assert (no_abort "m1" 1 [None]) as Hna by (repeat constructor).
  split; [exact Hk|]. split; [exact Hwf|]. split; [exact Hna|].
  exact (proj1 (proj2 (abort_request_stops_the_mission
                  (<[status_key "m1" := StatusSnapshot "IN_PROGRESS" "x"]> ∅)
                  (MkPlan "m1" [set_throttle; wait_5]) false
                  [set_throttle] wait_5 [] [None]
                  Hk eq_refl Hwf eq_refl Hna))).
Defined.




(** X25: [submit_mission] hands the task to the worker before it writes
    QUEUED.  When a run of the worker lands between the two, the QUEUED
    status overwrites the terminal status of the run, and
    [get_mission_status] answers QUEUED although the mission has ended. *)
Theorem queued_written_after_the_task_is_handed_over
    (store : gmap string payload) (plan : mission_plan) (env : environment) :
  store !! status_key (mission_id plan) = None ->
  let actions := (Api.submit_mission store true None (Some plan)).1 in
  let run_store := redis_after (execute_mission env plan).1 store in
  Api.queued (take 2 actions) = [plan]
  /\ Api.store_after (take 2 actions) store = store
  /\ Api.get_mission_status (Api.store_after (drop 2 actions) run_store)
       (mission_id plan)
     = Api.MkResponse 200
         (Api.StoredBody
            (StatusSnapshot "QUEUED"
               "Mission plan validated and queued for execution.")).
Proof.
  intros Hfresh actions run_store. subst actions.
  unfold Api.submit_mission. cbn [negb].
  rewrite (proj2 (redis_exists_false _ _) Hfresh).
  cbn [fst take drop Api.queued].
  split; [reflexivity|]. split; [reflexivity|].
  unfold Api.get_mission_status, Api.store_after.
  cbn [foldl Api.store_apply redis_apply].
  by rewrite lookup_insert_eq.
Qed.

(** X25, at an empty plan, which the worker completes at once. *)
Lemma queued_written_after_the_task_is_handed_over_witness :
  (∅ : gmap string payload) !! status_key "m1" = None
  /\ (execute_mission quiet (MkPlan "m1" [])).2 = Returned "COMPLETED"
  /\ Api.get_mission_status
       (Api.store_after
          (drop 2 (Api.submit_mission ∅ true None (Some (MkPlan "m1" []))).1)
          (redis_after (execute_mission quiet (MkPlan "m1" [])).1 ∅))
       "m1"
     = Api.MkResponse 200
         (Api.StoredBody
            (StatusSnapshot "QUEUED"
               "Mission plan validated and queued for execution.")).
Proof.
  assert ((∅ : gmap string payload) !! status_key "m1" = None) as Hfresh
    by reflexivity.
  split; [exact Hfresh|]. split; [reflexivity|].
  exact (proj2 (proj2 (queued_written_after_the_task_is_handed_over ∅
                         (MkPlan "m1" []) quiet Hfresh))).
Defined.

(** * The WebSocket clients of flight control *)

Set Warnings "-clear-no-such-hyp".

Section ClientFacts.

Lemma handler_leaves_registered (clients : gset nat) (ws : Clients.websocket)
    (how : Clients.closing) :
  Clients.ws_id ws ∈ clients ->
  Clients.handler_leaves clients ws how
  = (clients ∖ {[Clients.ws_id ws]},
     Clients.closing_log ws how
     ++ [Clients.Log "INFO"
           ("Client disconnected: " +:+ Clients.remote_address ws)],
     match how with
     | Clients.TaskCancelled => Clients.RaisesCancelled
     | _ => Clients.Returns
     end).
Proof.
  intros Hin. unfold Clients.handler_leaves, Clients.unregister_client.
  by rewrite decide_True.
Qed.

End ClientFacts.

(** X23: however the connection ends (closed, an exception of any kind, or
    the cancellation of the task), [websocket_handler] removes the client it
    registered: the set of clients is the one it found, minus that client,
    and the very same set for a connection that was not in it.  The removal
    never raises, and only a cancellation goes on to the caller. *)
Theorem websocket_handler_unregisters_its_client
    (clients : gset nat) (ws : Clients.websocket) (how : Clients.closing) :
  (Clients.websocket_handler clients ws how).1.1
  = clients ∖ {[Clients.ws_id ws]}
  /\ (Clients.ws_id ws ∉ clients ->
      (Clients.websocket_handler clients ws how).1.1 = clients)
  /\ (Clients.websocket_handler clients ws how).2 <> Clients.RaisesKeyError
  /\ ((Clients.websocket_handler clients ws how).2 = Clients.RaisesCancelled
      <-> how = Clients.TaskCancelled).
Proof.
  unfold Clients.websocket_handler, Clients.register_client.
  rewrite handler_leaves_registered by set_solver.
  cbn [fst snd]. split; [set_solver|]. split; [set_solver|].
  split; destruct how; try done; by split.
Qed.

(** X24: two handlers whose waits overlap.  When two different connections
    are registered one after the other and then leave, the first one first,
    each leaves without error and the set of clients ends as it was before,
    minus the two. *)
Theorem overlapping_handlers_leave_cleanly
    (clients : gset nat) (a b : Clients.websocket)
    (how_a how_b : Clients.closing) :
  Clients.ws_id a <> Clients.ws_id b ->
  let both :=
    (Clients.register_client (Clients.register_client clients a).1 b).1 in
  let a_left := Clients.handler_leaves both a how_a in
  let b_left := Clients.handler_leaves a_left.1.1 b how_b in
  a_left.2 <> Clients.RaisesKeyError
  /\ b_left.2 <> Clients.RaisesKeyError
  /\ b_left.1.1 = clients ∖ {[Clients.ws_id a]} ∖ {[Clients.ws_id b]}.
Proof.
  intros Hne both a_left b_left. subst b_left a_left both.
  unfold Clients.register_client. cbn [fst].
  rewrite (handler_leaves_registered _ a) by set_solver. cbn [fst snd].
  rewrite (handler_leaves_registered _ b) by set_solver. cbn [fst snd].
  split; [by destruct how_a|]. split; [by destruct how_b|]. set_solver.
Qed.

(** X24, at two connections. *)
Lemma overlapping_handlers_leave_cleanly_witness :
  Clients.ws_id (Clients.MkWebsocket 1 "('10.0.0.1', 5000)")
  <> Clients.ws_id (Clients.MkWebsocket 2 "('10.0.0.2', 5000)")
  /\ (Clients.handler_leaves
        (Clients.register_client
           (Clients.register_client ∅
              (Clients.MkWebsocket 1 "('10.0.0.1', 5000)")).1
           (Clients.MkWebsocket 2 "('10.0.0.2', 5000)")).1
        (Clients.MkWebsocket 1 "('10.0.0.1', 5000)") Clients.ClosedOK).2
     <> Clients.RaisesKeyError.
Proof.
  assert (Clients.ws_id (Clients.MkWebsocket 1 "('10.0.0.1', 5000)")
          <> Clients.ws_id (Clients.MkWebsocket 2 "('10.0.0.2', 5000)")) as H
    by discriminate.
  split; [exact H|].
  exact (proj1 (overlapping_handlers_leave_cleanly ∅
                  (Clients.MkWebsocket 1 "('10.0.0.1', 5000)")
                  (Clients.MkWebsocket 2 "('10.0.0.2', 5000)")
                  Clients.ClosedOK Clients.ClosedError H)).
Defined.
